(** * config-engine: schema validation, override validation and resolution

    A shallow embedding of the three pure services of the repository,

      - apps/schema_registry/validators.py        (SchemaValidator)
      - apps/config_core/services/override_validator.py
                                                  (OverrideValidationService)
      - apps/config_core/services/config_resolver.py   (ConfigResolver)

    over a model of the JSON-like Python values they inspect.

    Modelling conventions.
      - A Python value is a term of [value]; a dict is an association list
        in insertion order whose keys are strings (JSON objects), and
        [wf_value] says that keys are unique at every level.
      - A float is the rational it denotes (finite floats); the services
        only compare numbers, they never compute with them.
      - A Python exception is the [Raise] outcome of the [res] monad.
      - A helper that appends to the caller's [errors] list returns the
        list of errors it appends, in order; the caller concatenates.
      - An error message is the template used together with the data that
        is interpolated into it; rendering to text is not modelled.
      - [copy.deepcopy] rebuilds the value; values are immutable here, so
        the copy is equal to the original ([deepcopy_id]). *)

From Stdlib Require Import List String Ascii ZArith QArith Bool.
Import ListNotations.
Local Open Scope string_scope.
Local Open Scope list_scope.

(* ------------------------------------------------------------------ *)
(** ** Python values *)

Definition dict (A : Type) : Type := list (string * A).

Unset Elimination Schemes.
Inductive value : Type :=
| VNone
| VBool (b : bool)
| VInt (n : Z)
| VFloat (q : Q)
| VStr (s : string)
| VList (l : list value)
| VDict (d : dict value).
Set Elimination Schemes.

Inductive pytype : Type :=
| NoneType | bool_t | int_t | float_t | str_t | list_t | dict_t.

Definition pytype_eqb (a b : pytype) : bool :=
  match a, b with
  | NoneType, NoneType | bool_t, bool_t | int_t, int_t | float_t, float_t
  | str_t, str_t | list_t, list_t | dict_t, dict_t => true
  | _, _ => false
  end.

Definition type_of (v : value) : pytype :=
  match v with
  | VNone => NoneType
  | VBool _ => bool_t
  | VInt _ => int_t
  | VFloat _ => float_t
  | VStr _ => str_t
  | VList _ => list_t
  | VDict _ => dict_t
  end.

(** [type(v).__name__] *)
Definition type_name (v : value) : string :=
  match type_of v with
  | NoneType => "NoneType"
  | bool_t => "bool"
  | int_t => "int"
  | float_t => "float"
  | str_t => "str"
  | list_t => "list"
  | dict_t => "dict"
  end.

(** [bool] is a subclass of [int]. *)
Definition issubclass (a b : pytype) : bool :=
  pytype_eqb a b ||
  match a, b with
  | bool_t, int_t => true
  | _, _ => false
  end.

(** [isinstance(v, (t1, ..., tn))] *)
Definition isinstance (v : value) (ts : list pytype) : bool :=
  existsb (issubclass (type_of v)) ts.

(* ------------------------------------------------------------------ *)
(** ** Dictionaries in insertion order *)

Fixpoint lookup {A : Type} (k : string) (d : dict A) : option A :=
  match d with
  | [] => None
  | (k', a) :: d' => if String.eqb k k' then Some a else lookup k d'
  end.

Definition keys {A : Type} (d : dict A) : list string := map fst d.

Definition mem {A : Type} (k : string) (d : dict A) : bool :=
  match lookup k d with
  | Some _ => true
  | None => false
  end.

(** [d[k] = a]: an existing key keeps its position, a new key goes last. *)
Fixpoint dict_set {A : Type} (k : string) (a : A) (d : dict A) : dict A :=
  match d with
  | [] => [(k, a)]
  | (k', a') :: d' =>
      if String.eqb k k' then (k', a) :: d' else (k', a') :: dict_set k a d'
  end.

Fixpoint nodupb (l : list string) : bool :=
  match l with
  | [] => true
  | k :: l' => negb (existsb (String.eqb k) l') && nodupb l'
  end.

(** Keys are unique in every dict of the value. *)
Fixpoint wf_value (v : value) : bool :=
  match v with
  | VList l => forallb wf_value l
  | VDict d =>
      nodupb (map fst d) &&
      (fix wf_items (d : dict value) : bool :=
         match d with
         | [] => true
         | (_, x) :: d' => wf_value x && wf_items d'
         end) d
  | _ => true
  end.

(** [copy.deepcopy] on JSON-like values. *)
Fixpoint deepcopy (v : value) : value :=
  match v with
  | VList l => VList (map deepcopy l)
  | VDict d =>
      VDict ((fix copy_items (d : dict value) : dict value :=
                match d with
                | [] => []
                | (k, x) :: d' => (k, deepcopy x) :: copy_items d'
                end) d)
  | _ => v
  end.

(* ------------------------------------------------------------------ *)
(** ** Exceptions and the result monad *)

Module SchemaError.
(** The message templates of validators.py with their arguments; a set
    of keys is listed in the order of the dict it comes from. *)
Inductive msg : Type :=
| NamespacesRequired
| NamespacesNonEmptyDict
| NamespaceMustBeDict (ns_name : string)
| FieldDefMustBeDict
| TypeRequired
| TypeMustBeOneOf (declared_type : value)
| DefaultRequired
| DefaultIntegerNotBool (got : string)
| DefaultFloatNotBool
| DefaultMustBeOfType (declared_type : value) (got : string)
| ConstraintsMustBeDict
| UnknownConstraintKeys (invalid_keys : list string)
| MinMustBeNumeric
| MaxMustBeNumeric
| MinGreaterThanMax (min_val max_val : value)
| AllowedValuesNonEmptyList
| PolicyMustBeDict
| UnknownPolicyKeys (invalid_keys : list string)
| PolicyKeyNonEmptyList (key : string)
| PolicyItemsMustBeStrings (key : string) (non_strings : list value).

Record t : Type := mk { field : string; message : msg }.
End SchemaError.

Inductive exn : Type :=
| KeyError (key : value)
| TypeError
| AttributeError
| SchemaValidationError (errors : list SchemaError.t).

Inductive res (A : Type) : Type :=
| Ok (a : A)
| Raise (e : exn).
Arguments Ok {A} a.
Arguments Raise {A} e.

Definition bind {A B : Type} (m : res A) (k : A -> res B) : res B :=
  match m with
  | Ok a => k a
  | Raise e => Raise e
  end.

Declare Scope res_scope.
Delimit Scope res_scope with res.
Notation "x <- m ;; k" := (bind m (fun x => k))
  (at level 61, m at next level, right associativity) : res_scope.
Notation "' pat <- m ;; k" := (bind m (fun x => match x with pat => k end))
  (at level 61, pat pattern, m at next level, right associativity) : res_scope.
Local Open Scope res_scope.

(** A [for] loop whose body appends errors: the errors of all iterations
    in order, or the first exception. *)
Fixpoint for_each {A E : Type} (f : A -> res (list E)) (l : list A)
  : res (list E) :=
  match l with
  | [] => Ok []
  | a :: l' =>
      es <- f a ;;
      es' <- for_each f l' ;;
      Ok (es ++ es')
  end.

(** A comprehension whose element expression may raise. *)
Fixpoint map_res {A B : Type} (f : A -> res B) (l : list A) : res (list B) :=
  match l with
  | [] => Ok []
  | a :: l' =>
      b <- f a ;;
      bs <- map_res f l' ;;
      Ok (b :: bs)
  end.

(** A [for] loop whose body updates a local state. *)
Fixpoint fold_res {A S : Type} (f : S -> A -> res S) (l : list A) (s : S)
  : res S :=
  match l with
  | [] => Ok s
  | a :: l' =>
      s' <- f s a ;;
      fold_res f l' s'
  end.

(* ------------------------------------------------------------------ *)
(** ** Python operators on values *)

Definition is_none (v : value) : bool :=
  match v with VNone => true | _ => false end.

(** [v is True], [v is False] *)
Definition is_True (v : value) : bool :=
  match v with VBool true => true | _ => false end.
Definition is_False (v : value) : bool :=
  match v with VBool false => true | _ => false end.

(** The number denoted by a bool, an int or a float. *)
Definition as_real (v : value) : option Q :=
  match v with
  | VBool b => Some (if b then 1%Q else 0%Q)
  | VInt n => Some (inject_Z n)
  | VFloat q => Some q
  | _ => None
  end.

(** [a == b] *)
Fixpoint py_eq (a b : value) {struct a} : bool :=
  match a, b with
  | VNone, VNone => true
  | VStr s, VStr t => String.eqb s t
  | VList l, VList m =>
      (fix eq_list (l m : list value) {struct l} : bool :=
         match l, m with
         | [], [] => true
         | x :: l', y :: m' => py_eq x y && eq_list l' m'
         | _, _ => false
         end) l m
  | VDict d, VDict e =>
      Nat.eqb (List.length d) (List.length e) &&
      (fix eq_items (d : dict value) : bool :=
         match d with
         | [] => true
         | (k, x) :: d' =>
             match lookup k e with
             | Some y => py_eq x y
             | None => false
             end && eq_items d'
         end) d
  | VBool _, _ | VInt _, _ | VFloat _, _ =>
      match as_real a, as_real b with
      | Some x, Some y => Qeq_bool x y
      | _, _ => false
      end
  | _, _ => false
  end.

(** [bool(v)] *)
Definition truthy (v : value) : bool :=
  match v with
  | VNone => false
  | VBool b => b
  | VInt n => negb (Z.eqb n 0)
  | VFloat q => negb (Qeq_bool q 0)
  | VStr s => negb (String.eqb s "")
  | VList l => match l with [] => false | _ => true end
  | VDict d => match d with [] => false | _ => true end
  end.

(** Lists and dicts are unhashable. *)
Definition hashable (v : value) : bool :=
  match v with
  | VList _ | VDict _ => false
  | _ => true
  end.

(** [v[k]] for a string key [k] *)
Definition py_getitem (v : value) (k : string) : res value :=
  match v with
  | VDict d =>
      match lookup k d with
      | Some x => Ok x
      | None => Raise (KeyError (VStr k))
      end
  | _ => Raise TypeError
  end.

(** [v.get(k, default)] *)
Definition py_get (v : value) (k : string) (default : value) : res value :=
  match v with
  | VDict d =>
      match lookup k d with
      | Some x => Ok x
      | None => Ok default
      end
  | _ => Raise AttributeError
  end.

(** [v.items()] *)
Definition py_items (v : value) : res (dict value) :=
  match v with
  | VDict d => Ok d
  | _ => Raise AttributeError
  end.

Definition str_contains (sub s : string) : bool :=
  match String.index 0 sub s with
  | Some _ => true
  | None => false
  end.

(** [x in c] *)
Definition py_in (x c : value) : res bool :=
  match c with
  | VList l => Ok (existsb (py_eq x) l)
  | VDict d =>
      if hashable x then
        Ok (match x with VStr k => mem k d | _ => false end)
      else Raise TypeError
  | VStr s =>
      match x with
      | VStr sub => Ok (str_contains sub s)
      | _ => Raise TypeError
      end
  | _ => Raise TypeError
  end.

(** [x in s] for a frozenset [s] of strings *)
Definition in_frozenset (x : value) (s : list string) : res bool :=
  if hashable x then
    Ok (match x with VStr k => existsb (String.eqb k) s | _ => false end)
  else Raise TypeError.

(** [tbl[x]] and [tbl.get(x)] for a constant table keyed by strings *)
Definition table_getitem {A : Type} (tbl : dict A) (x : value) : res A :=
  if hashable x then
    match x with
    | VStr k =>
        match lookup k tbl with
        | Some a => Ok a
        | None => Raise (KeyError x)
        end
    | _ => Raise (KeyError x)
    end
  else Raise TypeError.

Definition table_get {A : Type} (tbl : dict A) (x : value) : res (option A) :=
  if hashable x then
    Ok (match x with VStr k => lookup k tbl | _ => None end)
  else Raise TypeError.

(** [len(v)] *)
Definition py_len (v : value) : res Z :=
  match v with
  | VStr s => Ok (Z.of_nat (String.length s))
  | VList l => Ok (Z.of_nat (List.length l))
  | VDict d => Ok (Z.of_nat (List.length d))
  | _ => Raise TypeError
  end.

Definition Qltb (x y : Q) : bool :=
  match Qcompare x y with
  | Lt => true
  | _ => false
  end.

(** [a < b]: numbers by value, strings and lists lexicographically. *)
Fixpoint py_lt (a b : value) {struct a} : res bool :=
  match a, b with
  | VStr s, VStr t => Ok (String.ltb s t)
  | VList l, VList m =>
      (fix lt_list (l m : list value) {struct l} : res bool :=
         match l, m with
         | [], [] => Ok false
         | [], _ :: _ => Ok true
         | _ :: _, [] => Ok false
         | x :: l', y :: m' => if py_eq x y then lt_list l' m' else py_lt x y
         end) l m
  | VBool _, _ | VInt _, _ | VFloat _, _ =>
      match as_real a, as_real b with
      | Some x, Some y => Ok (Qltb x y)
      | _, _ => Raise TypeError
      end
  | _, _ => Raise TypeError
  end.

(** [a > b] *)
Definition py_gt (a b : value) : res bool := py_lt b a.

Definition nonempty {A : Type} (l : list A) : bool :=
  match l with [] => false | _ => true end.

(* ------------------------------------------------------------------ *)
(** ** Constants and helpers shared by validators.py and
       override_validator.py (both files define them identically) *)

Definition _TYPE_CHECKERS : dict (list pytype) :=
  [ ("string", [str_t]);
    ("integer", [int_t]);
    ("boolean", [bool_t]);
    ("float", [float_t; int_t]);
    ("list", [list_t]);
    ("dict", [dict_t]) ].

Definition _VALID_TYPES : list string := keys _TYPE_CHECKERS.

Definition _VALID_CONSTRAINT_KEYS : list string :=
  ["min"; "max"; "allowed_values"].

Definition _VALID_POLICY_KEYS : list string :=
  ["editable_by_roles"; "environment_restrictions"].

Definition _is_numeric (v : value) : bool :=
  isinstance v [int_t; float_t] && negb (isinstance v [bool_t]).

(** override_validator.py, [_type_matches] *)
Definition _type_matches (declared_type v : value) : res bool :=
  if py_eq declared_type (VStr "integer") then
    Ok (isinstance v [int_t] && negb (isinstance v [bool_t]))
  else if py_eq declared_type (VStr "float") then
    Ok (isinstance v [float_t; int_t] && negb (isinstance v [bool_t]))
  else
    checker <- table_get _TYPE_CHECKERS declared_type ;;
    match checker with
    | None => Ok false
    | Some ts => Ok (isinstance v ts)
    end.

(* ------------------------------------------------------------------ *)
(** ** validators.py: class SchemaValidator *)

Module SchemaValidator.
Import SchemaError.

Definition _validate_default (field_path : string)
    (declared_type default_value : value) : res (list SchemaError.t) :=
  checker <- table_getitem _TYPE_CHECKERS declared_type ;;
  if py_eq declared_type (VStr "integer")
     && isinstance default_value [bool_t] then
    Ok [mk field_path (DefaultIntegerNotBool (type_name default_value))]
  else if py_eq declared_type (VStr "float")
          && isinstance default_value [bool_t] then
    Ok [mk field_path DefaultFloatNotBool]
  else if negb (isinstance default_value checker) then
    Ok [mk field_path
          (DefaultMustBeOfType declared_type (type_name default_value))]
  else Ok [].

Definition _validate_constraints (field_path : string) (constraints : value)
  : res (list SchemaError.t) :=
  let c_path := (field_path ++ ".constraints")%string in
  match constraints with
  | VDict c =>
      let invalid_keys :=
        filter (fun k => negb (existsb (String.eqb k) _VALID_CONSTRAINT_KEYS))
               (keys c) in
      let e_keys :=
        if nonempty invalid_keys
        then [mk c_path (UnknownConstraintKeys invalid_keys)] else [] in
      min_val <- py_get constraints "min" VNone ;;
      max_val <- py_get constraints "max" VNone ;;
      has_min <- py_in (VStr "min") constraints ;;
      let '(e_min, min_val) :=
        if has_min && negb (_is_numeric min_val)
        then ([mk (c_path ++ ".min")%string MinMustBeNumeric], VNone)
        else ([], min_val) in
      has_max <- py_in (VStr "max") constraints ;;
      let '(e_max, max_val) :=
        if has_max && negb (_is_numeric max_val)
        then ([mk (c_path ++ ".max")%string MaxMustBeNumeric], VNone)
        else ([], max_val) in
      crossed <-
        (if negb (is_none min_val) && negb (is_none max_val)
         then py_gt min_val max_val else Ok false) ;;
      let e_cross :=
        if crossed
        then [mk c_path (MinGreaterThanMax min_val max_val)] else [] in
      has_av <- py_in (VStr "allowed_values") constraints ;;
      e_av <-
        (if has_av then
           av <- py_getitem constraints "allowed_values" ;;
           match av with
           | VList (_ :: _) => Ok []
           | _ => Ok [mk (c_path ++ ".allowed_values")%string
                        AllowedValuesNonEmptyList]
           end
         else Ok []) ;;
      Ok (e_keys ++ e_min ++ e_max ++ e_cross ++ e_av)
  | _ => Ok [mk c_path ConstraintsMustBeDict]
  end.

Definition _validate_policy (field_path : string) (policy : value)
  : res (list SchemaError.t) :=
  let p_path := (field_path ++ ".policy")%string in
  match policy with
  | VDict p =>
      let invalid_keys :=
        filter (fun k => negb (existsb (String.eqb k) _VALID_POLICY_KEYS))
               (keys p) in
      let e_keys :=
        if nonempty invalid_keys
        then [mk p_path (UnknownPolicyKeys invalid_keys)] else [] in
      e_lists <-
        for_each
          (fun key =>
             present <- py_in (VStr key) policy ;;
             if negb present then Ok []
             else
               v <- py_getitem policy key ;;
               let key_path := (p_path ++ "." ++ key)%string in
               match v with
               | VList ((_ :: _) as items) =>
                   let non_strings :=
                     filter (fun item => negb (isinstance item [str_t]))
                            items in
                   if nonempty non_strings
                   then Ok [mk key_path
                              (PolicyItemsMustBeStrings key non_strings)]
                   else Ok []
               | _ => Ok [mk key_path (PolicyKeyNonEmptyList key)]
               end)
          ["editable_by_roles"; "environment_restrictions"] ;;
      Ok (e_keys ++ e_lists)
  | _ => Ok [mk p_path PolicyMustBeDict]
  end.

Definition _validate_field (field_path : string) (field_def : value)
  : res (list SchemaError.t) :=
  declared_type <- py_get field_def "type" VNone ;;
  '(e_type, type_valid) <-
    (if is_none declared_type then
       Ok ([mk field_path TypeRequired], false)
     else
       known <- in_frozenset declared_type _VALID_TYPES ;;
       if negb known
       then Ok ([mk field_path (TypeMustBeOneOf declared_type)], false)
       else Ok ([], true)) ;;
  has_default <- py_in (VStr "default") field_def ;;
  e_default <-
    (if negb has_default then Ok [mk field_path DefaultRequired]
     else if type_valid then
       default_value <- py_getitem field_def "default" ;;
       _validate_default field_path declared_type default_value
     else Ok []) ;;
  has_constraints <- py_in (VStr "constraints") field_def ;;
  e_constraints <-
    (if has_constraints then
       constraints <- py_getitem field_def "constraints" ;;
       _validate_constraints field_path constraints
     else Ok []) ;;
  has_policy <- py_in (VStr "policy") field_def ;;
  e_policy <-
    (if has_policy then
       policy <- py_getitem field_def "policy" ;;
       _validate_policy field_path policy
     else Ok []) ;;
  Ok (e_type ++ e_default ++ e_constraints ++ e_policy).

(** The body of the loop over the fields of one namespace. *)
Definition validate_field_entry (ns_path : string) (entry : string * value)
  : res (list SchemaError.t) :=
  let '(field_name, field_def) := entry in
  let field_path := (ns_path ++ "." ++ field_name)%string in
  match field_def with
  | VDict _ => _validate_field field_path field_def
  | _ => Ok [mk field_path FieldDefMustBeDict]
  end.

(** The body of the loop over the namespaces. *)
Definition validate_namespace_entry (entry : string * value)
  : res (list SchemaError.t) :=
  let '(ns_name, ns_value) := entry in
  let ns_path := ("namespaces." ++ ns_name)%string in
  match ns_value with
  | VDict fields => for_each (validate_field_entry ns_path) fields
  | _ => Ok [mk ns_path (NamespaceMustBeDict ns_name)]
  end.

(** Returns [None] on success and raises [SchemaValidationError]
    carrying the accumulated errors otherwise. *)
Definition validate (schema_definition : value) : res unit :=
  match schema_definition with
  | VDict top =>
      if negb (mem "namespaces" top) then
        Raise (SchemaValidationError [mk "namespaces" NamespacesRequired])
      else
        namespaces <- py_getitem schema_definition "namespaces" ;;
        match namespaces with
        | VDict ((_ :: _) as nss) =>
            errors <- for_each validate_namespace_entry nss ;;
            if nonempty errors then Raise (SchemaValidationError errors)
            else Ok tt
        | _ =>
            Raise (SchemaValidationError
                     [mk "namespaces" NamespacesNonEmptyDict])
        end
  | _ => Raise (SchemaValidationError [mk "namespaces" NamespacesRequired])
  end.
End SchemaValidator.

(* ------------------------------------------------------------------ *)
(** ** override_validator.py *)

Module ErrorDict.
(** The eight values of the key code. *)
Inductive error_code : Type :=
| unknown_namespace
| unknown_field
| missing_required
| immutable_field
| role_forbidden
| env_forbidden
| type_mismatch
| constraint_violation.

Definition code_eqb (a b : error_code) : bool :=
  match a, b with
  | unknown_namespace, unknown_namespace
  | unknown_field, unknown_field
  | missing_required, missing_required
  | immutable_field, immutable_field
  | role_forbidden, role_forbidden
  | env_forbidden, env_forbidden
  | type_mismatch, type_mismatch
  | constraint_violation, constraint_violation => true
  | _, _ => false
  end.

(** The message templates of override_validator.py with their
    arguments. *)
Inductive msg : Type :=
| NamespaceNotInSchema (ns_name : string)
| NamespaceOverrideMustBeDict (ns_name : string)
| FieldNotInNamespace (field_name ns_name : string)
| RequiredNotProvided (ns_name field_name : string)
| Immutable (field_path : string)
| RoleNotAuthorised (acting_role field_path : string)
                    (editable_by_roles : value)
| EnvNotPermitted (environment field_path : string)
                  (env_restrictions : value)
| ExpectsType (field_path : string) (declared_type : value) (got : string)
| BelowMinimum (field_path : string) (comparable min_val : value)
| ExceedsMaximum (field_path : string) (comparable max_val : value)
| NotInAllowedValues (field_path : string)
                     (override_value allowed_values : value).

Record t : Type := mk { field : string; code : error_code; message : msg }.
End ErrorDict.

Record OverrideValidationRequest : Type := {
  schema : value;
  overrides : value;
  acting_role : string;
  environment : string
}.

Record OverrideValidationResult : Type := {
  valid : bool;
  errors : list ErrorDict.t
}.

Module OverrideValidationService.
Import ErrorDict.

Definition _validate_constraints (field_path : string)
    (declared_type override_value constraints : value)
  : res (list ErrorDict.t) :=
  min_val <- py_get constraints "min" VNone ;;
  max_val <- py_get constraints "max" VNone ;;
  allowed_values <- py_get constraints "allowed_values" VNone ;;
  e_bounds <-
    (if negb (is_none min_val) || negb (is_none max_val) then
       comparable <-
         (if py_eq declared_type (VStr "integer")
             || py_eq declared_type (VStr "float")
          then Ok override_value
          else if py_eq declared_type (VStr "list")
          then n <- py_len override_value ;; Ok (VInt n)
          else Ok VNone) ;;
       if negb (is_none comparable) then
         below <-
           (if negb (is_none min_val) then py_lt comparable min_val
            else Ok false) ;;
         let e_min :=
           if below
           then [mk field_path constraint_violation
                    (BelowMinimum field_path comparable min_val)]
           else [] in
         above <-
           (if negb (is_none max_val) then py_gt comparable max_val
            else Ok false) ;;
         let e_max :=
           if above
           then [mk field_path constraint_violation
                    (ExceedsMaximum field_path comparable max_val)]
           else [] in
         Ok (e_min ++ e_max)
       else Ok []
     else Ok []) ;;
  e_allowed <-
    (if negb (is_none allowed_values) then
       member <- py_in override_value allowed_values ;;
       if negb member
       then Ok [mk field_path constraint_violation
                   (NotInAllowedValues field_path override_value
                                       allowed_values)]
       else Ok []
     else Ok []) ;;
  Ok (e_bounds ++ e_allowed).

Definition _validate_field_override (field_path : string)
    (field_def override_value : value) (acting_role environment : string)
  : res (list ErrorDict.t) :=
  declared_type <- py_get field_def "type" (VStr "") ;;
  editable <- py_get field_def "editable" VNone ;;
  let e_immutable :=
    if is_False editable
    then [mk field_path immutable_field (Immutable field_path)] else [] in
  policy <- py_get field_def "policy" (VDict []) ;;
  editable_by_roles <- py_get policy "editable_by_roles" VNone ;;
  e_role <-
    (if negb (is_none editable_by_roles) then
       member <- py_in (VStr acting_role) editable_by_roles ;;
       if negb member
       then Ok [mk field_path role_forbidden
                   (RoleNotAuthorised acting_role field_path
                                      editable_by_roles)]
       else Ok []
     else Ok []) ;;
  env_restrictions <- py_get policy "environment_restrictions" VNone ;;
  e_env <-
    (if negb (is_none env_restrictions) then
       member <- py_in (VStr environment) env_restrictions ;;
       if negb member
       then Ok [mk field_path env_forbidden
                   (EnvNotPermitted environment field_path
                                    env_restrictions)]
       else Ok []
     else Ok []) ;;
  mismatch <-
    (if truthy declared_type then
       matches <- _type_matches declared_type override_value ;;
       Ok (negb matches)
     else Ok false) ;;
  if mismatch then
    Ok (e_immutable ++ e_role ++ e_env ++
        [mk field_path type_mismatch
            (ExpectsType field_path declared_type
                         (type_name override_value))])
  else
    constraints <- py_get field_def "constraints" (VDict []) ;;
    e_constraints <-
      (if truthy constraints
       then _validate_constraints field_path declared_type override_value
                                  constraints
       else Ok []) ;;
    Ok (e_immutable ++ e_role ++ e_env ++ e_constraints).

(** Rule 1 (cont): body of the loop over the override's field names. *)
Definition unknown_field_check (ns_name : string) (schema_fields : value)
    (field_name : string) : res (list ErrorDict.t) :=
  known <- py_in (VStr field_name) schema_fields ;;
  if negb known
  then Ok [mk (ns_name ++ "." ++ field_name)%string unknown_field
              (FieldNotInNamespace field_name ns_name)]
  else Ok [].

(** Rule 2: body of the loop over the schema's fields. *)
Definition missing_required_check (ns_name : string)
    (ns_overrides : dict value) (entry : string * value)
  : res (list ErrorDict.t) :=
  let '(field_name, field_def) := entry in
  required <- py_get field_def "required" VNone ;;
  if is_True required && negb (mem field_name ns_overrides)
  then Ok [mk (ns_name ++ "." ++ field_name)%string missing_required
              (RequiredNotProvided ns_name field_name)]
  else Ok [].

(** Rules 3-7: body of the loop over the override's items. *)
Definition field_override_check (ns_name : string) (schema_fields : value)
    (acting_role environment : string) (entry : string * value)
  : res (list ErrorDict.t) :=
  let '(field_name, override_value) := entry in
  known <- py_in (VStr field_name) schema_fields ;;
  if negb known then Ok []
  else
    field_def <- py_getitem schema_fields field_name ;;
    let field_path := (ns_name ++ "." ++ field_name)%string in
    _validate_field_override field_path field_def override_value
                             acting_role environment.

(** Body of the loop over the namespaces of the override blob. *)
Definition namespace_check (schema_namespaces : value)
    (acting_role environment : string) (entry : string * value)
  : res (list ErrorDict.t) :=
  let '(ns_name, ns_overrides) := entry in
  known <- py_in (VStr ns_name) schema_namespaces ;;
  if negb known then
    Ok [mk ns_name unknown_namespace (NamespaceNotInSchema ns_name)]
  else
    match ns_overrides with
    | VDict ns_items =>
        schema_fields <- py_getitem schema_namespaces ns_name ;;
        e_unknown <-
          for_each (unknown_field_check ns_name schema_fields)
                   (keys ns_items) ;;
        schema_items <- py_items schema_fields ;;
        e_required <-
          for_each (missing_required_check ns_name ns_items)
                   schema_items ;;
        e_fields <-
          for_each (field_override_check ns_name schema_fields
                                         acting_role environment)
                   ns_items ;;
        Ok (e_unknown ++ e_required ++ e_fields)
    | _ =>
        Ok [mk ns_name unknown_namespace
               (NamespaceOverrideMustBeDict ns_name)]
    end.

Definition validate (request : OverrideValidationRequest)
  : res OverrideValidationResult :=
  schema_namespaces <- py_get request.(schema) "namespaces" (VDict []) ;;
  let overrides :=
    if truthy request.(overrides) then request.(overrides)
    else VDict [] in
  items <- py_items overrides ;;
  errors <-
    for_each (namespace_check schema_namespaces request.(acting_role)
                              request.(environment))
             items ;;
  Ok {| valid := Nat.eqb (List.length errors) 0; errors := errors |}.
End OverrideValidationService.

(* ------------------------------------------------------------------ *)
(** ** config_resolver.py: class ConfigResolver *)

Definition config : Type := dict (dict value).

Module ConfigResolver.

(** [base[ns_name][field_name] = v] *)
Definition set_field (base : config) (ns_name field_name : string)
    (v : value) : res config :=
  match lookup ns_name base with
  | Some fields => Ok (dict_set ns_name (dict_set field_name v fields) base)
  | None => Raise (KeyError (VStr ns_name))
  end.

(** Body of the loop over the fields of one overridden namespace. *)
Definition apply_field (ns_name : string) (schema_fields : value)
    (base : config) (entry : string * value) : res config :=
  let '(field_name, override_value) := entry in
  known <- py_in (VStr field_name) schema_fields ;;
  if negb known then Ok base
  else set_field base ns_name field_name (deepcopy override_value).

(** Body of the loop over the namespaces of one override layer. *)
Definition apply_namespace (schema_namespaces : value)
    (base : config) (entry : string * value) : res config :=
  let '(ns_name, ns_overrides) := entry in
  known <- py_in (VStr ns_name) schema_namespaces ;;
  if negb known then Ok base
  else
    match ns_overrides with
    | VDict ns_items =>
        schema_fields <- py_getitem schema_namespaces ns_name ;;
        fold_res (apply_field ns_name schema_fields) ns_items base
    | _ => Ok base
    end.

Definition _apply_overrides (base : config) (schema_namespaces : value)
    (overrides : value) : res config :=
  if negb (truthy overrides) then Ok base
  else
    items <- py_items overrides ;;
    fold_res (apply_namespace schema_namespaces) items base.

(** The inner comprehension of step 1: the defaults of one namespace. *)
Definition defaults_of (fields : value) : res (dict value) :=
  items <- py_items fields ;;
  map_res (fun '(fname, fdef) =>
             d <- py_getitem fdef "default" ;;
             Ok (fname, deepcopy d))
          items.

Definition resolve (schema org_overrides user_overrides : value)
  : res config :=
  namespaces <- py_getitem schema "namespaces" ;;
  ns_items <- py_items namespaces ;;
  base <-
    map_res (fun '(namespace, fields) =>
               defaults <- defaults_of fields ;;
               Ok (namespace, defaults))
            ns_items ;;
  fold_res (fun base override_layer =>
              _apply_overrides base namespaces override_layer)
           [org_overrides; user_overrides] base.
End ConfigResolver.

(* ------------------------------------------------------------------ *)
(** ** What a schema accepted by SchemaValidator looks like *)

Definition valid_schema (s : value) : Prop :=
  SchemaValidator.validate s = Ok tt.

(** An override layer as the services take it: a mapping, or a falsy
    value such as [None], which stands for no overrides. *)
Definition is_blob (v : value) : Prop :=
  truthy v = false \/ exists d, v = VDict d.

Definition numeric_or_absent (o : option value) : Prop :=
  match o with
  | None => True
  | Some m => _is_numeric m = true
  end.

Definition nonempty_list_or_absent (o : option value) : Prop :=
  match o with
  | None => True
  | Some (VList (_ :: _)) => True
  | Some _ => False
  end.

Record constraints_ok (c : dict value) : Prop := {
  c_min : numeric_or_absent (lookup "min" c);
  c_max : numeric_or_absent (lookup "max" c);
  c_allowed : nonempty_list_or_absent (lookup "allowed_values" c)
}.

Record policy_ok (p : dict value) : Prop := {
  p_roles : nonempty_list_or_absent (lookup "editable_by_roles" p);
  p_envs : nonempty_list_or_absent (lookup "environment_restrictions" p)
}.

Record field_ok (d : dict value) : Prop := {
  f_type : exists t, lookup "type" d = Some (VStr t) /\ In t _VALID_TYPES;
  f_default : exists dv, lookup "default" d = Some dv;
  f_constraints :
    match lookup "constraints" d with
    | None => True
    | Some (VDict c) => constraints_ok c
    | Some _ => False
    end;
  f_policy :
    match lookup "policy" d with
    | None => True
    | Some (VDict p) => policy_ok p
    | Some _ => False
    end
}.

Definition fields_ok (fields : dict value) : Prop :=
  forall f fd, In (f, fd) fields -> exists d, fd = VDict d /\ field_ok d.

Definition namespaces_ok (nss : dict value) : Prop :=
  forall ns v, In (ns, v) nss ->
    exists fields, v = VDict fields /\ fields_ok fields.

(** Every value given for the key type of a field definition is
    hashable (it is not a list and not a dict). *)
Definition hashable_types (v : value) : Prop :=
  forall top nss ns fields f d x,
    v = VDict top -> lookup "namespaces" top = Some (VDict nss) ->
    In (ns, VDict fields) nss -> In (f, VDict d) fields ->
    lookup "type" d = Some x -> hashable x = true.

(* ------------------------------------------------------------------ *)
(** ** The checks in the words of the specification

    These definitions restate, without exceptions, what the override
    validator and the resolver compute on a schema that SchemaValidator
    accepted.  They are compared with the embedded code below. *)

Module Spec.
Import ErrorDict.

(** integer excludes bool; float accepts int, excludes bool; the other
    types by direct membership. *)
Definition type_ok (t : string) (v : value) : bool :=
  if String.eqb t "integer" then
    match v with VInt _ => true | _ => false end
  else if String.eqb t "float" then
    match v with VInt _ | VFloat _ => true | _ => false end
  else if String.eqb t "string" then
    match v with VStr _ => true | _ => false end
  else if String.eqb t "boolean" then
    match v with VBool _ => true | _ => false end
  else if String.eqb t "list" then
    match v with VList _ => true | _ => false end
  else if String.eqb t "dict" then
    match v with VDict _ => true | _ => false end
  else false.

(** What min and max are compared against: the value itself for
    numeric types, the length for lists, nothing otherwise. *)
Definition comparable_of (t : string) (v : value) : option value :=
  if String.eqb t "integer" || String.eqb t "float" then Some v
  else if String.eqb t "list" then
    match v with
    | VList l => Some (VInt (Z.of_nat (List.length l)))
    | _ => None
    end
  else None.

Definition num_lt (a b : value) : bool :=
  match as_real a, as_real b with
  | Some x, Some y => Qltb x y
  | _, _ => false
  end.

Definition below_min (t : string) (v : value) (c : dict value) : bool :=
  match comparable_of t v, lookup "min" c with
  | Some x, Some m => num_lt x m
  | _, _ => false
  end.

Definition above_max (t : string) (v : value) (c : dict value) : bool :=
  match comparable_of t v, lookup "max" c with
  | Some x, Some m => num_lt m x
  | _, _ => false
  end.

Definition not_allowed (v : value) (c : dict value) : bool :=
  match lookup "allowed_values" c with
  | Some (VList l) => negb (existsb (py_eq v) l)
  | _ => false
  end.

Definition opt_value (o : option value) : value :=
  match o with Some v => v | None => VNone end.

Definition constraint_errors (field_path t : string) (v : value)
    (c : dict value) : list ErrorDict.t :=
  (if below_min t v c
   then [mk field_path constraint_violation
            (BelowMinimum field_path (opt_value (comparable_of t v))
                          (opt_value (lookup "min" c)))]
   else []) ++
  (if above_max t v c
   then [mk field_path constraint_violation
            (ExceedsMaximum field_path (opt_value (comparable_of t v))
                            (opt_value (lookup "max" c)))]
   else []) ++
  (if not_allowed v c
   then [mk field_path constraint_violation
            (NotInAllowedValues field_path v
                                (opt_value (lookup "allowed_values" c)))]
   else []).

Definition immutable_errors (field_path : string) (d : dict value)
  : list ErrorDict.t :=
  match lookup "editable" d with
  | Some (VBool false) =>
      [mk field_path immutable_field (Immutable field_path)]
  | _ => []
  end.

Definition policy_of (d : dict value) : dict value :=
  match lookup "policy" d with
  | Some (VDict p) => p
  | _ => []
  end.

Definition role_errors (field_path : string) (d : dict value)
    (acting_role : string) : list ErrorDict.t :=
  match lookup "editable_by_roles" (policy_of d) with
  | Some (VList roles) =>
      if existsb (py_eq (VStr acting_role)) roles then []
      else [mk field_path role_forbidden
               (RoleNotAuthorised acting_role field_path (VList roles))]
  | _ => []
  end.

Definition env_errors (field_path : string) (d : dict value)
    (environment : string) : list ErrorDict.t :=
  match lookup "environment_restrictions" (policy_of d) with
  | Some (VList envs) =>
      if existsb (py_eq (VStr environment)) envs then []
      else [mk field_path env_forbidden
               (EnvNotPermitted environment field_path (VList envs))]
  | _ => []
  end.

Definition declared_type_of (d : dict value) : string :=
  match lookup "type" d with
  | Some (VStr t) => t
  | _ => ""
  end.

Definition type_errors (field_path : string) (d : dict value) (v : value)
  : list ErrorDict.t :=
  [mk field_path type_mismatch
      (ExpectsType field_path (VStr (declared_type_of d)) (type_name v))].

Definition constraints_of (d : dict value) : dict value :=
  match lookup "constraints" d with
  | Some (VDict c) => c
  | _ => []
  end.

(** The per-field sequence: rules 3 to 7. *)
Definition field_errors (field_path : string) (d : dict value) (v : value)
    (acting_role environment : string) : list ErrorDict.t :=
  immutable_errors field_path d ++
  role_errors field_path d acting_role ++
  env_errors field_path d environment ++
  (if type_ok (declared_type_of d) v
   then constraint_errors field_path (declared_type_of d) v
                          (constraints_of d)
   else type_errors field_path d v).

Definition unknown_field_errors (ns_name : string) (fields : dict value)
    (field_name : string) : list ErrorDict.t :=
  if mem field_name fields then []
  else [mk (ns_name ++ "." ++ field_name)%string unknown_field
           (FieldNotInNamespace field_name ns_name)].

Definition is_required (field_def : value) : bool :=
  match field_def with
  | VDict d =>
      match lookup "required" d with
      | Some (VBool true) => true
      | _ => false
      end
  | _ => false
  end.

(** Rule 2 selects the schema fields that are required and absent from
    the override of their namespace. *)
Definition required_absent (ns_items : dict value)
    (entry : string * value) : bool :=
  is_required (snd entry) && negb (mem (fst entry) ns_items).

Definition missing_required_error (ns_name field_name : string)
  : ErrorDict.t :=
  mk (ns_name ++ "." ++ field_name)%string missing_required
     (RequiredNotProvided ns_name field_name).

Definition present_field_errors (ns_name : string) (fields : dict value)
    (acting_role environment : string) (entry : string * value)
  : list ErrorDict.t :=
  match lookup (fst entry) fields with
  | Some (VDict d) =>
      field_errors (ns_name ++ "." ++ fst entry)%string d (snd entry)
                   acting_role environment
  | _ => []
  end.

Definition namespace_errors (nss : dict value)
    (acting_role environment : string) (entry : string * value)
  : list ErrorDict.t :=
  match lookup (fst entry) nss with
  | Some (VDict fields) =>
      match snd entry with
      | VDict ns_items =>
          flat_map (unknown_field_errors (fst entry) fields)
                   (keys ns_items) ++
          map (fun e => missing_required_error (fst entry) (fst e))
              (filter (required_absent ns_items) fields) ++
          flat_map (present_field_errors (fst entry) fields
                                         acting_role environment)
                   ns_items
      | _ => [mk (fst entry) unknown_namespace
                 (NamespaceOverrideMustBeDict (fst entry))]
      end
  | _ => [mk (fst entry) unknown_namespace
             (NamespaceNotInSchema (fst entry))]
  end.

(** The value an override layer supplies for a field, if any. *)
Definition layer_get (layer : value) (ns_name field_name : string)
  : option value :=
  match layer with
  | VDict d =>
      match lookup ns_name d with
      | Some (VDict ns_items) => lookup field_name ns_items
      | _ => None
      end
  | _ => None
  end.

(** The value of a field in an effective configuration. *)
Definition config_get (cfg : config) (ns_name field_name : string)
  : option value :=
  match lookup ns_name cfg with
  | Some fields => lookup field_name fields
  | None => None
  end.

(** The default a schema declares for a field. *)
Definition default_of (nss : dict value) (ns_name field_name : string)
  : option value :=
  match lookup ns_name nss with
  | Some (VDict fields) =>
      match lookup field_name fields with
      | Some (VDict d) => lookup "default" d
      | _ => None
      end
  | _ => None
  end.

(** Highest priority first: user override, org override, default. *)
Definition effective (nss : dict value) (org user : value)
    (ns_name field_name : string) : option value :=
  match default_of nss ns_name field_name with
  | None => None
  | Some dv =>
      match layer_get user ns_name field_name with
      | Some v => Some v
      | None =>
          match layer_get org ns_name field_name with
          | Some v => Some v
          | None => Some dv
          end
      end
  end.

Definition dict_remove {A : Type} (k : string) (d : dict A) : dict A :=
  filter (fun e => negb (String.eqb (fst e) k)) d.

(** The blob without one field of one namespace. *)
Definition drop_field (ns_name field_name : string) (o : dict value)
  : dict value :=
  map (fun e =>
         if String.eqb (fst e) ns_name then
           match snd e with
           | VDict ns_items => (fst e, VDict (dict_remove field_name ns_items))
           | _ => e
           end
         else e) o.

(** Step 1 of the algorithm: every declared field at its default. *)
Definition default_value (field_def : value) : value :=
  match field_def with
  | VDict d => opt_value (lookup "default" d)
  | _ => VNone
  end.

Definition base_fields (fields : value) : dict value :=
  match fields with
  | VDict fs => map (fun e => (fst e, default_value (snd e))) fs
  | _ => []
  end.

Definition base_config (nss : dict value) : config :=
  map (fun e => (fst e, base_fields (snd e))) nss.

(** A configuration has exactly the namespaces and fields of the
    schema. *)
Definition shaped (nss : dict value) (cfg : config) : Prop :=
  keys cfg = keys nss /\
  forall ns fields, lookup ns nss = Some (VDict fields) ->
    exists fc, lookup ns cfg = Some fc /\ keys fc = keys fields.

(** One override layer on top of a configuration. *)
Definition overlay (layer : value) (cfg : config)
    (ns_name field_name : string) : option value :=
  match config_get cfg ns_name field_name with
  | None => None
  | Some old =>
      match layer_get layer ns_name field_name with
      | Some v => Some v
      | None => Some old
      end
  end.

(** The namespace map of a schema document. *)
Definition namespaces_of (s : value) : dict value :=
  match s with
  | VDict top =>
      match lookup "namespaces" top with
      | Some (VDict nss) => nss
      | _ => []
      end
  | _ => []
  end.

(** The schema declares field [field_name] in namespace [ns_name]. *)
Definition declares (s : value) (ns_name field_name : string)
    (field_def : value) : Prop :=
  exists fields,
    lookup ns_name (namespaces_of s) = Some (VDict fields) /\
    lookup field_name fields = Some field_def.

(** The pairs (namespace, field) for which rule 2 fires: the namespace
    is overridden by a mapping, the schema field is required and the
    override of the namespace does not supply it. *)
Definition required_missing (nss o : dict value)
  : list (string * string) :=
  flat_map
    (fun e =>
       match lookup (fst e) nss, snd e with
       | Some (VDict fields), VDict ns_items =>
           map (fun fe => (fst e, fst fe))
               (filter (required_absent ns_items) fields)
       | _, _ => []
       end) o.

Definition is_missing_required (e : ErrorDict.t) : bool :=
  code_eqb e.(code) missing_required.

(** The namespace entries of an override layer; [None] has none. *)
Definition blob_items (o : value) : dict value :=
  match o with
  | VDict d => d
  | _ => []
  end.

Definition count_code (c : error_code) (es : list ErrorDict.t) : nat :=
  List.length (filter (fun e => code_eqb e.(code) c) es).
End Spec.

(* ------------------------------------------------------------------ *)
(** ** What SchemaValidator accepts, rule by rule *)

Definition keys_within (allowed : list string) (d : dict value) : Prop :=
  forall k, In k (keys d) -> In k allowed.

(** When both bounds are given, min is not above max. *)
Definition bounds_ordered (c : dict value) : Prop :=
  match lookup "min" c, lookup "max" c with
  | Some mn, Some mx => Spec.num_lt mx mn = false
  | _, _ => True
  end.

Definition is_str (v : value) : bool :=
  match v with VStr _ => true | _ => false end.

Definition string_list_or_absent (o : option value) : Prop :=
  match o with
  | None => True
  | Some (VList (x :: l)) => forallb is_str (x :: l) = true
  | Some _ => False
  end.

Record constraints_valid (c : dict value) : Prop := {
  cv_keys : keys_within _VALID_CONSTRAINT_KEYS c;
  cv_shape : constraints_ok c;
  cv_ordered : bounds_ordered c
}.

Record policy_valid (p : dict value) : Prop := {
  pv_keys : keys_within _VALID_POLICY_KEYS p;
  pv_roles : string_list_or_absent (lookup "editable_by_roles" p);
  pv_envs : string_list_or_absent (lookup "environment_restrictions" p)
}.

Record field_valid (d : dict value) : Prop := {
  fv_typed :
    exists t dv,
      lookup "type" d = Some (VStr t) /\ In t _VALID_TYPES /\
      lookup "default" d = Some dv /\ Spec.type_ok t dv = true;
  fv_constraints :
    match lookup "constraints" d with
    | None => True
    | Some (VDict c) => constraints_valid c
    | Some _ => False
    end;
  fv_policy :
    match lookup "policy" d with
    | None => True
    | Some (VDict p) => policy_valid p
    | Some _ => False
    end
}.

Definition schema_valid (s : value) : Prop :=
  exists top nss,
    s = VDict top /\ lookup "namespaces" top = Some (VDict nss) /\
    nss <> [] /\
    forall ns v, In (ns, v) nss ->
      exists fields,
        v = VDict fields /\
        forall f fd, In (f, fd) fields ->
          exists d, fd = VDict d /\ field_valid d.

(* ------------------------------------------------------------------ *)
(** ** What the override validator accepts, rule by rule *)

(** [len(errors) == 0] *)
Definition no_errors {A : Type} (l : list A) : bool :=
  Nat.eqb (List.length l) 0.

(** Rule 3: the field is not declared [editable: false]. *)
Definition is_editable (d : dict value) : bool :=
  match lookup "editable" d with
  | Some (VBool false) => false
  | _ => true
  end.

(** Rule 4: no role list is given, or the acting role is in it. *)
Definition role_allowed (d : dict value) (acting_role : string) : bool :=
  match lookup "editable_by_roles" (Spec.policy_of d) with
  | Some (VList roles) => existsb (py_eq (VStr acting_role)) roles
  | _ => true
  end.

(** Rule 5: no environment list is given, or the environment is in it. *)
Definition env_allowed (d : dict value) (environment : string) : bool :=
  match lookup "environment_restrictions" (Spec.policy_of d) with
  | Some (VList envs) => existsb (py_eq (VStr environment)) envs
  | _ => true
  end.

(** Rules 3 to 7 all pass for the override value [v]. *)
Definition field_accepts (d : dict value) (v : value)
    (acting_role environment : string) : bool :=
  is_editable d && role_allowed d acting_role &&
  env_allowed d environment &&
  Spec.type_ok (Spec.declared_type_of d) v &&
  negb (Spec.below_min (Spec.declared_type_of d) v (Spec.constraints_of d)) &&
  negb (Spec.above_max (Spec.declared_type_of d) v (Spec.constraints_of d)) &&
  negb (Spec.not_allowed v (Spec.constraints_of d)).

(** The namespace is in the schema, its override is a mapping of known
    fields that holds every required field, and every override value
    passes the rules of its field. *)
Definition namespace_accepted (nss : dict value)
    (acting_role environment : string) (entry : string * value) : bool :=
  match lookup (fst entry) nss, snd entry with
  | Some (VDict fields), VDict ns_items =>
      forallb (fun k => mem k fields) (keys ns_items) &&
      forallb (fun e => negb (Spec.required_absent ns_items e)) fields &&
      forallb (fun e =>
                 match lookup (fst e) fields with
                 | Some (VDict d) =>
                     field_accepts d (snd e) acting_role environment
                 | _ => true
                 end) ns_items
  | _, _ => false
  end.

Definition blob_accepted (nss : dict value)
    (acting_role environment : string) (o : dict value) : bool :=
  forallb (namespace_accepted nss acting_role environment) o.

(* ------------------------------------------------------------------ *)
(** ** What the resolver needs of a schema *)

(** Every field definition is a mapping with a default. *)
Definition fields_resolvable (fields : dict value) : Prop :=
  forall f fd, In (f, fd) fields ->
    exists d dv, fd = VDict d /\ lookup "default" d = Some dv.

(** Every namespace is a mapping of such field definitions. *)
Definition namespaces_resolvable (nss : dict value) : Prop :=
  forall ns v, In (ns, v) nss ->
    exists fields, v = VDict fields /\ fields_resolvable fields.

(** The key namespaces holds a mapping of mappings of field definitions
    that are mappings with a default. *)
Definition resolvable (s : value) : Prop :=
  exists top nss,
    s = VDict top /\ lookup "namespaces" top = Some (VDict nss) /\
    namespaces_resolvable nss.

(** Two override layers supply the same value for every field the schema
    declares. *)
Definition layer_equiv (s l1 l2 : value) : Prop :=
  forall ns f fd, Spec.declares s ns f fd ->
    Spec.layer_get l1 ns f = Spec.layer_get l2 ns f.

(** Two override layers never supply different values for a field the
    schema declares. *)
Definition layers_agree (s l1 l2 : value) : Prop :=
  forall ns f fd v1 v2, Spec.declares s ns f fd ->
    Spec.layer_get l1 ns f = Some v1 -> Spec.layer_get l2 ns f = Some v2 ->
    v1 = v2.

(* ------------------------------------------------------------------ *)
(** ** Where SchemaValidator raises a plain exception *)

(** Some field definition of the document gives a list or a dict for the
    key type. *)
Definition declares_unhashable_type (v : value) : Prop :=
  exists top nss ns fields f d x,
    v = VDict top /\ lookup "namespaces" top = Some (VDict nss) /\
    In (ns, VDict fields) nss /\ In (f, VDict d) fields /\
    lookup "type" d = Some x /\ hashable x = false.

(* ------------------------------------------------------------------ *)
(** ** Concrete inputs used in the examples *)

Module Examples.
Definition field (t : string) (dflt : value) (more : dict value) : value :=
  VDict ([("type", VStr t); ("default", dflt)] ++ more).

(** The schema of the concrete scenarios of the specification. *)
Definition payments_schema : value :=
  VDict [("namespaces", VDict [("payments", VDict [
    ("currency", field "string" (VStr "USD") []);
    ("max_retries", field "integer" (VInt 3) []);
    ("amount", field "float" (VFloat 1)
       [("constraints", VDict [("min", VInt 100); ("max", VInt 500000)])]);
    ("processor_id", field "string" (VStr "stripe_v2")
       [("required", VBool false); ("editable", VBool false)]);
    ("tier", field "integer" (VInt 5)
       [("required", VBool true);
        ("constraints", VDict [("min", VInt 3);
                               ("allowed_values",
                                VList [VInt 5; VInt 10])])])
  ])])].

(** A schema whose second field gives a list for the key type. *)
Definition list_typed_schema : value :=
  VDict [("namespaces", VDict [("ns", VDict [
    ("field_x", VDict []);
    ("field_y", VDict [("type", VList [VStr "string"]);
                       ("default", VStr "x")])
  ])])].

Definition request (s o : value) : OverrideValidationRequest :=
  {| schema := s; overrides := o;
     acting_role := "editor"; environment := "prod" |}.
End Examples.

(* ================================================================== *)
(** * Properties *)

(* ------------------------------------------------------------------ *)
(** ** Values, dictionaries and the result monad *)

Lemma value_nested_ind (P : value -> Prop) :
  P VNone ->
  (forall b, P (VBool b)) ->
  (forall n, P (VInt n)) ->
  (forall q, P (VFloat q)) ->
  (forall s, P (VStr s)) ->
  (forall l, Forall P l -> P (VList l)) ->
  (forall d, Forall (fun e => P (snd e)) d -> P (VDict d)) ->
  forall v, P v.
Proof.
  intros HN HB HI HF HS HL HD.
  fix IH 1.
  intros [ | b | n | q | s | l | d ].
  - exact HN.
  - apply HB.
  - apply HI.
  - apply HF.
  - apply HS.
  - apply HL. induction l as [ | x l IHl ]; constructor; [ apply IH | exact IHl ].
  - apply HD. induction d as [ | [k x] d IHd ]; constructor;
      [ apply IH | exact IHd ].
Qed.

Lemma deepcopy_id : forall v, deepcopy v = v.
Proof.
  induction v using value_nested_ind; simpl; auto.
  - f_equal. induction H as [ | x l Hx _ IHl ]; simpl; congruence.
  - f_equal. induction H as [ | [k x] d Hx _ IHd ]; simpl in *; congruence.
Qed.

Lemma bind_Ok_inv {A B : Type} (m : res A) (k : A -> res B) (b : B) :
  bind m k = Ok b -> exists a, m = Ok a /\ k a = Ok b.
Proof. destruct m; simpl; intros H; [ eauto | discriminate ]. Qed.

Lemma nodupb_NoDup : forall l, nodupb l = true <-> NoDup l.
Proof.
  induction l as [ | k l IH ]; simpl.
  - split; [ constructor | reflexivity ].
  - rewrite andb_true_iff, negb_true_iff, IH. split.
    + intros [Hk Hl]. constructor; auto. intros Hin.
      assert (existsb (String.eqb k) l = true)
        by (apply existsb_exists; exists k; split; auto; apply String.eqb_refl).
      congruence.
    + intros H. inversion H as [ | ? ? Hk Hl ]; subst. split; auto.
      destruct (existsb (String.eqb k) l) eqn:E; auto.
      apply existsb_exists in E. destruct E as [k' [Hin Heq]].
      apply String.eqb_eq in Heq. subst. contradiction.
Qed.

Lemma lookup_In {A : Type} (k : string) (d : dict A) (a : A) :
  lookup k d = Some a -> In (k, a) d.
Proof.
  induction d as [ | [k' a'] d IH ]; simpl; [ discriminate | ].
  destruct (String.eqb k k') eqn:E.
  - apply String.eqb_eq in E. intros H. inversion H. subst. auto.
  - auto.
Qed.

Lemma lookup_None {A : Type} (k : string) (d : dict A) :
  lookup k d = None <-> ~ In k (keys d).
Proof.
  induction d as [ | [k' a'] d IH ]; simpl.
  - tauto.
  - destruct (String.eqb k k') eqn:E.
    + apply String.eqb_eq in E. subst. split; [ discriminate | tauto ].
    + apply String.eqb_neq in E. rewrite IH. split.
      * intros H [H1 | H1]; [ congruence | tauto ].
      * tauto.
Qed.

Lemma In_keys {A : Type} (k : string) (a : A) (d : dict A) :
  In (k, a) d -> In k (keys d).
Proof. intros H. change k with (fst (k, a)). now apply in_map. Qed.

Lemma mem_true {A : Type} (k : string) (d : dict A) :
  mem k d = true <-> In k (keys d).
Proof.
  unfold mem. destruct (lookup k d) eqn:E.
  - split; auto. intros _. apply lookup_In in E. eapply In_keys; eauto.
  - split; [ discriminate | ]. intros H. apply lookup_None in E. tauto.
Qed.

Lemma mem_false {A : Type} (k : string) (d : dict A) :
  mem k d = false <-> lookup k d = None.
Proof. unfold mem. destruct (lookup k d); split; congruence. Qed.

Lemma mem_lookup {A : Type} (k : string) (d : dict A) :
  mem k d = true -> exists a, lookup k d = Some a.
Proof. unfold mem. destruct (lookup k d); [ eauto | discriminate ]. Qed.

Lemma lookup_same_keys {A B : Type} (k : string) (d : dict A) (e : dict B) :
  keys d = keys e -> mem k d = mem k e.
Proof.
  intros H. destruct (mem k e) eqn:E.
  - apply mem_true. rewrite H. now apply mem_true.
  - destruct (mem k d) eqn:E'; auto.
    apply mem_true in E'. rewrite H in E'. apply mem_true in E'. congruence.
Qed.

Lemma keys_dict_set {A : Type} (k : string) (a : A) (d : dict A) :
  mem k d = true -> keys (dict_set k a d) = keys d.
Proof.
  unfold mem. induction d as [ | [k' a'] d IH ]; simpl; [ discriminate | ].
  destruct (String.eqb k k') eqn:E; simpl; auto.
  intros H. f_equal. auto.
Qed.

Lemma lookup_dict_set {A : Type} (k k' : string) (a : A) (d : dict A) :
  lookup k' (dict_set k a d) =
  if String.eqb k' k then Some a else lookup k' d.
Proof.
  induction d as [ | [k0 a0] d IH ]; simpl.
  - destruct (String.eqb k' k); reflexivity.
  - destruct (String.eqb k k0) eqn:E; simpl.
    + apply String.eqb_eq in E. subst.
      destruct (String.eqb k' k0); reflexivity.
    + destruct (String.eqb k' k0) eqn:E'.
      * apply String.eqb_eq in E'. subst.
        rewrite String.eqb_sym, E. reflexivity.
      * apply IH.
Qed.

Lemma for_each_pure {A E : Type} (f : A -> res (list E))
    (g : A -> list E) (l : list A) :
  (forall a, In a l -> f a = Ok (g a)) ->
  for_each f l = Ok (flat_map g l).
Proof.
  induction l as [ | a l IH ]; simpl; intros H; auto.
  rewrite (H a) by auto. simpl. rewrite IH by auto. reflexivity.
Qed.

Lemma for_each_nil_inv {A E : Type} (f : A -> res (list E)) (l : list A) :
  for_each f l = Ok [] -> forall a, In a l -> f a = Ok [].
Proof.
  induction l as [ | a l IH ]; simpl; intros H x Hx; [ tauto | ].
  apply bind_Ok_inv in H. destruct H as [es [Ha H]].
  apply bind_Ok_inv in H. destruct H as [es' [Hl H]].
  inversion H as [Happ]. apply app_eq_nil in Happ. destruct Happ; subst.
  destruct Hx; subst; auto.
Qed.

Lemma fold_res_skip {A S : Type} (f : S -> A -> res S) (p : A -> bool)
    (l : list A) :
  (forall a s, In a l -> p a = false -> f s a = Ok s) ->
  forall s, fold_res f (filter p l) s = fold_res f l s.
Proof.
  induction l as [ | a l IH ]; simpl; intros H s; auto.
  destruct (p a) eqn:E; simpl.
  - destruct (f s a); simpl; auto.
  - rewrite (H a s) by auto. simpl. auto.
Qed.

Lemma fold_res_map {A S : Type} (f : S -> A -> res S) (g : A -> A)
    (l : list A) :
  (forall a s, In a l -> f s (g a) = f s a) ->
  forall s, fold_res f (map g l) s = fold_res f l s.
Proof.
  induction l as [ | a l IH ]; simpl; intros H s; auto.
  rewrite H by auto. destruct (f s a); simpl; auto.
Qed.

Lemma flat_map_In_split {A B : Type} (g : A -> list B) (l : list A) (a : A) :
  In a l -> exists pre post, flat_map g l = pre ++ g a ++ post.
Proof.
  intros H. apply in_split in H. destruct H as [l1 [l2 ->]].
  rewrite flat_map_app. simpl. eauto.
Qed.

(* ------------------------------------------------------------------ *)
(** ** The shape of a schema that SchemaValidator accepts *)

Lemma app_nil_inv {A : Type} (l1 l2 : list A) :
  l1 ++ l2 = [] -> l1 = [] /\ l2 = [].
Proof. destruct l1; simpl; [ auto | discriminate ]. Qed.

Ltac inv_bind H :=
  let a := fresh "a" in
  let Ha := fresh "Ha" in
  apply bind_Ok_inv in H; destruct H as [a [Ha H]].

(** Case analysis on every test and every call that may raise in [H],
    keeping the outcome of each as an equation. *)
Ltac split_run H :=
  repeat (simpl in H;
          match type of H with
          | Raise _ = Ok _ => discriminate H
          | context [if ?b then _ else _] => destruct b eqn:?
          | context [match ?x with _ => _ end] => destruct x eqn:?
          | context [bind ?m _] => destruct m eqn:?
          end).

Ltac nil_run H :=
  split_run H;
  try discriminate H;
  try (injection H as H);
  repeat (let H' := fresh in
          apply app_nil_inv in H; destruct H as [H' H]; try discriminate H');
  try discriminate H.

Lemma schema_constraints_inv (p : string) (c : value) :
  SchemaValidator._validate_constraints p c = Ok [] ->
  exists cd, c = VDict cd /\ constraints_ok cd.
Proof.
  destruct c as [ | | | | | | cd ]; try discriminate.
  intros H. exists cd. split; [ reflexivity | ].
  unfold SchemaValidator._validate_constraints in H.
  simpl py_get in H. simpl py_in in H. simpl py_getitem in H.
  unfold mem in H.
  destruct (lookup "min" cd) as [mn | ] eqn:Emin;
  destruct (lookup "max" cd) as [mx | ] eqn:Emax;
  destruct (lookup "allowed_values" cd) as [av | ] eqn:Eav;
  nil_run H; constructor; rewrite ?Emin, ?Emax, ?Eav; simpl; auto;
  try match goal with
      | E : negb ?b = false |- ?b = true => now apply negb_false_iff in E
      | E : negb ?b = true, E' : ?b = true |- _ => rewrite E' in E; discriminate E
      end.
Qed.

Lemma schema_policy_inv (p : string) (c : value) :
  SchemaValidator._validate_policy p c = Ok [] ->
  exists pd, c = VDict pd /\ policy_ok pd.
Proof.
  destruct c as [ | | | | | | pd ]; try discriminate.
  intros H. exists pd. split; [ reflexivity | ].
  unfold SchemaValidator._validate_policy in H.
  simpl for_each in H. simpl py_in in H. simpl py_getitem in H.
  unfold mem in H.
  destruct (lookup "editable_by_roles" pd) as [rs | ] eqn:Er;
  destruct (lookup "environment_restrictions" pd) as [es | ] eqn:Ee;
  nil_run H; constructor; rewrite ?Er, ?Ee; simpl; auto.
Qed.


Lemma in_frozenset_true (x : value) (s : list string) :
  in_frozenset x s = Ok true -> exists t, x = VStr t /\ In t s.
Proof.
  unfold in_frozenset. destruct x; simpl; try discriminate.
  intros H. injection H as H. apply existsb_exists in H.
  destruct H as [t [Hin Heq]]. apply String.eqb_eq in Heq. subst. eauto.
Qed.

Lemma schema_field_inv (p : string) (d : dict value) :
  SchemaValidator._validate_field p (VDict d) = Ok [] -> field_ok d.
Proof.
  unfold SchemaValidator._validate_field.
  simpl py_get. simpl py_in. simpl py_getitem. unfold mem.
  intros H.
  inv_bind H. inv_bind H. destruct a0 as [e_type type_valid].
  inv_bind H. inv_bind H. inv_bind H. inv_bind H. inv_bind H. inv_bind H.
  injection H as H.
  apply app_nil_inv in H. destruct H as [-> H].
  apply app_nil_inv in H. destruct H as [-> H].
  apply app_nil_inv in H. destruct H as [-> ->].
  constructor.
  - destruct (lookup "type" d) as [dt | ]; injection Ha as <-;
      simpl in Ha0; [ | discriminate ].
    destruct (is_none dt); [ discriminate | ].
    apply bind_Ok_inv in Ha0. destruct Ha0 as [known [Hk Ha0]].
    destruct known; simpl in Ha0; [ | discriminate ].
    apply in_frozenset_true in Hk. destruct Hk as [t [-> Hin]]. eauto.
  - destruct (lookup "default" d) as [dv | ]; [ eauto | ].
    injection Ha1 as <-. discriminate.
  - destruct (lookup "constraints" d) as [c | ]; [ | exact I ].
    injection Ha3 as <-. simpl in Ha4.
    apply schema_constraints_inv in Ha4. destruct Ha4 as [cd [-> Hc]]. exact Hc.
  - destruct (lookup "policy" d) as [c | ]; [ | exact I ].
    injection Ha5 as <-. simpl in Ha6.
    apply schema_policy_inv in Ha6. destruct Ha6 as [cd [-> Hc]]. exact Hc.
Qed.

Lemma valid_schema_inv (s : value) :
  valid_schema s ->
  exists top nss,
    s = VDict top /\ lookup "namespaces" top = Some (VDict nss) /\
    nss <> [] /\ namespaces_ok nss.
Proof.
  unfold valid_schema, SchemaValidator.validate.
  destruct s as [ | | | | | | top ]; try discriminate.
  unfold mem. simpl py_getitem.
  destruct (lookup "namespaces" top) as [nsv | ] eqn:Ens; simpl;
    [ | discriminate ].
  destruct nsv as [ | | | | | | [ | e nss ] ]; try discriminate.
  intros H. inv_bind H.
  destruct (nonempty a) eqn:E; [ discriminate | ].
  destruct a; [ | discriminate ].
  exists top, (e :: nss).
  split; [ reflexivity | ]. split; [ exact Ens | ].
  split; [ discriminate | ].
  intros ns v Hin.
  pose proof (for_each_nil_inv _ _ Ha _ Hin) as Hns.
  unfold SchemaValidator.validate_namespace_entry in Hns.
  destruct v as [ | | | | | | fields ]; try discriminate.
  exists fields. split; [ reflexivity | ].
  intros f fd Hf.
  pose proof (for_each_nil_inv _ _ Hns _ Hf) as Hfd.
  unfold SchemaValidator.validate_field_entry in Hfd.
  destruct fd as [ | | | | | | d ]; try discriminate.
  exists d. split; [ reflexivity | ].
  eapply schema_field_inv; eauto.
Qed.

(* ------------------------------------------------------------------ *)
(** ** The override validator on an accepted schema *)

Lemma valid_type_cases (t : string) :
  In t _VALID_TYPES ->
  t = "string" \/ t = "integer" \/ t = "boolean" \/ t = "float" \/
  t = "list" \/ t = "dict".
Proof. simpl. intuition auto. Qed.

Lemma type_matches_refines (t : string) (v : value) :
  In t _VALID_TYPES -> _type_matches (VStr t) v = Ok (Spec.type_ok t v).
Proof.
  intros H. apply valid_type_cases in H.
  destruct H as [-> | [-> | [-> | [-> | [-> | ->]]]]];
    destruct v; reflexivity.
Qed.

Lemma numeric_cases (m : value) :
  _is_numeric m = true -> (exists n, m = VInt n) \/ (exists q, m = VFloat q).
Proof. destruct m; try discriminate; eauto. Qed.

Lemma numeric_or_absent_cases (o : option value) :
  numeric_or_absent o ->
  o = None \/ (exists n, o = Some (VInt n)) \/ (exists q, o = Some (VFloat q)).
Proof.
  destruct o as [m | ]; simpl; auto.
  intros H. apply numeric_cases in H. destruct H as [[n ->] | [q ->]]; eauto.
Qed.

Lemma list_or_absent_cases (o : option value) :
  nonempty_list_or_absent o ->
  o = None \/ exists x l, o = Some (VList (x :: l)).
Proof.
  destruct o as [ [ | | | | | [ | x l ] | ] | ]; simpl; try tauto; eauto.
Qed.

Lemma override_constraints_refines (p t : string) (v : value)
    (c : dict value) :
  In t _VALID_TYPES -> Spec.type_ok t v = true -> constraints_ok c ->
  OverrideValidationService._validate_constraints p (VStr t) v (VDict c) =
  Ok (Spec.constraint_errors p t v c).
Proof.
  intros Ht Hv [Hmin Hmax Hav].
  apply numeric_or_absent_cases in Hmin, Hmax.
  apply list_or_absent_cases in Hav.
  unfold OverrideValidationService._validate_constraints,
    Spec.constraint_errors, Spec.below_min, Spec.above_max, Spec.not_allowed.
  simpl py_get.
  apply valid_type_cases in Ht.
  destruct Hmin as [-> | [[n ->] | [q ->]]];
  destruct Hmax as [-> | [[n' ->] | [q' ->]]];
  destruct Hav as [-> | [x [l ->]]];
  destruct Ht as [-> | [-> | [-> | [-> | [-> | ->]]]]];
  destruct v; try discriminate Hv; cbn;
  repeat match goal with
         | |- context [if ?b then _ else _] => destruct b
         end; reflexivity.
Qed.

Lemma bind_Ok {A B : Type} (a : A) (k : A -> res B) : bind (Ok a) k = k a.
Proof. reflexivity. Qed.

Lemma constraint_errors_nil (p t : string) (v : value) :
  Spec.constraint_errors p t v [] = [].
Proof.
  unfold Spec.constraint_errors, Spec.below_min, Spec.above_max,
    Spec.not_allowed.
  simpl. destruct (Spec.comparable_of t v); reflexivity.
Qed.

Lemma valid_type_truthy (t : string) :
  In t _VALID_TYPES -> truthy (VStr t) = true.
Proof.
  intros H. apply valid_type_cases in H.
  destruct H as [-> | [-> | [-> | [-> | [-> | ->]]]]]; reflexivity.
Qed.

Lemma field_override_refines (p : string) (d : dict value) (v : value)
    (role env : string) :
  field_ok d ->
  OverrideValidationService._validate_field_override p (VDict d) v role env =
  Ok (Spec.field_errors p d v role env).
Proof.
  intros [[t [Ht Hin]] _ Hc Hp].
  unfold OverrideValidationService._validate_field_override,
    Spec.field_errors, Spec.immutable_errors, Spec.role_errors,
    Spec.env_errors, Spec.type_errors, Spec.declared_type_of.
  simpl py_get. rewrite Ht. rewrite bind_Ok. cbv beta.
  rewrite (valid_type_truthy t Hin), (type_matches_refines t v Hin).
  assert (Hpol :
    exists pd, policy_ok pd /\
      match lookup "policy" d with Some x => Ok x | None => Ok (VDict []) end
      = Ok (VDict pd) /\
      Spec.policy_of d = pd).
  { unfold Spec.policy_of.
    destruct (lookup "policy" d) as [ [ | | | | | | pd ] | ];
      try contradiction.
    - exists pd. auto.
    - exists []. repeat split; exact I. }
  destruct Hpol as [pd [[Hr He] [E1 E2]]]. rewrite E1, E2. clear E1 E2.
  apply list_or_absent_cases in Hr, He.
  assert (Hcon :
    exists cd, constraints_ok cd /\
      match lookup "constraints" d with
      | Some x => Ok x | None => Ok (VDict []) end = Ok (VDict cd) /\
      Spec.constraints_of d = cd).
  { unfold Spec.constraints_of.
    destruct (lookup "constraints" d) as [ [ | | | | | | cd ] | ];
      try contradiction.
    - exists cd. auto.
    - exists []. repeat split; exact I. }
  destruct Hcon as [cd [Hcd [E1 E2]]]. rewrite E1, E2. clear E1 E2.
  assert (Hcs : Spec.type_ok t v = true ->
    (if truthy (VDict cd)
     then OverrideValidationService._validate_constraints p (VStr t) v
            (VDict cd)
     else Ok []) = Ok (Spec.constraint_errors p t v cd)).
  { intros E. destruct cd as [ | e cd ].
    - simpl. now rewrite constraint_errors_nil.
    - simpl truthy. cbv iota. now apply override_constraints_refines. }
  revert Hcs.
  set (vc := OverrideValidationService._validate_constraints p (VStr t) v).
  set (ce := Spec.constraint_errors p t v cd).
  intros Hcs.
  destruct (lookup "editable" d) as [ [ | [ | ] | | | | | ] | ];
  rewrite !bind_Ok; cbv beta; simpl py_get;
  destruct Hr as [-> | [r1 [rs ->]]];
  destruct He as [-> | [e1 [es ->]]];
  cbn [bind negb is_none is_False py_in];
  repeat match goal with
         | |- context [existsb ?f ?l] => destruct (existsb f l)
         end;
  cbn [bind negb is_none is_False];
  (destruct (Spec.type_ok t v);
   [ specialize (Hcs eq_refl); cbn [bind negb is_none is_False];
     rewrite Hcs; reflexivity
   | reflexivity ]).
Qed.

Lemma flat_map_filter {A B : Type} (p : A -> bool) (g : A -> B)
    (l : list A) :
  flat_map (fun a => if p a then [g a] else []) l = map g (filter p l).
Proof.
  induction l as [ | a l IH ]; simpl; auto.
  destruct (p a); simpl; now rewrite IH.
Qed.

Lemma namespace_check_refines (nss : dict value) (role env : string)
    (entry : string * value) :
  namespaces_ok nss ->
  OverrideValidationService.namespace_check (VDict nss) role env entry =
  Ok (Spec.namespace_errors nss role env entry).
Proof.
  intros Hok. destruct entry as [ns nsv].
  unfold OverrideValidationService.namespace_check, Spec.namespace_errors.
  simpl py_in. unfold mem. simpl py_getitem. simpl fst. simpl snd.
  destruct (lookup ns nss) as [fv | ] eqn:E; [ | reflexivity ].
  apply lookup_In in E. apply Hok in E. destruct E as [fields [-> Hf]].
  rewrite bind_Ok. cbn [negb].
  destruct nsv as [ | | | | | | items ]; try reflexivity.
  rewrite bind_Ok.
  rewrite (for_each_pure _ (Spec.unknown_field_errors ns fields)).
  2:{ intros k _. unfold OverrideValidationService.unknown_field_check,
        Spec.unknown_field_errors. simpl.
      destruct (mem k fields); reflexivity. }
  rewrite bind_Ok. simpl py_items. rewrite bind_Ok.
  rewrite (for_each_pure _
    (fun e => if Spec.required_absent items e
              then [Spec.missing_required_error ns (fst e)] else [])).
  2:{ intros [f fd] Hin. apply Hf in Hin. destruct Hin as [d [-> _]].
      unfold OverrideValidationService.missing_required_check,
        Spec.required_absent, Spec.is_required. simpl.
      destruct (lookup "required" d) as [ [ | [ | ] | | | | | ] | ]; simpl;
        try reflexivity.
      destruct (mem f items); reflexivity. }
  rewrite bind_Ok.
  rewrite (for_each_pure _
    (Spec.present_field_errors ns fields role env)).
  2:{ intros [f v] _.
      unfold OverrideValidationService.field_override_check,
        Spec.present_field_errors. simpl. unfold mem.
      destruct (lookup f fields) as [fd | ] eqn:E; [ | reflexivity ].
      apply lookup_In in E. apply Hf in E. destruct E as [d [-> Hd]].
      simpl. now apply field_override_refines. }
  rewrite bind_Ok. now rewrite flat_map_filter.
Qed.

Lemma blob_items_run (o : value) :
  is_blob o ->
  py_items (if truthy o then o else VDict []) = Ok (Spec.blob_items o).
Proof.
  intros [H | [d ->]].
  - rewrite H. destruct o as [ | | | | | | [ | e d ] ]; try reflexivity.
    discriminate.
  - destruct d; reflexivity.
Qed.

Lemma falsy_layer_get (layer : value) (ns f : string) :
  truthy layer = false -> Spec.layer_get layer ns f = None.
Proof.
  destruct layer as [ | | | | | | [ | e d ] ]; try reflexivity.
  discriminate.
Qed.

Lemma validate_refines (top nss : dict value) (o : value)
    (role env : string) :
  lookup "namespaces" top = Some (VDict nss) -> namespaces_ok nss ->
  is_blob o ->
  OverrideValidationService.validate
    {| schema := VDict top; overrides := o;
       acting_role := role; environment := env |} =
  Ok {| valid :=
          Nat.eqb (List.length
                     (flat_map (Spec.namespace_errors nss role env)
                               (Spec.blob_items o))) 0;
        errors := flat_map (Spec.namespace_errors nss role env)
                           (Spec.blob_items o) |}.
Proof.
  intros Hns Hok Hb.
  unfold OverrideValidationService.validate. simpl. rewrite Hns. simpl.
  assert (E : py_items (if truthy o then o else VDict []) =
              Ok (Spec.blob_items o)).
  { apply blob_items_run, Hb. }
  rewrite E. simpl.
  rewrite (for_each_pure _ (Spec.namespace_errors nss role env)).
  - reflexivity.
  - intros a _. now apply namespace_check_refines.
Qed.

(* ------------------------------------------------------------------ *)
(** ** The resolver on an accepted schema *)

Lemma lookup_map_values {A B : Type} (g : A -> B) (k : string) (d : dict A) :
  lookup k (map (fun e => (fst e, g (snd e))) d) =
  option_map g (lookup k d).
Proof.
  induction d as [ | [k' a] d IH ]; simpl; auto.
  destruct (String.eqb k k'); auto.
Qed.

Lemma keys_map_values {A B : Type} (g : A -> B) (d : dict A) :
  keys (map (fun e => (fst e, g (snd e))) d) = keys d.
Proof. unfold keys. rewrite map_map. reflexivity. Qed.

Lemma wf_dict_iff (d : dict value) :
  wf_value (VDict d) = true <->
  NoDup (keys d) /\ forall k x, In (k, x) d -> wf_value x = true.
Proof.
  simpl. rewrite andb_true_iff, nodupb_NoDup.
  apply and_iff_compat_l.
  induction d as [ | [k' x'] d IH ]; simpl.
  - split; [ tauto | reflexivity ].
  - rewrite andb_true_iff, IH. split.
    + intros [Hx Hd] k x [Heq | Hin]; [ inversion Heq; subst; auto | eauto ].
    + intros H. split; [ apply (H k' x'); now left | ].
      intros k x Hin. apply (H k x). now right.
Qed.

Lemma wf_dict_inv (d : dict value) :
  wf_value (VDict d) = true ->
  NoDup (keys d) /\ forall k x, In (k, x) d -> wf_value x = true.
Proof. apply wf_dict_iff. Qed.

Lemma defaults_of_refines (fields : dict value) :
  fields_resolvable fields ->
  ConfigResolver.defaults_of (VDict fields) =
  Ok (Spec.base_fields (VDict fields)).
Proof.
  unfold ConfigResolver.defaults_of. simpl.
  induction fields as [ | [f fd] fields IH ]; intros Hok; simpl; auto.
  destruct (Hok f fd) as [d [dv [-> Hd]]]; [ now left | ].
  simpl. rewrite Hd. simpl. rewrite deepcopy_id.
  rewrite IH; [ reflexivity | ].
  intros f' fd' Hin. apply (Hok f' fd'). now right.
Qed.

Lemma base_refines (nss : dict value) :
  namespaces_resolvable nss ->
  map_res (fun '(namespace, fields) =>
             defaults <- ConfigResolver.defaults_of fields ;;
             Ok (namespace, defaults)) nss =
  Ok (Spec.base_config nss).
Proof.
  induction nss as [ | [ns v] nss IH ]; intros Hok; simpl; auto.
  destruct (Hok ns v) as [fields [-> Hf]]; [ now left | ].
  rewrite (defaults_of_refines fields Hf). simpl.
  rewrite IH; [ reflexivity | ].
  intros ns' v' Hin. apply (Hok ns' v'). now right.
Qed.

Lemma base_shaped (nss : dict value) : Spec.shaped nss (Spec.base_config nss).
Proof.
  split.
  - apply keys_map_values.
  - intros ns fields H. unfold Spec.base_config.
    rewrite lookup_map_values, H. simpl. eexists. split; [ reflexivity | ].
    apply keys_map_values.
Qed.

Lemma base_get (nss : dict value) (ns f : string) :
  namespaces_resolvable nss ->
  Spec.config_get (Spec.base_config nss) ns f = Spec.default_of nss ns f.
Proof.
  intros Hok. unfold Spec.config_get, Spec.default_of, Spec.base_config.
  rewrite lookup_map_values.
  destruct (lookup ns nss) as [v | ] eqn:E; simpl; auto.
  apply lookup_In in E. apply Hok in E. destruct E as [fields [-> Hf]].
  simpl. rewrite lookup_map_values.
  destruct (lookup f fields) as [fd | ] eqn:E; simpl; auto.
  apply lookup_In in E. apply Hf in E.
  destruct E as [d [dv [-> Hd]]]. simpl. now rewrite Hd.
Qed.

Lemma fold_res_cons {A S : Type} (f : S -> A -> res S) (a : A)
    (l : list A) (s : S) :
  fold_res f (a :: l) s = bind (f s a) (fold_res f l).
Proof. reflexivity. Qed.

(** One override layer applied to a configuration that has the shape of
    the schema: the layer is applied without raising, the shape is kept,
    and every declared field holds the layer's value if the layer gives
    one and its previous value otherwise. *)
Section ApplyLayer.

Variable nss : dict value.
Hypothesis nss_ok : namespaces_resolvable nss.

Lemma shaped_lookup (cfg : config) (ns : string) :
  Spec.shaped nss cfg -> lookup ns nss = None -> lookup ns cfg = None.
Proof.
  intros [Hk _] H. apply lookup_None. rewrite Hk. now apply lookup_None.
Qed.

Lemma set_field_spec (cfg : config) (ns f : string)
    (fields : dict value) (v : value) :
  Spec.shaped nss cfg -> lookup ns nss = Some (VDict fields) ->
  mem f fields = true ->
  exists cfg',
    ConfigResolver.set_field cfg ns f v = Ok cfg' /\ Spec.shaped nss cfg' /\
    forall ns' f',
      Spec.config_get cfg' ns' f' =
      match Spec.config_get cfg ns' f' with
      | None => None
      | Some old =>
          if String.eqb ns' ns && String.eqb f' f then Some v else Some old
      end.
Proof.
  intros Hs Hns Hf. destruct (proj2 Hs ns fields Hns) as [fc [Hfc Hkeys]].
  unfold ConfigResolver.set_field. rewrite Hfc. eexists.
  split; [ reflexivity | ].
  assert (Hmem : mem f fc = true)
    by (rewrite (lookup_same_keys f fc fields Hkeys); exact Hf).
  split.
  - split.
    + rewrite keys_dict_set; [ apply Hs | ]. unfold mem. now rewrite Hfc.
    + intros ns2 fields2 H2. rewrite lookup_dict_set.
      destruct (String.eqb ns2 ns) eqn:E.
      * apply String.eqb_eq in E. subst ns2.
        rewrite Hns in H2. inversion H2; subst.
        eexists. split; [ reflexivity | ].
        rewrite keys_dict_set; auto.
      * apply (proj2 Hs ns2 fields2 H2).
  - intros ns' f'. unfold Spec.config_get. rewrite lookup_dict_set.
    destruct (String.eqb ns' ns) eqn:E; simpl.
    + apply String.eqb_eq in E. subst ns'. rewrite Hfc.
      rewrite lookup_dict_set.
      destruct (String.eqb f' f) eqn:E'.
      * apply String.eqb_eq in E'. subst f'.
        apply mem_lookup in Hmem. destruct Hmem as [old ->]. reflexivity.
      * destruct (lookup f' fc); reflexivity.
    + destruct (lookup ns' cfg) as [fc' | ]; auto.
      destruct (lookup f' fc'); reflexivity.
Qed.

Lemma apply_field_spec (cfg : config) (ns : string)
    (fields : dict value) (f : string) (v : value) :
  Spec.shaped nss cfg -> lookup ns nss = Some (VDict fields) ->
  exists cfg',
    ConfigResolver.apply_field ns (VDict fields) cfg (f, v) = Ok cfg' /\
    Spec.shaped nss cfg' /\
    forall ns' f',
      Spec.config_get cfg' ns' f' =
      match Spec.config_get cfg ns' f' with
      | None => None
      | Some old =>
          if String.eqb ns' ns && String.eqb f' f then Some v else Some old
      end.
Proof.
  intros Hs Hns. unfold ConfigResolver.apply_field. simpl.
  destruct (mem f fields) eqn:Hf; simpl.
  - rewrite deepcopy_id. eapply set_field_spec; eauto.
  - exists cfg. split; [ reflexivity | ]. split; [ exact Hs | ].
    intros ns' f'.
    destruct (Spec.config_get cfg ns' f') as [old | ] eqn:E; auto.
    destruct (String.eqb ns' ns) eqn:E1; simpl; auto.
    destruct (String.eqb f' f) eqn:E2; auto.
    apply String.eqb_eq in E1, E2. subst. exfalso.
    destruct (proj2 Hs ns fields Hns) as [fc [Hfc Hkeys]].
    unfold Spec.config_get in E. rewrite Hfc in E.
    rewrite <- (lookup_same_keys f fc fields Hkeys) in Hf.
    unfold mem in Hf. rewrite E in Hf. discriminate.
Qed.

Lemma apply_fields_spec (ns : string) (fields items : dict value) :
  lookup ns nss = Some (VDict fields) ->
  forall cfg, Spec.shaped nss cfg ->
  exists cfg',
    fold_res (ConfigResolver.apply_field ns (VDict fields)) items cfg =
    Ok cfg' /\
    Spec.shaped nss cfg' /\
    (NoDup (keys items) ->
     forall ns' f',
       Spec.config_get cfg' ns' f' =
       match Spec.config_get cfg ns' f' with
       | None => None
       | Some old =>
           if String.eqb ns' ns then
             match lookup f' items with
             | Some v => Some v
             | None => Some old
             end
           else Some old
       end).
Proof.
  intros Hns. induction items as [ | [f v] items IH ]; intros cfg Hs.
  - exists cfg. split; [ reflexivity | ]. split; [ exact Hs | ].
    intros _ ns' f'. simpl.
    destruct (Spec.config_get cfg ns' f'); auto.
    destruct (String.eqb ns' ns); reflexivity.
  - destruct (apply_field_spec cfg ns fields f v Hs Hns)
      as [cfg1 [Hrun [Hs1 Hget1]]].
    destruct (IH cfg1 Hs1) as [cfg' [Hrun' [Hs' Hget']]].
    exists cfg'. split; [ rewrite fold_res_cons, Hrun; exact Hrun' | ].
    split; [ exact Hs' | ].
    intros Hnd ns' f'. inversion Hnd as [ | ? ? Hnotin Hnd' ]; subst.
    rewrite (Hget' Hnd'), Hget1. simpl lookup.
    destruct (Spec.config_get cfg ns' f') as [old | ]; auto.
    destruct (String.eqb ns' ns); simpl; auto.
    destruct (String.eqb f' f) eqn:E; auto.
    apply String.eqb_eq in E. subst f'.
    assert (Hnone : lookup f items = None) by now apply lookup_None.
    now rewrite Hnone.
Qed.

Lemma apply_namespace_spec (ns : string) (nsv : value) :
  forall cfg, Spec.shaped nss cfg ->
  exists cfg',
    ConfigResolver.apply_namespace (VDict nss) cfg (ns, nsv) = Ok cfg' /\
    Spec.shaped nss cfg' /\
    (wf_value nsv = true ->
     forall ns' f',
       Spec.config_get cfg' ns' f' =
       match Spec.config_get cfg ns' f' with
       | None => None
       | Some old =>
           if String.eqb ns' ns then
             match nsv with
             | VDict items =>
                 match lookup f' items with
                 | Some v => Some v
                 | None => Some old
                 end
             | _ => Some old
             end
           else Some old
       end).
Proof.
  intros cfg Hs. unfold ConfigResolver.apply_namespace. simpl py_in.
  unfold mem. simpl py_getitem.
  assert (Hsame : forall ns' f',
    Spec.config_get cfg ns' f' =
    match Spec.config_get cfg ns' f' with
    | Some old => if String.eqb ns' ns then Some old else Some old
    | None => None
    end).
  { intros ns' f'. destruct (Spec.config_get cfg ns' f'); auto.
    destruct (String.eqb ns' ns); reflexivity. }
  destruct (lookup ns nss) as [fv | ] eqn:E.
  - pose proof E as E'. apply lookup_In in E'. apply nss_ok in E'.
    destruct E' as [fields [-> Hf]]. simpl.
    destruct nsv as [ | | | | | | items ];
      try (exists cfg; split; [ reflexivity | ]; split; [ exact Hs | ];
           intros _; exact Hsame).
    destruct (apply_fields_spec ns fields items E cfg Hs)
      as [cfg' [Hrun [Hs' Hget]]].
    exists cfg'. split; [ exact Hrun | ]. split; [ exact Hs' | ].
    intros Hwf. apply wf_dict_inv in Hwf. destruct Hwf as [Hnd _].
    intros ns' f'. rewrite (Hget Hnd).
    destruct (Spec.config_get cfg ns' f'); auto.
  - simpl. exists cfg. split; [ reflexivity | ]. split; [ exact Hs | ].
    intros _ ns' f'.
    destruct (Spec.config_get cfg ns' f') as [old | ] eqn:G; auto.
    destruct (String.eqb ns' ns) eqn:E1; auto.
    apply String.eqb_eq in E1. subst ns'. exfalso.
    unfold Spec.config_get in G.
    rewrite (shaped_lookup cfg ns Hs E) in G. discriminate.
Qed.

Lemma layer_get_cons (ns0 : string) (nsv : value) (o : dict value)
    (ns f : string) :
  Spec.layer_get (VDict ((ns0, nsv) :: o)) ns f =
  if String.eqb ns ns0 then
    match nsv with
    | VDict items => lookup f items
    | _ => None
    end
  else Spec.layer_get (VDict o) ns f.
Proof.
  unfold Spec.layer_get. simpl. destruct (String.eqb ns ns0); auto.
Qed.

Lemma apply_namespaces_spec (o : dict value) :
  forall cfg, Spec.shaped nss cfg ->
  exists cfg',
    fold_res (ConfigResolver.apply_namespace (VDict nss)) o cfg = Ok cfg' /\
    Spec.shaped nss cfg' /\
    (wf_value (VDict o) = true ->
     forall ns f,
       Spec.config_get cfg' ns f = Spec.overlay (VDict o) cfg ns f).
Proof.
  induction o as [ | [ns0 nsv] o IH ]; intros cfg Hs.
  - exists cfg. split; [ reflexivity | ]. split; [ exact Hs | ].
    intros _ ns f. unfold Spec.overlay.
    destruct (Spec.config_get cfg ns f); reflexivity.
  - destruct (apply_namespace_spec ns0 nsv cfg Hs)
      as [cfg1 [Hrun [Hs1 Hget1]]].
    destruct (IH cfg1 Hs1) as [cfg' [Hrun' [Hs' Hget']]].
    exists cfg'. split; [ rewrite fold_res_cons, Hrun; exact Hrun' | ].
    split; [ exact Hs' | ].
    intros Hwf ns f. apply wf_dict_inv in Hwf. destruct Hwf as [Hnd Hall].
    inversion Hnd as [ | ? ? Hnotin Hnd' ]; subst.
    assert (Hwfo : wf_value (VDict o) = true).
    { apply wf_dict_iff. split; [ exact Hnd' | ].
      intros k x Hin. apply (Hall k x). now right. }
    rewrite (Hget' Hwfo). unfold Spec.overlay.
    rewrite Hget1 by (apply (Hall ns0 nsv); now left).
    rewrite layer_get_cons.
    destruct (Spec.config_get cfg ns f) as [old | ]; auto.
    destruct (String.eqb ns ns0) eqn:E.
    + apply String.eqb_eq in E. subst ns.
      assert (Hnone : Spec.layer_get (VDict o) ns0 f = None).
      { unfold Spec.layer_get.
        assert (Hl : lookup ns0 o = None) by now apply lookup_None.
        now rewrite Hl. }
      rewrite Hnone. destruct nsv; auto. destruct (lookup f d); auto.
    + destruct (Spec.layer_get (VDict o) ns f); reflexivity.
Qed.

Lemma apply_overrides_fold (nssv : value) (o : dict value) (cfg : config) :
  ConfigResolver._apply_overrides cfg nssv (VDict o) =
  fold_res (ConfigResolver.apply_namespace nssv) o cfg.
Proof. destruct o; reflexivity. Qed.

Lemma apply_overrides_spec (layer : value) :
  is_blob layer ->
  forall cfg, Spec.shaped nss cfg ->
  exists cfg',
    ConfigResolver._apply_overrides cfg (VDict nss) layer = Ok cfg' /\
    Spec.shaped nss cfg' /\
    (wf_value layer = true ->
     forall ns f,
       Spec.config_get cfg' ns f = Spec.overlay layer cfg ns f).
Proof.
  intros [Hfalsy | [o ->]] cfg Hs.
  - exists cfg. split.
    + unfold ConfigResolver._apply_overrides. now rewrite Hfalsy.
    + split; [ exact Hs | ].
      intros _ ns f. unfold Spec.overlay.
      rewrite (falsy_layer_get layer ns f Hfalsy).
      destruct (Spec.config_get cfg ns f); reflexivity.
  - rewrite apply_overrides_fold. now apply apply_namespaces_spec.
Qed.

End ApplyLayer.

Lemma namespaces_ok_resolvable (nss : dict value) :
  namespaces_ok nss -> namespaces_resolvable nss.
Proof.
  intros Hok ns v Hin. destruct (Hok ns v Hin) as [fields [-> Hf]].
  exists fields. split; [ reflexivity | ].
  intros f fd Hfd. destruct (Hf f fd Hfd) as [d [-> [_ [dv Hd] _ _]]].
  eauto.
Qed.

Lemma resolve_spec_resolvable (top nss : dict value) (org user : value) :
  lookup "namespaces" top = Some (VDict nss) -> namespaces_resolvable nss ->
  is_blob org -> is_blob user ->
  exists cfg,
    ConfigResolver.resolve (VDict top) org user = Ok cfg /\
    Spec.shaped nss cfg /\
    (wf_value org = true -> wf_value user = true ->
     forall ns f,
       Spec.config_get cfg ns f = Spec.effective nss org user ns f).
Proof.
  intros Hns Hok Horg Huser.
  unfold ConfigResolver.resolve. simpl py_getitem. rewrite Hns.
  rewrite bind_Ok. simpl py_items. rewrite bind_Ok.
  rewrite (base_refines nss Hok), bind_Ok.
  destruct (apply_overrides_spec nss Hok org Horg _ (base_shaped nss))
    as [cfg1 [Hrun1 [Hs1 Hget1]]].
  destruct (apply_overrides_spec nss Hok user Huser _ Hs1)
    as [cfg2 [Hrun2 [Hs2 Hget2]]].
  exists cfg2. split.
  - rewrite fold_res_cons, Hrun1, bind_Ok, fold_res_cons, Hrun2. reflexivity.
  - split; [ exact Hs2 | ].
    intros Hwo Hwu ns f.
    rewrite (Hget2 Hwu). unfold Spec.overlay. rewrite (Hget1 Hwo).
    unfold Spec.overlay, Spec.effective. rewrite (base_get nss ns f Hok).
    destruct (Spec.default_of nss ns f); auto.
    destruct (Spec.layer_get org ns f), (Spec.layer_get user ns f);
      reflexivity.
Qed.

Lemma resolve_spec (top nss : dict value) (org user : value) :
  lookup "namespaces" top = Some (VDict nss) -> namespaces_ok nss ->
  is_blob org -> is_blob user ->
  exists cfg,
    ConfigResolver.resolve (VDict top) org user = Ok cfg /\
    Spec.shaped nss cfg /\
    (wf_value org = true -> wf_value user = true ->
     forall ns f,
       Spec.config_get cfg ns f = Spec.effective nss org user ns f).
Proof.
  intros Hns Hok. apply resolve_spec_resolvable; auto.
  now apply namespaces_ok_resolvable.
Qed.

(* ------------------------------------------------------------------ *)
(** ** ConfigResolver.resolve: precedence, completeness, failure *)

Lemma valid_schema_namespaces (s : value) :
  valid_schema s ->
  exists top,
    s = VDict top /\
    lookup "namespaces" top = Some (VDict (Spec.namespaces_of s)) /\
    Spec.namespaces_of s <> [] /\
    namespaces_ok (Spec.namespaces_of s).
Proof.
  intros H. apply valid_schema_inv in H.
  destruct H as [top [nss [-> [Hns [Hne Hok]]]]].
  exists top. unfold Spec.namespaces_of. rewrite Hns. auto.
Qed.

(** C1. Precedence law of [ConfigResolver.resolve]: on a schema accepted
    by SchemaValidator, for a field the schema declares, when both the org
    layer and the user layer hold the field's namespace as a mapping with a
    value for the field, the resolved value is the user layer's value; when
    only the org layer supplies it, the resolved value is the org layer's
    value and not the schema default. *)
Theorem resolve_precedence (s org user : value) (ns f : string)
    (fd : value) :
  valid_schema s ->
  is_blob org -> wf_value org = true ->
  is_blob user -> wf_value user = true ->
  Spec.declares s ns f fd ->
  exists cfg,
    ConfigResolver.resolve s org user = Ok cfg /\
    (forall ov uv,
       Spec.layer_get org ns f = Some ov ->
       Spec.layer_get user ns f = Some uv ->
       Spec.config_get cfg ns f = Some uv) /\
    (forall ov,
       Spec.layer_get org ns f = Some ov ->
       Spec.layer_get user ns f = None ->
       Spec.config_get cfg ns f = Some ov).
Proof.
  intros Hv Hbo Hwo Hbu Hwu [fields [Hns Hf]].
  destruct (valid_schema_namespaces s Hv) as [top [-> [Htop [_ Hok]]]].
  destruct (resolve_spec top _ org user Htop Hok Hbo Hbu)
    as [cfg [Hrun [_ Hget]]].
  exists cfg. split; [ exact Hrun | ].
  assert (Hd : exists dv,
    Spec.default_of (Spec.namespaces_of (VDict top)) ns f = Some dv).
  { unfold Spec.default_of. rewrite Hns, Hf.
    pose proof Hns as Hin. apply lookup_In in Hin. apply Hok in Hin.
    destruct Hin as [fields' [Heq Hfok]]. inversion Heq; subst fields'.
    apply lookup_In in Hf. apply Hfok in Hf.
    destruct Hf as [d [-> [_ Hdv _ _]]]. exact Hdv. }
  destruct Hd as [dv Hd].
  split.
  - intros ov uv Ho Hu. rewrite (Hget Hwo Hwu).
    unfold Spec.effective. now rewrite Hd, Hu.
  - intros ov Ho Hu. rewrite (Hget Hwo Hwu).
    unfold Spec.effective. now rewrite Hd, Hu, Ho.
Qed.

Lemma resolve_precedence_witness :
  exists cfg,
    ConfigResolver.resolve Examples.payments_schema
      (VDict [("payments", VDict [("currency", VStr "EUR");
                                  ("max_retries", VInt 7)])])
      (VDict [("payments", VDict [("currency", VStr "GBP")])]) = Ok cfg /\
    Spec.config_get cfg "payments" "currency" = Some (VStr "GBP").
Proof.
  destruct (resolve_precedence Examples.payments_schema
              (VDict [("payments", VDict [("currency", VStr "EUR");
                                          ("max_retries", VInt 7)])])
              (VDict [("payments", VDict [("currency", VStr "GBP")])])
              "payments" "currency"
              (Examples.field "string" (VStr "USD") []))
    as [cfg [Hrun [Hboth _]]].
  - reflexivity.
  - right. eexists. reflexivity.
  - reflexivity.
  - right. eexists. reflexivity.
  - reflexivity.
  - eexists. split; reflexivity.
  - exists cfg. split; [ exact Hrun | ].
    apply (Hboth (VStr "EUR") (VStr "GBP")); reflexivity.
Defined.

(** C2. Completeness of [ConfigResolver.resolve]: on a schema accepted by
    SchemaValidator and for arbitrary override layers (mappings or None),
    the output has exactly the namespaces of the schema, each namespace has
    exactly the fields the schema declares for it, and a field that no
    layer supplies is bound to its schema default. *)
Theorem resolve_complete (s org user : value) :
  valid_schema s -> is_blob org -> is_blob user ->
  exists cfg,
    ConfigResolver.resolve s org user = Ok cfg /\
    keys cfg = keys (Spec.namespaces_of s) /\
    (forall ns, In ns (keys cfg) ->
       exists fields fc,
         lookup ns (Spec.namespaces_of s) = Some (VDict fields) /\
         lookup ns cfg = Some fc /\ keys fc = keys fields) /\
    (wf_value org = true -> wf_value user = true ->
     forall ns f fd,
       Spec.declares s ns f fd ->
       Spec.layer_get org ns f = None ->
       Spec.layer_get user ns f = None ->
       exists dv,
         py_getitem fd "default" = Ok dv /\
         Spec.config_get cfg ns f = Some dv).
Proof.
  intros Hv Hbo Hbu.
  destruct (valid_schema_namespaces s Hv) as [top [-> [Htop [_ Hok]]]].
  destruct (resolve_spec top _ org user Htop Hok Hbo Hbu)
    as [cfg [Hrun [[Hkeys Hshape] Hget]]].
  exists cfg. split; [ exact Hrun | ]. split; [ exact Hkeys | ]. split.
  - intros ns Hin. rewrite Hkeys in Hin. apply mem_true in Hin.
    apply mem_lookup in Hin. destruct Hin as [v Hl].
    pose proof Hl as Hin. apply lookup_In in Hin. apply Hok in Hin.
    destruct Hin as [fields [-> _]].
    destruct (Hshape ns fields Hl) as [fc [Hfc Hk]].
    exists fields, fc. auto.
  - intros Hwo Hwu ns f fd [fields [Hns Hf]] Ho Hu.
    pose proof Hns as Hin. apply lookup_In in Hin. apply Hok in Hin.
    destruct Hin as [fields' [Heq Hfok]]. inversion Heq; subst fields'.
    pose proof Hf as Hin. apply lookup_In in Hin. apply Hfok in Hin.
    destruct Hin as [d [-> [_ [dv Hdv] _ _]]].
    exists dv. split; [ simpl; now rewrite Hdv | ].
    rewrite (Hget Hwo Hwu). unfold Spec.effective, Spec.default_of.
    now rewrite Hns, Hf, Hdv, Hu, Ho.
Qed.

Lemma resolve_complete_witness :
  exists cfg,
    ConfigResolver.resolve Examples.payments_schema
      (VDict [("payments", VDict [("currency", VStr "EUR");
                                  ("stale", VInt 1)]);
              ("gone", VDict [("x", VInt 1)])])
      VNone = Ok cfg /\
    keys cfg = ["payments"].
Proof.
  destruct (resolve_complete Examples.payments_schema
              (VDict [("payments", VDict [("currency", VStr "EUR");
                                          ("stale", VInt 1)]);
                      ("gone", VDict [("x", VInt 1)])])
              VNone)
    as [cfg [Hrun [Hkeys _]]].
  - reflexivity.
  - right. eexists. reflexivity.
  - left. reflexivity.
  - exists cfg. split; [ exact Hrun | exact Hkeys ].
Defined.

(** C4. [ConfigResolver.resolve] raises a missing-key error on every
    schema mapping without the key namespaces, whatever the override
    arguments are; on every schema accepted by SchemaValidator it returns
    normally for all override layers (mappings of any content, or None). *)
Theorem resolve_raises_iff :
  (forall top org user,
     lookup "namespaces" top = None ->
     ConfigResolver.resolve (VDict top) org user =
     Raise (KeyError (VStr "namespaces"))) /\
  (forall s org user,
     valid_schema s -> is_blob org -> is_blob user ->
     exists cfg, ConfigResolver.resolve s org user = Ok cfg).
Proof.
  split.
  - intros top org user H. unfold ConfigResolver.resolve. simpl.
    now rewrite H.
  - intros s org user Hv Hbo Hbu.
    destruct (valid_schema_namespaces s Hv) as [top [-> [Htop [_ Hok]]]].
    destruct (resolve_spec top _ org user Htop Hok Hbo Hbu)
      as [cfg [Hrun _]].
    eauto.
Qed.

Lemma resolve_raises_iff_witness :
  ConfigResolver.resolve (VDict [("version", VInt 1)])
    (VInt 3) (VStr "not a mapping") =
  Raise (KeyError (VStr "namespaces")) /\
  exists cfg,
    ConfigResolver.resolve Examples.payments_schema
      (VDict [("payments", VInt 0); ("", VList [VNone])])
      (VDict [("payments", VDict [("currency", VDict [])])]) = Ok cfg.
Proof.
  split.
  - apply (proj1 resolve_raises_iff). reflexivity.
  - apply (proj2 resolve_raises_iff).
    + reflexivity.
    + right. eexists. reflexivity.
    + right. eexists. reflexivity.
Defined.

(* ------------------------------------------------------------------ *)
(** ** Unknown override content *)

Lemma resolve_layer_ext (s layer layer' other : value) :
  (forall nssv cfg,
     py_getitem s "namespaces" = Ok nssv ->
     ConfigResolver._apply_overrides cfg nssv layer =
     ConfigResolver._apply_overrides cfg nssv layer') ->
  ConfigResolver.resolve s layer other = ConfigResolver.resolve s layer' other
  /\
  ConfigResolver.resolve s other layer = ConfigResolver.resolve s other layer'.
Proof.
  intros H. unfold ConfigResolver.resolve.
  destruct (py_getitem s "namespaces") as [nssv | e] eqn:E; simpl; auto.
  destruct (py_items nssv) as [ns_items | e]; simpl; auto.
  destruct (map_res _ ns_items) as [base | e]; simpl; auto.
  split.
  - now rewrite (H nssv base).
  - destruct (ConfigResolver._apply_overrides base nssv other); simpl; auto.
    now rewrite (H nssv).
Qed.

Lemma drop_unknown_namespace (nss : dict value) (ns : string)
    (o : dict value) (cfg : config) :
  lookup ns nss = None ->
  ConfigResolver._apply_overrides cfg (VDict nss) (VDict o) =
  ConfigResolver._apply_overrides cfg (VDict nss)
    (VDict (Spec.dict_remove ns o)).
Proof.
  intros H. rewrite !apply_overrides_fold. unfold Spec.dict_remove.
  symmetry. apply fold_res_skip.
  intros [k x] c _ Hk. simpl in Hk. apply negb_false_iff in Hk.
  apply String.eqb_eq in Hk. subst k.
  unfold ConfigResolver.apply_namespace. simpl. unfold mem. now rewrite H.
Qed.

Lemma drop_unknown_field (nss fields : dict value) (ns f : string)
    (o : dict value) (cfg : config) :
  lookup ns nss = Some (VDict fields) -> lookup f fields = None ->
  ConfigResolver._apply_overrides cfg (VDict nss) (VDict o) =
  ConfigResolver._apply_overrides cfg (VDict nss)
    (VDict (Spec.drop_field ns f o)).
Proof.
  intros Hns Hf. rewrite !apply_overrides_fold. unfold Spec.drop_field.
  symmetry. apply fold_res_map.
  intros [k x] c _. simpl.
  destruct (String.eqb k ns) eqn:E; auto.
  destruct x as [ | | | | | | items ]; auto.
  apply String.eqb_eq in E. subst k.
  unfold ConfigResolver.apply_namespace. simpl. unfold mem. rewrite Hns.
  simpl. unfold Spec.dict_remove. apply fold_res_skip.
  intros [k v] c' _ Hk. simpl in Hk. apply negb_false_iff in Hk.
  apply String.eqb_eq in Hk. subst k.
  unfold ConfigResolver.apply_field. simpl. unfold mem. now rewrite Hf.
Qed.

Lemma validate_reports (s : value) (o : dict value) (role env : string)
    (entry : string * value) (e : ErrorDict.t) :
  valid_schema s -> In entry o ->
  In e (Spec.namespace_errors (Spec.namespaces_of s) role env entry) ->
  exists r,
    OverrideValidationService.validate
      {| schema := s; overrides := VDict o;
         acting_role := role; environment := env |} = Ok r /\
    r.(valid) = false /\ In e r.(errors).
Proof.
  intros Hv Hin He.
  destruct (valid_schema_namespaces s Hv) as [top [-> [Htop [_ Hok]]]].
  eexists. split.
  - apply (validate_refines top _ (VDict o) role env Htop Hok).
    right. eexists. reflexivity.
  - assert (Hall : In e (flat_map
        (Spec.namespace_errors (Spec.namespaces_of (VDict top)) role env) o))
      by (apply in_flat_map; eauto).
    simpl. split; [ | exact Hall ].
    destruct (flat_map _ o); [ contradiction | reflexivity ].
Qed.

Lemma resolve_shaped (s org user : value) :
  valid_schema s -> is_blob org -> is_blob user ->
  exists cfg,
    ConfigResolver.resolve s org user = Ok cfg /\
    Spec.shaped (Spec.namespaces_of s) cfg.
Proof.
  intros Hv Hbo Hbu.
  destruct (valid_schema_namespaces s Hv) as [top [-> [Htop [_ Hok]]]].
  destruct (resolve_spec top _ org user Htop Hok Hbo Hbu)
    as [cfg [Hrun [Hs _]]].
  eauto.
Qed.

Lemma shaped_no_field (nss fields : dict value) (cfg : config)
    (ns f : string) :
  Spec.shaped nss cfg -> lookup ns nss = Some (VDict fields) ->
  lookup f fields = None -> Spec.config_get cfg ns f = None.
Proof.
  intros [_ Hs] Hns Hf. destruct (Hs ns fields Hns) as [fc [Hfc Hk]].
  unfold Spec.config_get. rewrite Hfc.
  apply mem_false. rewrite (lookup_same_keys f fc fields Hk).
  now apply mem_false.
Qed.

(** C3. Validator/resolver asymmetry on unknown keys: on a schema accepted
    by SchemaValidator, for an override blob that holds a namespace absent
    from the schema, or a field absent from the schema namespace it
    targets, [OverrideValidationService.validate] returns valid = false
    with an unknown_namespace, respectively unknown_field, error for that
    key, while [ConfigResolver.resolve] with the same blob (as org layer or
    as user layer) returns normally, its output has no entry for the key
    and equals the output for the blob without the key. *)
Theorem unknown_keys_asymmetry (s : value) (o : dict value) (other : value)
    (role env : string) :
  valid_schema s -> is_blob other ->
  (forall ns nsv,
     In (ns, nsv) o -> lookup ns (Spec.namespaces_of s) = None ->
     (exists r,
        OverrideValidationService.validate
          {| schema := s; overrides := VDict o;
             acting_role := role; environment := env |} = Ok r /\
        r.(valid) = false /\
        In (ErrorDict.mk ns ErrorDict.unknown_namespace
              (ErrorDict.NamespaceNotInSchema ns)) r.(errors)) /\
     (exists cfg,
        ConfigResolver.resolve s (VDict o) other = Ok cfg /\
        lookup ns cfg = None /\
        ConfigResolver.resolve s (VDict (Spec.dict_remove ns o)) other =
        Ok cfg) /\
     (exists cfg,
        ConfigResolver.resolve s other (VDict o) = Ok cfg /\
        lookup ns cfg = None /\
        ConfigResolver.resolve s other (VDict (Spec.dict_remove ns o)) =
        Ok cfg)) /\
  (forall ns items f v fields,
     In (ns, VDict items) o -> In (f, v) items ->
     lookup ns (Spec.namespaces_of s) = Some (VDict fields) ->
     lookup f fields = None ->
     (exists r,
        OverrideValidationService.validate
          {| schema := s; overrides := VDict o;
             acting_role := role; environment := env |} = Ok r /\
        r.(valid) = false /\
        In (ErrorDict.mk (ns ++ "." ++ f)%string ErrorDict.unknown_field
              (ErrorDict.FieldNotInNamespace f ns)) r.(errors)) /\
     (exists cfg,
        ConfigResolver.resolve s (VDict o) other = Ok cfg /\
        Spec.config_get cfg ns f = None /\
        ConfigResolver.resolve s (VDict (Spec.drop_field ns f o)) other =
        Ok cfg) /\
     (exists cfg,
        ConfigResolver.resolve s other (VDict o) = Ok cfg /\
        Spec.config_get cfg ns f = None /\
        ConfigResolver.resolve s other (VDict (Spec.drop_field ns f o)) =
        Ok cfg)).
Proof.
  intros Hv Hb.
  assert (Hbo : is_blob (VDict o)) by (right; eexists; reflexivity).
  destruct (resolve_shaped s (VDict o) other Hv Hbo Hb) as [c1 [Hr1 Hs1]].
  destruct (resolve_shaped s other (VDict o) Hv Hb Hbo) as [c2 [Hr2 Hs2]].
  destruct (valid_schema_namespaces s Hv) as [top [Es [Htop _]]].
  assert (Hnssv : forall nssv,
    py_getitem s "namespaces" = Ok nssv ->
    nssv = VDict (Spec.namespaces_of s)).
  { intros nssv H. subst s. simpl in H. rewrite Htop in H.
    now inversion H. }
  split.
  - intros ns nsv Hin Hns. split; [ | split ].
    + apply (validate_reports s o role env (ns, nsv)); auto.
      unfold Spec.namespace_errors. simpl. rewrite Hns. now left.
    + exists c1. split; [ exact Hr1 | ].
      split; [ eapply shaped_lookup; eauto | ].
      rewrite <- Hr1. symmetry. apply resolve_layer_ext.
      intros nssv cfg H. rewrite (Hnssv nssv H).
      now apply drop_unknown_namespace.
    + exists c2. split; [ exact Hr2 | ].
      split; [ eapply shaped_lookup; eauto | ].
      rewrite <- Hr2. symmetry. apply resolve_layer_ext.
      intros nssv cfg H. rewrite (Hnssv nssv H).
      now apply drop_unknown_namespace.
  - intros ns items f v fields Hin Hf Hns Hnone. split; [ | split ].
    + apply (validate_reports s o role env (ns, VDict items)); auto.
      unfold Spec.namespace_errors. simpl. rewrite Hns.
      apply in_or_app. left. apply in_flat_map. exists f. split.
      * eapply In_keys; eauto.
      * unfold Spec.unknown_field_errors.
        apply mem_false in Hnone. rewrite Hnone. now left.
    + exists c1. split; [ exact Hr1 | ].
      split; [ eapply shaped_no_field; eauto | ].
      rewrite <- Hr1. symmetry. apply resolve_layer_ext.
      intros nssv cfg H. rewrite (Hnssv nssv H).
      eapply drop_unknown_field; eauto.
    + exists c2. split; [ exact Hr2 | ].
      split; [ eapply shaped_no_field; eauto | ].
      rewrite <- Hr2. symmetry. apply resolve_layer_ext.
      intros nssv cfg H. rewrite (Hnssv nssv H).
      eapply drop_unknown_field; eauto.
Qed.

Lemma unknown_keys_asymmetry_witness :
  (exists r,
     OverrideValidationService.validate
       (Examples.request Examples.payments_schema
          (VDict [("payments", VDict [("currency", VStr "EUR");
                                      ("stale", VInt 1)]);
                  ("gone", VDict [("x", VInt 1)])])) = Ok r /\
     r.(valid) = false /\
     In (ErrorDict.mk "gone" ErrorDict.unknown_namespace
           (ErrorDict.NamespaceNotInSchema "gone")) r.(errors)) /\
  (exists cfg,
     ConfigResolver.resolve Examples.payments_schema
       (VDict [("payments", VDict [("currency", VStr "EUR");
                                   ("stale", VInt 1)]);
               ("gone", VDict [("x", VInt 1)])]) VNone = Ok cfg /\
     Spec.config_get cfg "payments" "stale" = None).
Proof.
  pose proof (unknown_keys_asymmetry Examples.payments_schema
                [("payments", VDict [("currency", VStr "EUR");
                                     ("stale", VInt 1)]);
                 ("gone", VDict [("x", VInt 1)])]
                VNone "editor" "prod" eq_refl (or_introl eq_refl))
    as [HA HB].
  split.
  - apply (HA "gone" (VDict [("x", VInt 1)])).
    + right. now left.
    + reflexivity.
  - destruct (HB "payments"
                [("currency", VStr "EUR"); ("stale", VInt 1)]
                "stale" (VInt 1)
                (Spec.blob_items
                   (Spec.opt_value
                      (lookup "payments"
                         (Spec.namespaces_of Examples.payments_schema)))))
      as [_ [[cfg [Hrun [Hget _]]] _]].
    + now left.
    + right. now left.
    + reflexivity.
    + reflexivity.
    + exists cfg. split; [ exact Hrun | exact Hget ].
Defined.

(* ------------------------------------------------------------------ *)
(** ** OverrideValidationService: the per-field sequence *)

Lemma count_code_app (c : ErrorDict.error_code) (l1 l2 : list ErrorDict.t) :
  Spec.count_code c (l1 ++ l2) =
  (Spec.count_code c l1 + Spec.count_code c l2)%nat.
Proof.
  unfold Spec.count_code. now rewrite filter_app, length_app.
Qed.

(** Where the errors of one overridden field sit in the result. *)
Lemma validate_field_block (s : value) (o : dict value) (role env : string)
    (ns f : string) (items d : dict value) (v : value) :
  valid_schema s ->
  In (ns, VDict items) o -> In (f, v) items ->
  Spec.declares s ns f (VDict d) ->
  exists r pre post,
    OverrideValidationService.validate
      {| schema := s; overrides := VDict o;
         acting_role := role; environment := env |} = Ok r /\
    OverrideValidationService._validate_field_override
      (ns ++ "." ++ f)%string (VDict d) v role env =
    Ok (Spec.field_errors (ns ++ "." ++ f)%string d v role env) /\
    r.(errors) =
    pre ++ Spec.field_errors (ns ++ "." ++ f)%string d v role env ++ post /\
    field_ok d.
Proof.
  intros Hv Hns Hf [fields [Hl Hd]].
  destruct (valid_schema_namespaces s Hv) as [top [-> [Htop [_ Hok]]]].
  assert (Hfok : field_ok d).
  { pose proof Hl as Hin. apply lookup_In in Hin. apply Hok in Hin.
    destruct Hin as [fields' [Heq Hfs]]. inversion Heq; subst fields'.
    apply lookup_In in Hd. apply Hfs in Hd.
    destruct Hd as [d' [Heq' Hd]]. now inversion Heq'; subst. }
  destruct (flat_map_In_split
              (Spec.namespace_errors (Spec.namespaces_of (VDict top))
                                     role env) o _ Hns)
    as [pre1 [post1 E1]].
  destruct (flat_map_In_split
              (Spec.present_field_errors ns fields role env) items _ Hf)
    as [pre2 [post2 E2]].
  pose proof (validate_refines top _ (VDict o) role env Htop Hok
                (or_intror (ex_intro _ o eq_refl))) as Hrun.
  change (Spec.blob_items (VDict o)) with o in Hrun. rewrite E1 in Hrun.
  eexists. exists (pre1 ++
    flat_map (Spec.unknown_field_errors ns fields) (keys items) ++
    map (fun e => Spec.missing_required_error ns (fst e))
        (filter (Spec.required_absent items) fields) ++ pre2).
  exists (post2 ++ post1).
  split; [ exact Hrun | ]. split; [ | split ].
  - now apply field_override_refines.
  - cbn [errors]. unfold Spec.namespace_errors. cbn [fst snd].
    rewrite Hl, E2. unfold Spec.present_field_errors at 1. cbn [fst snd].
    rewrite Hd. rewrite <- !app_assoc. reflexivity.
  - exact Hfok.
Qed.

(** C5. A type mismatch gates the constraint checks: on a schema accepted
    by SchemaValidator, for a field present both in the override blob and
    in the schema whose override value fails the declared-type check
    (integer excludes bool, float accepts int and excludes bool, the other
    types by direct membership), the errors emitted for that field hold
    exactly one type_mismatch and no constraint_violation. *)
Theorem type_mismatch_gates_constraints (s : value) (o : dict value)
    (role env : string) (ns f t : string) (items d : dict value)
    (v : value) :
  valid_schema s ->
  In (ns, VDict items) o -> In (f, v) items ->
  Spec.declares s ns f (VDict d) ->
  lookup "type" d = Some (VStr t) ->
  Spec.type_ok t v = false ->
  exists r pre es post,
    OverrideValidationService.validate
      {| schema := s; overrides := VDict o;
         acting_role := role; environment := env |} = Ok r /\
    _type_matches (VStr t) v = Ok false /\
    OverrideValidationService._validate_field_override
      (ns ++ "." ++ f)%string (VDict d) v role env = Ok es /\
    r.(errors) = pre ++ es ++ post /\
    Spec.count_code ErrorDict.type_mismatch es = 1%nat /\
    Spec.count_code ErrorDict.constraint_violation es = 0%nat.
Proof.
  intros Hv Hns Hf Hd Ht Hty.
  destruct (validate_field_block s o role env ns f items d v Hv Hns Hf Hd)
    as [r [pre [post [Hrun [Hfield [Herr Hok]]]]]].
  exists r, pre,
    (Spec.field_errors (ns ++ "." ++ f)%string d v role env), post.
  split; [ exact Hrun | ].
  destruct Hok as [[t' [Ht' Hin]] _ _ _].
  rewrite Ht in Ht'. inversion Ht'; subst t'.
  split; [ rewrite (type_matches_refines t v Hin); now rewrite Hty | ].
  split; [ exact Hfield | ]. split; [ exact Herr | ].
  unfold Spec.field_errors, Spec.declared_type_of. rewrite Ht, Hty.
  rewrite !count_code_app.
  unfold Spec.immutable_errors, Spec.role_errors, Spec.env_errors,
    Spec.type_errors.
  split;
    repeat match goal with
           | |- context [match ?x with _ => _ end] => destruct x
           end; reflexivity.
Qed.

Lemma type_mismatch_gates_constraints_witness :
  exists r pre es post,
    OverrideValidationService.validate
      (Examples.request Examples.payments_schema
         (VDict [("payments", VDict [("tier", VBool true)])])) = Ok r /\
    _type_matches (VStr "integer") (VBool true) = Ok false /\
    OverrideValidationService._validate_field_override
      "payments.tier"
      (VDict [("type", VStr "integer"); ("default", VInt 5);
              ("required", VBool true);
              ("constraints", VDict [("min", VInt 3);
                                     ("allowed_values",
                                      VList [VInt 5; VInt 10])])])
      (VBool true) "editor" "prod" = Ok es /\
    r.(errors) = pre ++ es ++ post /\
    Spec.count_code ErrorDict.type_mismatch es = 1%nat /\
    Spec.count_code ErrorDict.constraint_violation es = 0%nat.
Proof.
  apply (type_mismatch_gates_constraints Examples.payments_schema
           [("payments", VDict [("tier", VBool true)])]
           "editor" "prod" "payments" "tier" "integer"
           [("tier", VBool true)]).
  - reflexivity.
  - now left.
  - now left.
  - eexists. split; reflexivity.
  - reflexivity.
  - reflexivity.
Defined.

Lemma lookup_set_other {A : Type} (k k' : string) (a : A) (d : dict A) :
  String.eqb k' k = false -> lookup k' (dict_set k a d) = lookup k' d.
Proof. intros H. now rewrite lookup_dict_set, H. Qed.

(** The field definition with [editable] switched on. *)
Lemma editable_twin_ok (d : dict value) :
  field_ok d -> field_ok (dict_set "editable" (VBool true) d).
Proof.
  intros [Ht Hd Hc Hp].
  constructor; rewrite lookup_set_other by reflexivity; assumption.
Qed.

Lemma editable_twin_errors (p : string) (d : dict value) (v : value)
    (role env : string) :
  Spec.field_errors p d v role env =
  Spec.immutable_errors p d ++
  Spec.field_errors p (dict_set "editable" (VBool true) d) v role env.
Proof.
  unfold Spec.field_errors at 2.
  unfold Spec.immutable_errors at 2, Spec.role_errors, Spec.env_errors,
    Spec.type_errors, Spec.policy_of, Spec.constraints_of,
    Spec.declared_type_of.
  rewrite lookup_dict_set. cbn [String.eqb Ascii.eqb Bool.eqb andb app].
  rewrite !lookup_set_other by reflexivity.
  reflexivity.
Qed.

(** C6. Immutability does not short-circuit: on a schema accepted by
    SchemaValidator, overriding a field declared editable: false emits
    immutable_field and the remaining per-field rules still run: the
    errors of the field are immutable_field followed by exactly the errors
    the same override gets when the field is editable, all of them are in
    the result, and when the value also fails the type check the result
    holds both immutable_field and type_mismatch for that field. *)
Theorem immutable_does_not_short_circuit (s : value) (o : dict value)
    (role env : string) (ns f : string) (items d : dict value) (v : value) :
  valid_schema s ->
  In (ns, VDict items) o -> In (f, v) items ->
  Spec.declares s ns f (VDict d) ->
  lookup "editable" d = Some (VBool false) ->
  let path := (ns ++ "." ++ f)%string in
  let immutable :=
    ErrorDict.mk path ErrorDict.immutable_field (ErrorDict.Immutable path) in
  exists r rest,
    OverrideValidationService.validate
      {| schema := s; overrides := VDict o;
         acting_role := role; environment := env |} = Ok r /\
    r.(valid) = false /\
    OverrideValidationService._validate_field_override
      path (VDict d) v role env = Ok (immutable :: rest) /\
    OverrideValidationService._validate_field_override
      path (VDict (dict_set "editable" (VBool true) d)) v role env =
    Ok rest /\
    (forall e, In e (immutable :: rest) -> In e r.(errors)) /\
    (forall t,
       lookup "type" d = Some (VStr t) -> Spec.type_ok t v = false ->
       In (ErrorDict.mk path ErrorDict.type_mismatch
             (ErrorDict.ExpectsType path (VStr t) (type_name v)))
          rest).
Proof.
  intros Hv Hns Hf Hd He path immutable.
  destruct (validate_field_block s o role env ns f items d v Hv Hns Hf Hd)
    as [r [pre [post [Hrun [Hfield [Herr Hok]]]]]].
  fold path in Hfield, Herr.
  rewrite editable_twin_errors in Hfield, Herr.
  unfold Spec.immutable_errors in Hfield, Herr. rewrite He in Hfield, Herr.
  fold immutable in Hfield, Herr.
  exists r, (Spec.field_errors path (dict_set "editable" (VBool true) d)
                               v role env).
  split; [ exact Hrun | ].
  split.
  { unfold OverrideValidationService.validate in Hrun.
    repeat (apply bind_Ok_inv in Hrun; destruct Hrun as [? [_ Hrun]]).
    inversion Hrun; subst r. simpl in Herr |- *. rewrite Herr.
    destruct pre; reflexivity. }
  split; [ exact Hfield | ].
  split; [ apply field_override_refines; now apply editable_twin_ok | ].
  split.
  - intros e Hin. rewrite Herr. apply in_or_app. right.
    apply in_or_app. now left.
  - intros t Ht Hty. unfold Spec.field_errors, Spec.declared_type_of.
    rewrite lookup_set_other by reflexivity. rewrite Ht, Hty.
    apply in_or_app. right. apply in_or_app. right. apply in_or_app. right.
    unfold Spec.type_errors, Spec.declared_type_of.
    rewrite lookup_set_other by reflexivity. rewrite Ht. now left.
Qed.

Lemma immutable_does_not_short_circuit_witness :
  exists r,
    OverrideValidationService.validate
      (Examples.request Examples.payments_schema
         (VDict [("payments", VDict [("processor_id", VInt 7);
                                     ("tier", VInt 5)])])) = Ok r /\
    In (ErrorDict.mk "payments.processor_id" ErrorDict.immutable_field
          (ErrorDict.Immutable "payments.processor_id")) r.(errors) /\
    In (ErrorDict.mk "payments.processor_id" ErrorDict.type_mismatch
          (ErrorDict.ExpectsType "payments.processor_id" (VStr "string")
                                 "int")) r.(errors).
Proof.
  destruct (immutable_does_not_short_circuit Examples.payments_schema
              [("payments", VDict [("processor_id", VInt 7);
                                   ("tier", VInt 5)])]
              "editor" "prod" "payments" "processor_id"
              [("processor_id", VInt 7); ("tier", VInt 5)]
              [("type", VStr "string"); ("default", VStr "stripe_v2");
               ("required", VBool false); ("editable", VBool false)]
              (VInt 7))
    as [r [rest [Hrun [_ [_ [_ [Hall Hty]]]]]]].
  - reflexivity.
  - now left.
  - now left.
  - eexists. split; reflexivity.
  - reflexivity.
  - exists r. split; [ exact Hrun | ]. split.
    + apply Hall. now left.
    + apply Hall. right. apply (Hty "string"); reflexivity.
Defined.

(* ------------------------------------------------------------------ *)
(** ** OverrideValidationService: required fields *)

Lemma filter_flat_map_nil {A B : Type} (p : B -> bool) (g : A -> list B)
    (l : list A) :
  (forall a, In a l -> filter p (g a) = []) ->
  filter p (flat_map g l) = [].
Proof.
  induction l as [ | a l IH ]; simpl; intros H; auto.
  rewrite filter_app, H, IH; auto.
Qed.

Lemma field_errors_not_missing (p : string) (d : dict value) (v : value)
    (role env : string) :
  filter Spec.is_missing_required (Spec.field_errors p d v role env) = [].
Proof.
  unfold Spec.field_errors, Spec.immutable_errors, Spec.role_errors,
    Spec.env_errors, Spec.type_errors, Spec.constraint_errors.
  rewrite !filter_app.
  repeat match goal with
         | |- context [match ?x with _ => _ end] => destruct x
         end; reflexivity.
Qed.

Lemma namespace_missing_required (nss : dict value) (role env : string)
    (entry : string * value) :
  filter Spec.is_missing_required (Spec.namespace_errors nss role env entry) =
  map (fun p => Spec.missing_required_error (fst p) (snd p))
      match lookup (fst entry) nss, snd entry with
      | Some (VDict fields), VDict ns_items =>
          map (fun fe => (fst entry, fst fe))
              (filter (Spec.required_absent ns_items) fields)
      | _, _ => []
      end.
Proof.
  unfold Spec.namespace_errors.
  destruct (lookup (fst entry) nss) as [ [ | | | | | | fields ] | ];
    try reflexivity.
  destruct (snd entry) as [ | | | | | | items ]; try reflexivity.
  rewrite !filter_app.
  rewrite filter_flat_map_nil.
  2:{ intros k _. unfold Spec.unknown_field_errors.
      destruct (mem k fields); reflexivity. }
  rewrite (filter_flat_map_nil _ (Spec.present_field_errors _ _ _ _)).
  2:{ intros a _. unfold Spec.present_field_errors.
      destruct (lookup (fst a) fields) as [ [ | | | | | | d ] | ];
        try reflexivity.
      apply field_errors_not_missing. }
  rewrite app_nil_r. simpl. rewrite map_map. simpl.
  induction (filter (Spec.required_absent items) fields) as [ | a l IH ];
    simpl; [ reflexivity | now rewrite IH ].
Qed.

Lemma validate_missing_required (nss : dict value) (role env : string)
    (o : dict value) :
  filter Spec.is_missing_required
    (flat_map (Spec.namespace_errors nss role env) o) =
  map (fun p => Spec.missing_required_error (fst p) (snd p))
      (Spec.required_missing nss o).
Proof.
  unfold Spec.required_missing.
  induction o as [ | entry o IH ]; simpl; [ reflexivity | ].
  now rewrite filter_app, map_app, IH, namespace_missing_required.
Qed.

Lemma required_missing_In (nss o : dict value) (ns f : string) :
  In (ns, f) (Spec.required_missing nss o) <->
  exists items fields fd,
    In (ns, VDict items) o /\ lookup ns nss = Some (VDict fields) /\
    In (f, fd) fields /\ Spec.is_required fd = true /\
    mem f items = false.
Proof.
  unfold Spec.required_missing. rewrite in_flat_map. split.
  - intros [[k x] [Hin H]]. simpl in H.
    destruct (lookup k nss) as [ [ | | | | | | fields ] | ] eqn:E;
      try contradiction.
    destruct x as [ | | | | | | items ]; try contradiction.
    apply in_map_iff in H. destruct H as [[f' fd] [Heq H]].
    simpl in Heq. inversion Heq; subst.
    apply filter_In in H. destruct H as [Hf Hr].
    unfold Spec.required_absent in Hr. simpl in Hr.
    apply andb_true_iff in Hr. destruct Hr as [Hr Hm].
    apply negb_true_iff in Hm.
    exists items, fields, fd. auto.
  - intros [items [fields [fd [Hin [Hl [Hf [Hr Hm]]]]]]].
    exists (ns, VDict items). split; [ exact Hin | ]. simpl. rewrite Hl.
    apply in_map_iff. exists (f, fd). split; [ reflexivity | ].
    apply filter_In. split; [ exact Hf | ].
    unfold Spec.required_absent. simpl. now rewrite Hr, Hm.
Qed.

Lemma NoDup_map_fst_inj {A : Type} (k : string) (l : list (string * A)) :
  NoDup (keys l) -> NoDup (map (fun fe => (k, fst fe)) l).
Proof.
  induction l as [ | [f a] l IH ]; simpl; intros H; [ constructor | ].
  inversion H as [ | ? ? Hn Hd ]; subst. constructor; auto.
  intros Hin. apply in_map_iff in Hin. destruct Hin as [[f' a'] [Heq Hin]].
  simpl in Heq. inversion Heq; subst. apply Hn. eapply In_keys; eauto.
Qed.

Lemma NoDup_keys_filter {A : Type} (p : string * A -> bool)
    (l : list (string * A)) :
  NoDup (keys l) -> NoDup (keys (filter p l)).
Proof.
  induction l as [ | [f a] l IH ]; simpl; intros H; [ constructor | ].
  inversion H as [ | ? ? Hn Hd ]; subst.
  destruct (p (f, a)); simpl; auto. constructor; auto.
  intros Hin. apply Hn. unfold keys in *. apply in_map_iff in Hin.
  destruct Hin as [x [Heq Hin]]. apply filter_In in Hin.
  apply in_map_iff. exists x. tauto.
Qed.

Lemma required_missing_NoDup (nss o : dict value) :
  (forall ns fields, lookup ns nss = Some (VDict fields) ->
                     NoDup (keys fields)) ->
  NoDup (keys o) ->
  NoDup (Spec.required_missing nss o).
Proof.
  intros Hs. unfold Spec.required_missing.
  induction o as [ | [k x] o IH ]; simpl; intros Hnd; [ constructor | ].
  inversion Hnd as [ | ? ? Hn Hd ]; subst.
  apply NoDup_app; [ | exact (IH Hd) | ].
  - destruct (lookup k nss) as [ [ | | | | | | fields ] | ] eqn:E;
      try constructor.
    destruct x as [ | | | | | | items ]; try constructor.
    apply NoDup_map_fst_inj. apply NoDup_keys_filter. eapply Hs; eauto.
  - intros [ns f] H1 H2.
    assert (ns = k).
    { destruct (lookup k nss) as [ [ | | | | | | fields ] | ];
        try contradiction.
      destruct x; try contradiction.
      apply in_map_iff in H1. destruct H1 as [? [Heq _]].
      now inversion Heq. }
    subst ns. apply Hn.
    apply in_flat_map in H2. destruct H2 as [[k' x'] [Hin H2]]. simpl in H2.
    assert (k' = k).
    { destruct (lookup k' nss) as [ [ | | | | | | fields ] | ];
        try contradiction.
      destruct x'; try contradiction.
      apply in_map_iff in H2. destruct H2 as [? [Heq _]].
      now inversion Heq. }
    subst k'. eapply In_keys; eauto.
Qed.

Lemma wf_schema_fields (s : value) (ns : string) (fields : dict value) :
  wf_value s = true ->
  lookup ns (Spec.namespaces_of s) = Some (VDict fields) ->
  NoDup (keys fields).
Proof.
  intros Hwf Hl. destruct s as [ | | | | | | top ]; try discriminate.
  unfold Spec.namespaces_of in Hl.
  destruct (lookup "namespaces" top) as [ [ | | | | | | nss ] | ] eqn:E;
    try discriminate.
  apply wf_dict_inv in Hwf. destruct Hwf as [_ Hall].
  apply lookup_In in E. apply Hall in E.
  apply wf_dict_inv in E. destruct E as [_ Hall'].
  apply lookup_In in Hl. apply Hall' in Hl.
  now apply wf_dict_inv in Hl.
Qed.

(** C8. Scope of missing_required: on a schema accepted by
    SchemaValidator, the missing_required errors of a validation are, in
    order, exactly one per pair of a namespace of the blob that exists in
    the schema with a mapping as override value and a schema field of that
    namespace declared required: true that the override mapping does not
    hold, whatever else the override touches; a namespace that is not in
    the blob contributes none. *)
Theorem missing_required_scope (s : value) (o : dict value)
    (role env : string) :
  valid_schema s -> wf_value s = true -> wf_value (VDict o) = true ->
  exists r,
    OverrideValidationService.validate
      {| schema := s; overrides := VDict o;
         acting_role := role; environment := env |} = Ok r /\
    filter Spec.is_missing_required r.(errors) =
    map (fun p => Spec.missing_required_error (fst p) (snd p))
        (Spec.required_missing (Spec.namespaces_of s) o) /\
    NoDup (Spec.required_missing (Spec.namespaces_of s) o) /\
    (forall ns f,
       In (ns, f) (Spec.required_missing (Spec.namespaces_of s) o) <->
       exists items fields fd,
         In (ns, VDict items) o /\
         lookup ns (Spec.namespaces_of s) = Some (VDict fields) /\
         In (f, fd) fields /\ Spec.is_required fd = true /\
         mem f items = false) /\
    (forall ns f,
       ~ In ns (keys o) ->
       ~ In (ns, f) (Spec.required_missing (Spec.namespaces_of s) o)).
Proof.
  intros Hv Hws Hwo.
  destruct (valid_schema_namespaces s Hv) as [top [Es [Htop [_ Hok]]]].
  eexists. split.
  - rewrite Es at 1.
    apply (validate_refines top _ (VDict o) role env Htop Hok).
    right. eexists. reflexivity.
  - cbn [errors Spec.blob_items].
    split; [ apply validate_missing_required | ].
    split.
    + apply required_missing_NoDup.
      * intros ns fields. now apply wf_schema_fields.
      * now apply wf_dict_inv in Hwo.
    + split; [ intros ns f; apply required_missing_In | ].
      intros ns f Hn Hin. apply required_missing_In in Hin.
      destruct Hin as [items [_ [_ [Hin _]]]]. apply Hn.
      eapply In_keys; eauto.
Qed.

Lemma missing_required_scope_witness :
  exists r,
    OverrideValidationService.validate
      (Examples.request Examples.payments_schema
         (VDict [("payments", VDict [("currency", VStr "EUR")])])) = Ok r /\
    filter Spec.is_missing_required r.(errors) =
    [Spec.missing_required_error "payments" "tier"].
Proof.
  destruct (missing_required_scope Examples.payments_schema
              [("payments", VDict [("currency", VStr "EUR")])]
              "editor" "prod")
    as [r [Hrun [Hfilter _]]].
  - reflexivity.
  - reflexivity.
  - reflexivity.
  - exists r. split; [ exact Hrun | exact Hfilter ].
Defined.

(* ------------------------------------------------------------------ *)
(** ** OverrideValidationService: constraints *)

Lemma constraint_errors_codes (p t : string) (v : value) (c : dict value) :
  Spec.count_code ErrorDict.constraint_violation
    (Spec.constraint_errors p t v c) =
  List.length (Spec.constraint_errors p t v c) /\
  List.length (Spec.constraint_errors p t v c) =
  ((if Spec.below_min t v c then 1 else 0) +
   (if Spec.above_max t v c then 1 else 0) +
   (if Spec.not_allowed v c then 1 else 0))%nat.
Proof.
  unfold Spec.constraint_errors.
  destruct (Spec.below_min t v c), (Spec.above_max t v c),
    (Spec.not_allowed v c); split; reflexivity.
Qed.

(** C9. Constraint semantics: for a field of a schema accepted by
    SchemaValidator that has constraints, and an override value that
    matches the declared type, the constraint check emits one
    constraint_violation per violated constraint, where min and max are
    compared with the value itself for integer and float, with the length
    for list, and are ignored for the other types, and allowed_values is
    checked by membership of the value for every type; all of these
    errors are in the result of the validation, and one field can get
    more than one. *)
Theorem constraint_semantics (s : value) (o : dict value)
    (role env : string) (ns f t : string) (items d c : dict value)
    (v : value) :
  valid_schema s ->
  In (ns, VDict items) o -> In (f, v) items ->
  Spec.declares s ns f (VDict d) ->
  lookup "type" d = Some (VStr t) ->
  lookup "constraints" d = Some (VDict c) ->
  Spec.type_ok t v = true ->
  let path := (ns ++ "." ++ f)%string in
  (exists r,
     OverrideValidationService.validate
       {| schema := s; overrides := VDict o;
          acting_role := role; environment := env |} = Ok r /\
     forall e, In e (Spec.constraint_errors path t v c) -> In e r.(errors))
  /\
  OverrideValidationService._validate_constraints path (VStr t) v (VDict c) =
  Ok (Spec.constraint_errors path t v c) /\
  Spec.count_code ErrorDict.constraint_violation
    (Spec.constraint_errors path t v c) =
  ((if Spec.below_min t v c then 1 else 0) +
   (if Spec.above_max t v c then 1 else 0) +
   (if Spec.not_allowed v c then 1 else 0))%nat /\
  (t = "integer" \/ t = "float" -> Spec.comparable_of t v = Some v) /\
  (t = "list" ->
   exists l, v = VList l /\
             Spec.comparable_of t v = Some (VInt (Z.of_nat (List.length l))))
  /\
  (t <> "integer" -> t <> "float" -> t <> "list" ->
   Spec.below_min t v c = false /\ Spec.above_max t v c = false) /\
  (forall l, lookup "allowed_values" c = Some (VList l) ->
             Spec.not_allowed v c = negb (existsb (py_eq v) l)).
Proof.
  intros Hv Hns Hf Hd Ht Hc Hty path.
  destruct (validate_field_block s o role env ns f items d v Hv Hns Hf Hd)
    as [r [pre [post [Hrun [_ [Herr Hok]]]]]].
  fold path in Herr.
  destruct Hok as [[t' [Ht' Hin]] _ Hcok _].
  rewrite Ht in Ht'. inversion Ht'; subst t'. rewrite Hc in Hcok.
  split; [ | split; [ | split; [ | split; [ | split; [ | split ] ] ] ] ].
  - exists r. split; [ exact Hrun | ].
    intros e He. rewrite Herr.
    apply in_or_app. right. apply in_or_app. left.
    unfold Spec.field_errors, Spec.declared_type_of, Spec.constraints_of.
    rewrite Ht, Hty, Hc.
    apply in_or_app. right. apply in_or_app. right. apply in_or_app. now right.
  - now apply override_constraints_refines.
  - destruct (constraint_errors_codes path t v c) as [E1 E2]. congruence.
  - intros [-> | ->]; reflexivity.
  - intros ->. destruct v; try discriminate Hty. eexists. split; reflexivity.
  - intros H1 H2 H3. unfold Spec.below_min, Spec.above_max, Spec.comparable_of.
    apply String.eqb_neq in H1, H2, H3. now rewrite H1, H2, H3.
  - intros l Hl. unfold Spec.not_allowed. now rewrite Hl.
Qed.

Lemma constraint_semantics_witness :
  OverrideValidationService._validate_constraints "payments.tier"
    (VStr "integer") (VInt 2)
    (VDict [("min", VInt 3); ("allowed_values", VList [VInt 5; VInt 10])]) =
  Ok [ErrorDict.mk "payments.tier" ErrorDict.constraint_violation
        (ErrorDict.BelowMinimum "payments.tier" (VInt 2) (VInt 3));
      ErrorDict.mk "payments.tier" ErrorDict.constraint_violation
        (ErrorDict.NotInAllowedValues "payments.tier" (VInt 2)
           (VList [VInt 5; VInt 10]))].
Proof.
  apply (constraint_semantics Examples.payments_schema
           [("payments", VDict [("tier", VInt 2)])]
           "editor" "prod" "payments" "tier" "integer"
           [("tier", VInt 2)]
           [("type", VStr "integer"); ("default", VInt 5);
            ("required", VBool true);
            ("constraints",
             VDict [("min", VInt 3);
                    ("allowed_values", VList [VInt 5; VInt 10])])]
           [("min", VInt 3); ("allowed_values", VList [VInt 5; VInt 10])]
           (VInt 2)).
  - reflexivity.
  - now left.
  - now left.
  - eexists. split; reflexivity.
  - reflexivity.
  - reflexivity.
  - reflexivity.
Defined.

(* ------------------------------------------------------------------ *)
(** ** A schema without the key namespaces *)

Lemma flat_map_singleton {A B : Type} (g : A -> B) (l : list A) :
  flat_map (fun a => [g a]) l = map g l.
Proof. induction l as [ | a l IH ]; simpl; congruence. Qed.

(** C10. [OverrideValidationService.validate] does not raise on a schema
    mapping without the key namespaces: it takes the namespace map to be
    empty, so every namespace of the override blob is reported as
    unknown_namespace and an empty or None blob gives valid = true with
    no errors, whereas [ConfigResolver.resolve] raises on the same
    schema. *)
Theorem validate_total_without_namespaces (top : dict value) (o : value)
    (role env : string) :
  lookup "namespaces" top = None -> is_blob o ->
  OverrideValidationService.validate
    {| schema := VDict top; overrides := o;
       acting_role := role; environment := env |} =
  Ok {| valid := negb (nonempty (Spec.blob_items o));
        errors :=
          map (fun e => ErrorDict.mk (fst e) ErrorDict.unknown_namespace
                          (ErrorDict.NamespaceNotInSchema (fst e)))
              (Spec.blob_items o) |} /\
  (truthy o = false ->
   OverrideValidationService.validate
     {| schema := VDict top; overrides := o;
        acting_role := role; environment := env |} =
   Ok {| valid := true; errors := [] |}) /\
  (forall org user,
     ConfigResolver.resolve (VDict top) org user =
     Raise (KeyError (VStr "namespaces"))).
Proof.
  intros Hns Hb.
  assert (Hrun : OverrideValidationService.validate
    {| schema := VDict top; overrides := o;
       acting_role := role; environment := env |} =
    Ok {| valid := negb (nonempty (Spec.blob_items o));
          errors :=
            map (fun e => ErrorDict.mk (fst e) ErrorDict.unknown_namespace
                            (ErrorDict.NamespaceNotInSchema (fst e)))
                (Spec.blob_items o) |}).
  { unfold OverrideValidationService.validate. simpl. rewrite Hns. simpl.
    assert (E : py_items (if truthy o then o else VDict []) =
                Ok (Spec.blob_items o)).
    { apply blob_items_run, Hb. }
    rewrite E. simpl.
    rewrite (for_each_pure _
      (fun e => [ErrorDict.mk (fst e) ErrorDict.unknown_namespace
                   (ErrorDict.NamespaceNotInSchema (fst e))])).
    2:{ intros [ns x] _. reflexivity. }
    simpl. rewrite flat_map_singleton.
    destruct (Spec.blob_items o); reflexivity. }
  split; [ exact Hrun | ]. split.
  - intros Hfalsy. rewrite Hrun.
    destruct o as [ | | | | | | [ | e d ] ]; try reflexivity.
    discriminate.
  - intros org user. unfold ConfigResolver.resolve. simpl. now rewrite Hns.
Qed.

Lemma validate_total_without_namespaces_witness :
  OverrideValidationService.validate
    {| schema := VDict [("version", VInt 2)];
       overrides := VDict [("payments", VDict [("currency", VStr "EUR")]);
                           ("features", VInt 1)];
       acting_role := "editor"; environment := "prod" |} =
  Ok {| valid := false;
        errors :=
          [ErrorDict.mk "payments" ErrorDict.unknown_namespace
             (ErrorDict.NamespaceNotInSchema "payments");
           ErrorDict.mk "features" ErrorDict.unknown_namespace
             (ErrorDict.NamespaceNotInSchema "features")] |}.
Proof.
  apply (validate_total_without_namespaces
           [("version", VInt 2)]
           (VDict [("payments", VDict [("currency", VStr "EUR")]);
                   ("features", VInt 1)])
           "editor" "prod").
  - reflexivity.
  - right. eexists. reflexivity.
Defined.

(* ------------------------------------------------------------------ *)
(** ** SchemaValidator.validate: outcomes *)

(** The two fatal early exits: one error on the field namespaces. *)
Lemma schema_validate_fatal_exits (v : value) :
  (match v with
   | VDict top => lookup "namespaces" top = None
   | _ => True
   end ->
   SchemaValidator.validate v =
   Raise (SchemaValidationError
            [SchemaError.mk "namespaces" SchemaError.NamespacesRequired])) /\
  (forall top nsv,
     v = VDict top -> lookup "namespaces" top = Some nsv ->
     match nsv with
     | VDict (_ :: _) => False
     | _ => True
     end ->
     SchemaValidator.validate v =
     Raise (SchemaValidationError
              [SchemaError.mk "namespaces"
                 SchemaError.NamespacesNonEmptyDict])).
Proof.
  split.
  - destruct v as [ | | | | | | top ]; try reflexivity.
    intros H. unfold SchemaValidator.validate, mem. now rewrite H.
  - intros top nsv -> Hl Hbad.
    unfold SchemaValidator.validate, mem. simpl. rewrite Hl. simpl.
    destruct nsv as [ | | | | | | [ | e nss ] ]; try reflexivity.
    contradiction.
Qed.

Lemma schema_default_total (p t : string) (dv : value) :
  In t _VALID_TYPES ->
  exists es, SchemaValidator._validate_default p (VStr t) dv = Ok es.
Proof.
  intros H. apply valid_type_cases in H.
  destruct H as [-> | [-> | [-> | [-> | [-> | ->]]]]];
    destruct dv; eexists; reflexivity.
Qed.

Lemma schema_constraints_total (p : string) (c : value) :
  exists es, SchemaValidator._validate_constraints p c = Ok es.
Proof.
  destruct c as [ | | | | | | cd ]; try (eexists; reflexivity).
  unfold SchemaValidator._validate_constraints.
  simpl py_get. simpl py_in. simpl py_getitem. unfold mem.
  destruct (lookup "min" cd) as [ [ | | | | | | ] | ];
  destruct (lookup "max" cd) as [ [ | | | | | | ] | ];
  destruct (lookup "allowed_values" cd) as [ [ | | | | | [ | ? ? ] | ] | ];
  eexists; reflexivity.
Qed.

Lemma schema_policy_total (p : string) (c : value) :
  exists es, SchemaValidator._validate_policy p c = Ok es.
Proof.
  destruct c as [ | | | | | | pd ]; try (eexists; reflexivity).
  unfold SchemaValidator._validate_policy.
  simpl for_each. simpl py_in. simpl py_getitem. unfold mem.
  destruct (lookup "editable_by_roles" pd) as [ [ | | | | | [ | ? ? ] | ] | ];
  destruct (lookup "environment_restrictions" pd)
    as [ [ | | | | | [ | ? ? ] | ] | ];
  simpl;
  repeat match goal with
         | |- context [if ?b then _ else _] => destruct b
         end;
  eexists; reflexivity.
Qed.

Lemma schema_field_total (p : string) (d : dict value) :
  (forall x, lookup "type" d = Some x -> hashable x = true) ->
  exists es, SchemaValidator._validate_field p (VDict d) = Ok es.
Proof.
  intros Hh. unfold SchemaValidator._validate_field.
  simpl py_get. simpl py_in. simpl py_getitem. unfold mem.
  destruct (schema_constraints_total p
              (Spec.opt_value (lookup "constraints" d))) as [ec Hc].
  destruct (schema_policy_total p
              (Spec.opt_value (lookup "policy" d))) as [ep Hp].
  assert (Htail : forall (e1 e2 : list SchemaError.t),
    exists es,
      (has_constraints <-
         Ok match lookup "constraints" d with
            | Some _ => true | None => false end ;;
       e_constraints <-
         (if has_constraints then
            constraints <-
              match lookup "constraints" d with
              | Some x => Ok x
              | None => Raise (KeyError (VStr "constraints"))
              end ;;
            SchemaValidator._validate_constraints p constraints
          else Ok []) ;;
       has_policy <-
         Ok match lookup "policy" d with
            | Some _ => true | None => false end ;;
       e_policy <-
         (if has_policy then
            policy <-
              match lookup "policy" d with
              | Some x => Ok x
              | None => Raise (KeyError (VStr "policy"))
              end ;;
            SchemaValidator._validate_policy p policy
          else Ok []) ;;
       Ok (e1 ++ e2 ++ e_constraints ++ e_policy)) = Ok es).
  { intros e1 e2.
    destruct (lookup "constraints" d) as [c | ];
    destruct (lookup "policy" d) as [pl | ];
    simpl in Hc, Hp |- *; rewrite ?Hc, ?Hp; simpl; eexists; reflexivity. }
  destruct (lookup "type" d) as [dt | ] eqn:Et.
  - specialize (Hh dt eq_refl). rewrite bind_Ok.
    destruct (is_none dt) eqn:En.
    + rewrite bind_Ok. cbv iota beta.
      destruct (lookup "default" d); simpl negb; cbv iota; apply Htail.
    + unfold in_frozenset. rewrite Hh. rewrite bind_Ok.
      destruct (negb _) eqn:Ek; rewrite bind_Ok; cbv iota beta.
      * destruct (lookup "default" d); simpl negb; cbv iota; apply Htail.
      * destruct dt; try discriminate Ek.
        apply negb_false_iff in Ek. apply existsb_exists in Ek.
        destruct Ek as [t [Hin Heq]]. apply String.eqb_eq in Heq. subst t.
        destruct (lookup "default" d) as [dv | ]; simpl negb; cbv iota.
        -- rewrite !bind_Ok.
           destruct (schema_default_total p s dv Hin) as [ed ->].
           apply Htail.
        -- apply Htail.
  - rewrite !bind_Ok. cbv iota beta.
    destruct (lookup "default" d); simpl negb; cbv iota; apply Htail.
Qed.

Lemma for_each_total {A E : Type} (f : A -> res (list E)) (l : list A) :
  (forall a, In a l -> exists es, f a = Ok es) ->
  exists es, for_each f l = Ok es.
Proof.
  induction l as [ | a l IH ]; simpl; intros H; [ eauto | ].
  destruct (H a) as [es ->]; auto.
  destruct IH as [es' ->]; auto.
  simpl. eauto.
Qed.

(** When every type given by a field definition is hashable, the
    validator either accepts the document or raises the aggregate error
    with the accumulated list. *)
Lemma schema_validate_outcomes (v : value) :
  hashable_types v ->
  SchemaValidator.validate v = Ok tt \/
  exists errs,
    errs <> [] /\
    SchemaValidator.validate v = Raise (SchemaValidationError errs).
Proof.
  intros Hh.
  destruct v as [ | | | | | | top ];
    try (right; eexists; split; [ | reflexivity ]; discriminate).
  unfold SchemaValidator.validate, mem. simpl py_getitem.
  destruct (lookup "namespaces" top) as [nsv | ] eqn:E; simpl;
    [ | right; eexists; split; [ | reflexivity ]; discriminate ].
  destruct nsv as [ | | | | | | [ | e nss ] ];
    try (right; eexists; split; [ | reflexivity ]; discriminate).
  destruct (for_each_total SchemaValidator.validate_namespace_entry
              (e :: nss)) as [errs Hrun].
  { intros [ns x] Hin. unfold SchemaValidator.validate_namespace_entry.
    destruct x as [ | | | | | | fields ]; try (eexists; reflexivity).
    apply for_each_total. intros [f fd] Hf.
    unfold SchemaValidator.validate_field_entry.
    destruct fd as [ | | | | | | d ]; try (eexists; reflexivity).
    apply schema_field_total. intros x Hx.
    eapply (Hh top (e :: nss) ns fields f d x); eauto. }
  rewrite Hrun. simpl.
  destruct errs as [ | e0 errs ]; simpl; [ now left | ].
  right. eexists. split; [ | reflexivity ]. discriminate.
Qed.

(** C7. [SchemaValidator.validate] on a document that passes the two
    top-level checks and whose field gives a list for the key type: the
    membership test of the declared type in the set of valid types raises
    TypeError, so the validator throws a plain exception and the errors
    accumulated for the preceding field are not reported. *)
Theorem schema_validate_unhashable_type :
  SchemaValidator.validate_field_entry "namespaces.ns" ("field_x", VDict []) =
  Ok [SchemaError.mk "namespaces.ns.field_x" SchemaError.TypeRequired;
      SchemaError.mk "namespaces.ns.field_x" SchemaError.DefaultRequired] /\
  SchemaValidator.validate Examples.list_typed_schema = Raise TypeError.
Proof. split; reflexivity. Qed.

(** Outside the missing-key case the override validator is not total: a
    schema whose namespace value is not a mapping makes the field lookup
    raise. *)
Lemma validate_raises_on_malformed_namespace :
  OverrideValidationService.validate
    (Examples.request
       (VDict [("namespaces", VDict [("payments", VInt 5)])])
       (VDict [("payments", VDict [("currency", VStr "EUR")])])) =
  Raise TypeError.
Proof. reflexivity. Qed.

(** An override layer that is neither a mapping nor falsy is outside the
    declared argument type [dict | None]: both services call [items] on
    it. *)
Lemma non_mapping_layer_raises :
  ConfigResolver.resolve Examples.payments_schema (VList [VInt 1]) VNone =
  Raise AttributeError /\
  OverrideValidationService.validate
    (Examples.request Examples.payments_schema (VList [VInt 1])) =
  Raise AttributeError.
Proof. split; reflexivity. Qed.

(* ================================================================== *)
(** * Further properties of the three services *)

(* ------------------------------------------------------------------ *)
(** ** SchemaValidator: exactly what is accepted *)

Lemma nonempty_filter_false {A : Type} (p : A -> bool) (l : list A) :
  nonempty (filter p l) = false <-> forall a, In a l -> p a = false.
Proof.
  induction l as [ | a l IH ]; simpl.
  - split; [ tauto | reflexivity ].
  - destruct (p a) eqn:E; simpl.
    + split; [ discriminate | ]. intros H.
      rewrite (H a) in E by now left. discriminate.
    + rewrite IH. split.
      * intros H x [<- | Hx]; auto.
      * intros H x Hx. apply H. now right.
Qed.

Lemma keys_within_filter (allowed : list string) (d : dict value) :
  nonempty (filter (fun k => negb (existsb (String.eqb k) allowed)) (keys d))
  = false <-> keys_within allowed d.
Proof.
  rewrite nonempty_filter_false. unfold keys_within.
  split; intros H k Hk.
  - specialize (H k Hk). apply negb_false_iff in H.
    apply existsb_exists in H. destruct H as [k' [Hin Heq]].
    apply String.eqb_eq in Heq. now subst.
  - apply negb_false_iff. apply existsb_exists. exists k.
    split; [ auto | apply String.eqb_refl ].
Qed.

Lemma schema_constraints_accepts (p : string) (c : value) :
  SchemaValidator._validate_constraints p c = Ok [] <->
  exists cd, c = VDict cd /\ constraints_valid cd.
Proof.
  destruct c as [ | | | | | | cd ];
    try (split; [ discriminate | intros [cd [H _]]; discriminate ]).
  assert (Hiff : SchemaValidator._validate_constraints p (VDict cd) = Ok [] <->
                 constraints_valid cd).
  { unfold SchemaValidator._validate_constraints.
    simpl py_get. simpl py_in. simpl py_getitem. unfold mem.
    pose proof (keys_within_filter _VALID_CONSTRAINT_KEYS cd) as Hk.
    destruct (nonempty _) eqn:K.
    { split.
      - intros H.
        destruct (lookup "min" cd) as [ [ | | | | | | ] | ];
        destruct (lookup "max" cd) as [ [ | | | | | | ] | ];
        destruct (lookup "allowed_values" cd)
          as [ [ | | | | | [ | ? ? ] | ] | ];
        simpl in H;
        repeat match type of H with
               | context [if ?b then _ else _] => destruct b; simpl in H
               end; discriminate.
      - intros [Hkeys _ _]. apply Hk in Hkeys. discriminate. }
    assert (Hkeys : keys_within _VALID_CONSTRAINT_KEYS cd)
      by now apply Hk.
    clear Hk K.
    destruct (lookup "min" cd) as [ [ | | n | q | | | ] | ] eqn:Emin;
    destruct (lookup "max" cd) as [ [ | | n' | q' | | | ] | ] eqn:Emax;
    destruct (lookup "allowed_values" cd)
      as [ [ | | | | | [ | ? ? ] | ] | ] eqn:Eav;
    cbn;
    (split;
     [ intros H;
       repeat match type of H with
              | context [if ?b then _ else _] =>
                  destruct b eqn:?; simpl in H
              end;
       first
         [ discriminate H
         | constructor;
           [ exact Hkeys
           | constructor; rewrite ?Emin, ?Emax, ?Eav; exact I || reflexivity
           | unfold bounds_ordered; rewrite ?Emin, ?Emax;
             try exact I; assumption ] ]
     | intros [_ [Hmn Hmx Hal] Hord];
       rewrite Emin in Hmn; rewrite Emax in Hmx; rewrite Eav in Hal;
       unfold bounds_ordered in Hord; rewrite ?Emin, ?Emax in Hord;
       simpl in Hmn, Hmx, Hal;
       try discriminate Hmn; try discriminate Hmx; try contradiction;
       try (unfold Spec.num_lt in Hord; simpl in Hord; rewrite Hord);
       reflexivity ]). }
  rewrite Hiff. split.
  - intros H. eauto.
  - intros [cd' [Heq H]]. now inversion Heq.
Qed.

Lemma non_strings_empty (l : list value) :
  nonempty (filter (fun item => negb (isinstance item [str_t])) l) = false <->
  forallb is_str l = true.
Proof.
  rewrite nonempty_filter_false, forallb_forall.
  split; intros H x Hx; specialize (H x Hx); destruct x;
    try discriminate; reflexivity.
Qed.

Lemma schema_policy_accepts (p : string) (c : value) :
  SchemaValidator._validate_policy p c = Ok [] <->
  exists pd, c = VDict pd /\ policy_valid pd.
Proof.
  destruct c as [ | | | | | | pd ];
    try (split; [ discriminate | intros [pd [H _]]; discriminate ]).
  assert (Hiff : SchemaValidator._validate_policy p (VDict pd) = Ok [] <->
                 policy_valid pd).
  { unfold SchemaValidator._validate_policy.
    simpl for_each. simpl py_in. simpl py_getitem. unfold mem.
    pose proof (keys_within_filter _VALID_POLICY_KEYS pd) as Hk.
    destruct (nonempty _) eqn:K.
    { split.
      - intros H.
        destruct (lookup "editable_by_roles" pd)
          as [ [ | | | | | [ | ? ? ] | ] | ];
        destruct (lookup "environment_restrictions" pd)
          as [ [ | | | | | [ | ? ? ] | ] | ];
        simpl in H;
        repeat match type of H with
               | context [if ?b then _ else _] => destruct b; simpl in H
               end; discriminate.
      - intros [Hkeys _ _]. apply Hk in Hkeys. discriminate. }
    assert (Hkeys : keys_within _VALID_POLICY_KEYS pd) by now apply Hk.
    clear Hk K.
    destruct (lookup "editable_by_roles" pd)
      as [ [ | | | | | [ | r rs ] | ] | ] eqn:Er;
    destruct (lookup "environment_restrictions" pd)
      as [ [ | | | | | [ | e es ] | ] | ] eqn:Ee;
    cbn [bind app];
    try (split;
         [ intros H; simpl in H;
           repeat match type of H with
                  | context [if ?b then _ else _] => destruct b; simpl in H
                  end; discriminate H
         | intros [_ Hr He]; rewrite Er in Hr; rewrite Ee in He;
           contradiction ]).
    - pose proof (non_strings_empty (r :: rs)) as Nr.
      pose proof (non_strings_empty (e :: es)) as Ne.
      destruct (nonempty (filter _ (r :: rs))) eqn:Kr;
      destruct (nonempty (filter _ (e :: es))) eqn:Ke;
      cbn [bind app];
      (split;
       [ intros H; first
           [ discriminate H
           | constructor; [ exact Hkeys | rewrite Er | rewrite Ee ];
             [ now apply Nr | now apply Ne ] ]
       | intros [_ Hr He]; rewrite Er in Hr; rewrite Ee in He;
         first [ reflexivity
               | apply Nr in Hr; discriminate Hr
               | apply Ne in He; discriminate He ] ]).
    - pose proof (non_strings_empty (r :: rs)) as Nr.
      destruct (nonempty (filter _ (r :: rs))) eqn:Kr;
      cbn [bind app];
      (split;
       [ intros H; first
           [ discriminate H
           | constructor; [ exact Hkeys | rewrite Er | rewrite Ee ];
             [ now apply Nr | exact I ] ]
       | intros [_ Hr He]; rewrite Er in Hr;
         first [ reflexivity | apply Nr in Hr; discriminate Hr ] ]).
    - pose proof (non_strings_empty (e :: es)) as Ne.
      destruct (nonempty (filter _ (e :: es))) eqn:Ke;
      cbn [bind app];
      (split;
       [ intros H; first
           [ discriminate H
           | constructor; [ exact Hkeys | rewrite Er | rewrite Ee ];
             [ exact I | now apply Ne ] ]
       | intros [_ Hr He]; rewrite Ee in He;
         first [ reflexivity | apply Ne in He; discriminate He ] ]).
    - split; [ intros _ | reflexivity ].
      constructor; [ exact Hkeys | rewrite Er | rewrite Ee ]; exact I. }
  rewrite Hiff. split.
  - intros H. eauto.
  - intros [pd' [Heq H]]. now inversion Heq.
Qed.

Lemma schema_default_accepts (p t : string) (dv : value) :
  In t _VALID_TYPES ->
  (SchemaValidator._validate_default p (VStr t) dv = Ok [] <->
   Spec.type_ok t dv = true).
Proof.
  intros H. apply valid_type_cases in H.
  destruct H as [-> | [-> | [-> | [-> | [-> | ->]]]]];
    destruct dv; cbn; split; intros H; try discriminate H; reflexivity.
Qed.

Lemma in_frozenset_str (t : string) (s : list string) :
  in_frozenset (VStr t) s = Ok (existsb (String.eqb t) s).
Proof. reflexivity. Qed.

Lemma existsb_eqb_In (t : string) (s : list string) :
  existsb (String.eqb t) s = true <-> In t s.
Proof.
  rewrite existsb_exists. split.
  - intros [x [Hin Heq]]. apply String.eqb_eq in Heq. now subst.
  - intros H. exists t. split; [ auto | apply String.eqb_refl ].
Qed.
(** Run the steps of a monadic body whose outcome is known. *)
Ltac run_ok :=
  repeat first [ rewrite bind_Ok
               | progress (cbn [negb])
               | progress (cbv iota beta) ].

Ltac run_ok_in H :=
  repeat first [ rewrite bind_Ok in H
               | progress (cbn [negb] in H)
               | progress (cbv iota beta in H) ].

Lemma schema_field_accepts (p : string) (d : dict value) :
  SchemaValidator._validate_field p (VDict d) = Ok [] <-> field_valid d.
Proof.
  split.
  - intros H. pose proof (schema_field_inv p d H) as [[t [Ht Hin]] [dv Hdv] _ _].
    unfold SchemaValidator._validate_field in H.
    simpl py_get in H. simpl py_in in H. simpl py_getitem in H.
    unfold mem in H. rewrite Ht, Hdv in H.
    rewrite bind_Ok in H. cbn [is_none] in H. cbv iota in H.
    rewrite in_frozenset_str in H.
    rewrite (proj2 (existsb_eqb_In t _VALID_TYPES) Hin) in H.
    run_ok_in H.
    apply bind_Ok_inv in H. destruct H as [ed [Hd H]].
    apply bind_Ok_inv in H. destruct H as [hc [Hhc H]].
    apply bind_Ok_inv in H. destruct H as [ec [Hc H]].
    apply bind_Ok_inv in H. destruct H as [hp [Hhp H]].
    apply bind_Ok_inv in H. destruct H as [ep [Hp H]].
    injection H as H. simpl in H.
    apply app_nil_inv in H. destruct H as [-> H].
    apply app_nil_inv in H. destruct H as [-> ->].
    constructor.
    + exists t, dv. repeat split; auto.
      now apply (schema_default_accepts p t dv Hin).
    + destruct (lookup "constraints" d) as [c | ]; [ | exact I ].
      injection Hhc as <-. rewrite bind_Ok in Hc.
      apply schema_constraints_accepts in Hc.
      destruct Hc as [cd [-> Hcd]]. exact Hcd.
    + destruct (lookup "policy" d) as [c | ]; [ | exact I ].
      injection Hhp as <-. rewrite bind_Ok in Hp.
      apply schema_policy_accepts in Hp.
      destruct Hp as [pd [-> Hpd]]. exact Hpd.
  - intros [[t [dv [Ht [Hin [Hdv Hty]]]]] Hc Hp].
    unfold SchemaValidator._validate_field.
    simpl py_get. simpl py_in. simpl py_getitem. unfold mem.
    rewrite Ht, Hdv.
    rewrite bind_Ok. cbn [is_none]. cbv iota.
    rewrite in_frozenset_str.
    rewrite (proj2 (existsb_eqb_In t _VALID_TYPES) Hin).
    run_ok.
    rewrite (proj2 (schema_default_accepts p t dv Hin) Hty), bind_Ok.
    assert (Ec :
      (has_constraints <-
         Ok match lookup "constraints" d with
            | Some _ => true | None => false end ;;
       e_constraints <-
         (if has_constraints then
            constraints <-
              match lookup "constraints" d with
              | Some x => Ok x
              | None => Raise (KeyError (VStr "constraints"))
              end ;;
            SchemaValidator._validate_constraints p constraints
          else Ok []) ;;
       Ok e_constraints) = Ok []).
    { destruct (lookup "constraints" d) as [ [ | | | | | | c ] | ];
        try contradiction; [ | reflexivity ].
      rewrite !bind_Ok. cbv iota.
      rewrite (proj2 (schema_constraints_accepts p (VDict c)))
        by (exists c; auto).
      reflexivity. }
    assert (Ep :
      (has_policy <-
         Ok match lookup "policy" d with
            | Some _ => true | None => false end ;;
       e_policy <-
         (if has_policy then
            policy <-
              match lookup "policy" d with
              | Some x => Ok x
              | None => Raise (KeyError (VStr "policy"))
              end ;;
            SchemaValidator._validate_policy p policy
          else Ok []) ;;
       Ok e_policy) = Ok []).
    { destruct (lookup "policy" d) as [ [ | | | | | | c ] | ];
        try contradiction; [ | reflexivity ].
      rewrite !bind_Ok. cbv iota.
      rewrite (proj2 (schema_policy_accepts p (VDict c)))
        by (exists c; auto).
      reflexivity. }
    apply bind_Ok_inv in Ec. destruct Ec as [hc [-> Ec]].
    apply bind_Ok_inv in Ec. destruct Ec as [ec [Ec1 Ec]].
    injection Ec as ->.
    apply bind_Ok_inv in Ep. destruct Ep as [hp [-> Ep]].
    apply bind_Ok_inv in Ep. destruct Ep as [ep [Ep1 Ep]].
    injection Ep as ->.
    rewrite bind_Ok, Ec1, bind_Ok, bind_Ok, Ep1, bind_Ok. reflexivity.
Qed.

Lemma flat_map_nil {A B : Type} (l : list A) :
  flat_map (fun _ : A => @nil B) l = [].
Proof. induction l; simpl; auto. Qed.

Lemma accepted_schema_valid (s : value) :
  SchemaValidator.validate s = Ok tt -> schema_valid s.
Proof.
  intros H. destruct (valid_schema_inv s H) as [top [nss [-> [Hns [Hne _]]]]].
  exists top, nss. repeat split; auto.
  unfold SchemaValidator.validate, mem in H. simpl py_getitem in H.
  rewrite Hns in H. cbn [negb] in H. cbv iota in H. rewrite bind_Ok in H.
  destruct nss as [ | e nss ]; [ congruence | ].
  apply bind_Ok_inv in H. destruct H as [errs [Hrun H]].
  destruct errs; [ | discriminate ].
  intros ns v Hin.
  pose proof (for_each_nil_inv _ _ Hrun _ Hin) as Hv.
  unfold SchemaValidator.validate_namespace_entry in Hv.
  destruct v as [ | | | | | | fields ]; try discriminate.
  exists fields. split; [ reflexivity | ].
  intros f fd Hf.
  pose proof (for_each_nil_inv _ _ Hv _ Hf) as Hfd.
  unfold SchemaValidator.validate_field_entry in Hfd.
  destruct fd as [ | | | | | | d ]; try discriminate.
  exists d. split; [ reflexivity | ].
  eapply schema_field_accepts; eauto.
Qed.

Lemma schema_valid_accepted (s : value) :
  schema_valid s -> SchemaValidator.validate s = Ok tt.
Proof.
  intros [top [nss [-> [Hns [Hne Hall]]]]].
  unfold SchemaValidator.validate, mem. simpl py_getitem.
  rewrite Hns. cbn [negb]. cbv iota. rewrite bind_Ok.
  destruct nss as [ | e nss ]; [ congruence | ].
  rewrite (for_each_pure _ (fun _ => [])).
  + now rewrite flat_map_nil.
  + intros [ns v] Hin. destruct (Hall ns v Hin) as [fields [-> Hf]].
    unfold SchemaValidator.validate_namespace_entry.
    rewrite (for_each_pure _ (fun _ => [])).
    * now rewrite flat_map_nil.
    * intros [f fd] Hfin. destruct (Hf f fd Hfin) as [d [-> Hd]].
      unfold SchemaValidator.validate_field_entry.
      now apply schema_field_accepts.
Qed.

(** X1. [SchemaValidator.validate] returns normally exactly on the
    documents that are a mapping whose key namespaces holds a non-empty
    mapping of namespaces, each a mapping of field definitions, each a
    mapping with a valid type, a default of that type, and, when given, a
    constraints block (known keys, numeric bounds with min not above max,
    non-empty allowed_values list) and a policy block (known keys,
    non-empty lists of strings). *)
Theorem schema_validator_accepts_iff (s : value) :
  SchemaValidator.validate s = Ok tt <-> schema_valid s.
Proof.
  split; [ apply accepted_schema_valid | apply schema_valid_accepted ].
Qed.

Lemma schema_validator_accepts_iff_witness :
  schema_valid Examples.payments_schema.
Proof.
  apply (proj1 (schema_validator_accepts_iff Examples.payments_schema)).
  reflexivity.
Defined.

(* ------------------------------------------------------------------ *)
(** ** The type rules of the two validators *)

(** X2. The type check of an override value decides by this table for
    every declared type that is a string (a string that names no type
    matches nothing); a declared type that is hashable and not a string
    matches nothing, and one that is a list or a dict makes the lookup in
    the table of checkers raise TypeError. *)
Theorem type_matches_table :
  (forall t v, _type_matches (VStr t) v = Ok (Spec.type_ok t v)) /\
  (forall x v, hashable x = true -> is_str x = false ->
               _type_matches x v = Ok false) /\
  (forall x v, hashable x = false -> _type_matches x v = Raise TypeError).
Proof.
  split; [ | split ].
  - intros t v. unfold _type_matches, Spec.type_ok, table_get.
    cbn [py_eq hashable lookup _TYPE_CHECKERS bind].
    destruct (String.eqb t "integer") eqn:E1; [ destruct v; reflexivity | ].
    destruct (String.eqb t "float") eqn:E2; [ destruct v; reflexivity | ].
    destruct (String.eqb t "string") eqn:E3; [ destruct v; reflexivity | ].
    destruct (String.eqb t "boolean") eqn:E4; [ destruct v; reflexivity | ].
    destruct (String.eqb t "list") eqn:E5; [ destruct v; reflexivity | ].
    destruct (String.eqb t "dict") eqn:E6; [ destruct v; reflexivity | ].
    reflexivity.
  - intros x v Hh Hs. destruct x; try discriminate; reflexivity.
  - intros x v Hh. destruct x; try discriminate; reflexivity.
Qed.

(** X3. The two files keep their type rules in sync: for every valid type
    name, SchemaValidator accepts a default exactly when the override
    validator's type check accepts the same value. *)
Theorem type_rules_agree (p t : string) (v : value) :
  In t _VALID_TYPES ->
  (SchemaValidator._validate_default p (VStr t) v = Ok [] <->
   _type_matches (VStr t) v = Ok true).
Proof.
  intros H. rewrite (schema_default_accepts p t v H).
  rewrite (type_matches_refines t v H).
  split; [ intros -> | intros E; inversion E ]; reflexivity.
Qed.

Lemma type_rules_agree_witness :
  SchemaValidator._validate_default "namespaces.ns.f" (VStr "float") (VInt 3)
  = Ok [] <->
  _type_matches (VStr "float") (VInt 3) = Ok true.
Proof.
  apply (type_rules_agree "namespaces.ns.f" "float" (VInt 3)).
  simpl. tauto.
Defined.

(* ------------------------------------------------------------------ *)
(** ** OverrideValidationService: the decision *)

Lemma forallb_pointwise {A : Type} (p q : A -> bool) (l : list A) :
  (forall a, p a = q a) -> forallb p l = forallb q l.
Proof.
  intros H. induction l as [ | a l IH ]; simpl; [ reflexivity | ].
  now rewrite H, IH.
Qed.

Lemma no_errors_app {A : Type} (l1 l2 : list A) :
  no_errors (l1 ++ l2) = no_errors l1 && no_errors l2.
Proof. destruct l1; reflexivity. Qed.

Lemma no_errors_flat_map {A B : Type} (g : A -> list B) (l : list A) :
  no_errors (flat_map g l) = forallb (fun a => no_errors (g a)) l.
Proof.
  induction l as [ | a l IH ]; simpl; [ reflexivity | ].
  now rewrite no_errors_app, IH.
Qed.

Lemma no_errors_map_filter {A B : Type} (g : A -> B) (p : A -> bool)
    (l : list A) :
  no_errors (map g (filter p l)) = forallb (fun a => negb (p a)) l.
Proof.
  induction l as [ | a l IH ]; simpl; [ reflexivity | ].
  destruct (p a); simpl; auto.
Qed.

Lemma field_errors_decision (p : string) (d : dict value) (v : value)
    (role env : string) :
  no_errors (Spec.field_errors p d v role env) = field_accepts d v role env.
Proof.
  unfold Spec.field_errors, field_accepts, Spec.immutable_errors,
    Spec.role_errors, Spec.env_errors, Spec.type_errors,
    Spec.constraint_errors, is_editable, role_allowed, env_allowed.
  rewrite !no_errors_app.
  destruct (lookup "editable" d) as [ [ | [ | ] | | | | | ] | ];
  destruct (lookup "editable_by_roles" (Spec.policy_of d))
    as [ [ | | | | | roles | ] | ];
  destruct (lookup "environment_restrictions" (Spec.policy_of d))
    as [ [ | | | | | envs | ] | ];
  repeat match goal with
         | |- context [existsb ?f ?l] => destruct (existsb f l)
         end;
  destruct (Spec.type_ok (Spec.declared_type_of d) v);
  try reflexivity;
  rewrite ?no_errors_app;
  destruct (Spec.below_min _ _ _), (Spec.above_max _ _ _),
    (Spec.not_allowed _ _); reflexivity.
Qed.

Lemma namespace_errors_decision (nss : dict value) (role env : string)
    (entry : string * value) :
  no_errors (Spec.namespace_errors nss role env entry) =
  namespace_accepted nss role env entry.
Proof.
  unfold Spec.namespace_errors, namespace_accepted.
  destruct (lookup (fst entry) nss) as [ [ | | | | | | fields ] | ];
    try reflexivity.
  destruct (snd entry) as [ | | | | | | items ]; try reflexivity.
  rewrite !no_errors_app, !no_errors_flat_map, no_errors_map_filter.
  rewrite andb_assoc. f_equal; [ f_equal | ].
  - apply forallb_pointwise. intros k. unfold Spec.unknown_field_errors.
    destruct (mem k fields); reflexivity.
  - apply forallb_pointwise. intros e. unfold Spec.present_field_errors.
    destruct (lookup (fst e) fields) as [ [ | | | | | | d ] | ];
      try reflexivity.
    apply field_errors_decision.
Qed.

(** X4. On a schema accepted by SchemaValidator the override validator
    never raises, for every override blob (a mapping of any content, or a
    falsy value), role and environment; its flag valid is true exactly
    when every namespace of the blob is in the schema with a mapping as
    override, every overridden field is known, every required field of an
    overridden namespace is given, and every override value passes the
    editable, role, environment, type and constraint rules of its
    field. *)
Theorem validate_decision (s o : value) (role env : string) :
  valid_schema s -> is_blob o ->
  exists r,
    OverrideValidationService.validate
      {| schema := s; overrides := o;
         acting_role := role; environment := env |} = Ok r /\
    r.(valid) =
    blob_accepted (Spec.namespaces_of s) role env (Spec.blob_items o) /\
    (r.(valid) = true <-> r.(errors) = []).
Proof.
  intros Hv Hb.
  destruct (valid_schema_namespaces s Hv) as [top [-> [Htop [_ Hok]]]].
  eexists. split.
  - apply (validate_refines top _ o role env Htop Hok Hb).
  - cbn [valid errors]. split.
    + fold (no_errors (flat_map
        (Spec.namespace_errors (Spec.namespaces_of (VDict top)) role env)
        (Spec.blob_items o))).
      rewrite no_errors_flat_map. unfold blob_accepted.
      apply forallb_pointwise. intros e. apply namespace_errors_decision.
    + destruct (flat_map _ (Spec.blob_items o)); simpl;
        split; intros H; try discriminate; reflexivity.
Qed.

Lemma validate_decision_witness :
  exists r,
    OverrideValidationService.validate
      (Examples.request Examples.payments_schema
         (VDict [("payments", VDict [("tier", VInt 10);
                                     ("currency", VStr "EUR")])])) = Ok r /\
    r.(valid) = true.
Proof.
  destruct (validate_decision Examples.payments_schema
              (VDict [("payments", VDict [("tier", VInt 10);
                                          ("currency", VStr "EUR")])])
              "editor" "prod")
    as [r [Hrun [Hvalid _]]].
  - reflexivity.
  - right. eexists. reflexivity.
  - exists r. split; [ exact Hrun | ]. rewrite Hvalid. reflexivity.
Defined.

Lemma for_each_app {A E : Type} (f : A -> res (list E)) (l1 l2 : list A) :
  for_each f (l1 ++ l2) =
  (es1 <- for_each f l1 ;; es2 <- for_each f l2 ;; Ok (es1 ++ es2)).
Proof.
  induction l1 as [ | a l1 IH ]; simpl.
  - destruct (for_each f l2); reflexivity.
  - destruct (f a) as [ea | e]; simpl; [ | reflexivity ].
    rewrite IH. destruct (for_each f l1) as [e1 | e]; simpl; [ | reflexivity ].
    destruct (for_each f l2) as [e2 | e]; simpl; [ | reflexivity ].
    now rewrite app_assoc.
Qed.

Lemma blob_items_of_dict (o : dict value) :
  py_items (if truthy (VDict o) then VDict o else VDict []) = Ok o.
Proof. destruct o; reflexivity. Qed.

(** X5. The namespaces of a blob are validated independently of each
    other: when the two parts of a blob are validated without raising,
    the whole blob is, its errors are the errors of the first part
    followed by those of the second, and it is valid exactly when both
    parts are. *)
Theorem validate_compositional (s : value) (o1 o2 : dict value)
    (role env : string) (r1 r2 : OverrideValidationResult) :
  OverrideValidationService.validate
    {| schema := s; overrides := VDict o1;
       acting_role := role; environment := env |} = Ok r1 ->
  OverrideValidationService.validate
    {| schema := s; overrides := VDict o2;
       acting_role := role; environment := env |} = Ok r2 ->
  OverrideValidationService.validate
    {| schema := s; overrides := VDict (o1 ++ o2);
       acting_role := role; environment := env |} =
  Ok {| valid := r1.(valid) && r2.(valid);
        errors := r1.(errors) ++ r2.(errors) |}.
Proof.
  unfold OverrideValidationService.validate.
  cbn [schema overrides acting_role environment].
  rewrite !blob_items_of_dict.
  destruct (py_get s "namespaces" (VDict [])) as [nssv | e]; simpl;
    [ | discriminate ].
  rewrite for_each_app.
  destruct (for_each _ o1) as [e1 | e]; simpl; [ | discriminate ].
  destruct (for_each _ o2) as [e2 | e]; simpl; [ | discriminate ].
  intros H1 H2. inversion H1; inversion H2; subst. simpl.
  f_equal. f_equal. rewrite length_app.
  destruct e1; destruct e2; reflexivity.
Qed.

Lemma validate_compositional_witness :
  exists r,
    OverrideValidationService.validate
      (Examples.request Examples.payments_schema
         (VDict ([("payments", VDict [("tier", VInt 10)])] ++
                 [("gone", VInt 1)]))) = Ok r /\
    List.length r.(errors) = 1%nat.
Proof.
  eexists. split.
  - apply (validate_compositional Examples.payments_schema
             [("payments", VDict [("tier", VInt 10)])] [("gone", VInt 1)]
             "editor" "prod"); reflexivity.
  - reflexivity.
Defined.

(** X6. A namespace of the schema that is overridden by something that is
    not a mapping gets exactly one unknown_namespace error saying that the
    override must be a mapping; its fields are not looked at, so required
    fields of that namespace are not reported. *)
Theorem non_mapping_namespace_override (top nss : dict value) (ns : string)
    (nsv : value) (role env : string) :
  lookup "namespaces" top = Some (VDict nss) ->
  mem ns nss = true ->
  (forall d, nsv <> VDict d) ->
  OverrideValidationService.validate
    {| schema := VDict top; overrides := VDict [(ns, nsv)];
       acting_role := role; environment := env |} =
  Ok {| valid := false;
        errors := [ErrorDict.mk ns ErrorDict.unknown_namespace
                     (ErrorDict.NamespaceOverrideMustBeDict ns)] |}.
Proof.
  intros Hns Hmem Hnd.
  unfold OverrideValidationService.validate. simpl. rewrite Hns. simpl.
  rewrite Hmem. simpl.
  destruct nsv as [ | | | | | | d ]; try reflexivity.
  exfalso. now apply (Hnd d).
Qed.

Lemma non_mapping_namespace_override_witness :
  OverrideValidationService.validate
    (Examples.request Examples.payments_schema
       (VDict [("payments", VList [VStr "tier"])])) =
  Ok {| valid := false;
        errors := [ErrorDict.mk "payments" ErrorDict.unknown_namespace
                     (ErrorDict.NamespaceOverrideMustBeDict "payments")] |}.
Proof.
  apply (non_mapping_namespace_override
           [("namespaces",
             Spec.opt_value
               (lookup "namespaces"
                  (Spec.blob_items Examples.payments_schema)))]
           (Spec.namespaces_of Examples.payments_schema)
           "payments" (VList [VStr "tier"]) "editor" "prod").
  - reflexivity.
  - reflexivity.
  - discriminate.
Defined.

Lemma declared_field_valid (s : value) (ns f : string) (d : dict value) :
  valid_schema s -> Spec.declares s ns f (VDict d) -> field_valid d.
Proof.
  intros Hv [fields [Hns Hf]].
  apply accepted_schema_valid in Hv.
  destruct Hv as [top [nss [-> [Htop [_ Hall]]]]].
  unfold Spec.namespaces_of in Hns. rewrite Htop in Hns.
  apply lookup_In in Hns. apply Hall in Hns.
  destruct Hns as [fields' [Heq Hfs]]. inversion Heq; subst fields'.
  apply lookup_In in Hf. apply Hfs in Hf.
  destruct Hf as [d' [Heq' Hd]]. now inversion Heq'; subst.
Qed.

Lemma declared_field_ok (s : value) (ns f : string) (d : dict value) :
  valid_schema s -> Spec.declares s ns f (VDict d) -> field_ok d.
Proof.
  intros Hv [fields [Hns Hf]].
  destruct (valid_schema_namespaces s Hv) as [top [-> [Htop [_ Hok]]]].
  apply lookup_In in Hns. apply Hok in Hns.
  destruct Hns as [fields' [Heq Hfs]]. inversion Heq; subst fields'.
  apply lookup_In in Hf. apply Hfs in Hf.
  destruct Hf as [d' [Heq' Hd]]. now inversion Heq'; subst.
Qed.

Lemma immutable_errors_counts (c : ErrorDict.error_code) (p : string)
    (d : dict value) :
  In c [ErrorDict.immutable_field; ErrorDict.role_forbidden;
        ErrorDict.env_forbidden] ->
  Spec.count_code c (Spec.immutable_errors p d) =
  (if ErrorDict.code_eqb ErrorDict.immutable_field c
   then (if is_editable d then 0 else 1) else 0)%nat.
Proof.
  unfold Spec.immutable_errors, is_editable.
  intros [<- | [<- | [<- | []]]];
    destruct (lookup "editable" d) as [ [ | [ | ] | | | | | ] | ];
    reflexivity.
Qed.

Lemma role_errors_counts (c : ErrorDict.error_code) (p : string)
    (d : dict value) (role : string) :
  In c [ErrorDict.immutable_field; ErrorDict.role_forbidden;
        ErrorDict.env_forbidden] ->
  Spec.count_code c (Spec.role_errors p d role) =
  (if ErrorDict.code_eqb ErrorDict.role_forbidden c
   then (if role_allowed d role then 0 else 1) else 0)%nat.
Proof.
  unfold Spec.role_errors, role_allowed.
  intros [<- | [<- | [<- | []]]];
    destruct (lookup "editable_by_roles" (Spec.policy_of d))
      as [ [ | | | | | roles | ] | ];
    try reflexivity; destruct (existsb _ roles); reflexivity.
Qed.

Lemma env_errors_counts (c : ErrorDict.error_code) (p : string)
    (d : dict value) (env : string) :
  In c [ErrorDict.immutable_field; ErrorDict.role_forbidden;
        ErrorDict.env_forbidden] ->
  Spec.count_code c (Spec.env_errors p d env) =
  (if ErrorDict.code_eqb ErrorDict.env_forbidden c
   then (if env_allowed d env then 0 else 1) else 0)%nat.
Proof.
  unfold Spec.env_errors, env_allowed.
  intros [<- | [<- | [<- | []]]];
    destruct (lookup "environment_restrictions" (Spec.policy_of d))
      as [ [ | | | | | envs | ] | ];
    try reflexivity; destruct (existsb _ envs); reflexivity.
Qed.

Lemma tail_errors_counts (c : ErrorDict.error_code) (p : string)
    (d : dict value) (v : value) :
  In c [ErrorDict.immutable_field; ErrorDict.role_forbidden;
        ErrorDict.env_forbidden] ->
  Spec.count_code c
    (if Spec.type_ok (Spec.declared_type_of d) v
     then Spec.constraint_errors p (Spec.declared_type_of d) v
            (Spec.constraints_of d)
     else Spec.type_errors p d v) = 0%nat.
Proof.
  intros Hc. destruct (Spec.type_ok _ v).
  - unfold Spec.constraint_errors.
    destruct (Spec.below_min _ _ _), (Spec.above_max _ _ _),
      (Spec.not_allowed _ _);
      destruct Hc as [<- | [<- | [<- | []]]]; reflexivity.
  - destruct Hc as [<- | [<- | [<- | []]]]; reflexivity.
Qed.

(** X7. The immutability, role and environment rules of a field do not
    depend on the override value: for a field of an accepted schema the
    per-field sequence emits immutable_field once exactly when the field
    is declared editable: false, role_forbidden once exactly when a role
    list is given and the acting role is not in it, and env_forbidden once
    exactly when an environment list is given and the environment is not
    in it; each of the three is emitted whether or not the others are. *)
Theorem policy_rules_independent (s : value) (ns f : string)
    (d : dict value) (p : string) (v : value) (role env : string) :
  valid_schema s -> Spec.declares s ns f (VDict d) ->
  exists es,
    OverrideValidationService._validate_field_override p (VDict d) v role env
    = Ok es /\
    Spec.count_code ErrorDict.immutable_field es =
    (if is_editable d then 0 else 1)%nat /\
    Spec.count_code ErrorDict.role_forbidden es =
    (if role_allowed d role then 0 else 1)%nat /\
    Spec.count_code ErrorDict.env_forbidden es =
    (if env_allowed d env then 0 else 1)%nat.
Proof.
  intros Hv Hd. pose proof (declared_field_ok s ns f d Hv Hd) as Hok.
  exists (Spec.field_errors p d v role env).
  split; [ now apply field_override_refines | ].
  unfold Spec.field_errors. rewrite !count_code_app.
  rewrite !immutable_errors_counts, !role_errors_counts, !env_errors_counts,
    !tail_errors_counts by (simpl; auto).
  destruct (is_editable d), (role_allowed d role), (env_allowed d env);
    repeat split; reflexivity.
Qed.

Lemma policy_rules_independent_witness :
  exists es,
    OverrideValidationService._validate_field_override
      "payments.processor_id"
      (VDict [("type", VStr "string"); ("default", VStr "stripe_v2");
              ("required", VBool false); ("editable", VBool false)])
      (VInt 0) "viewer" "prod" = Ok es /\
    Spec.count_code ErrorDict.immutable_field es = 1%nat.
Proof.
  destruct (policy_rules_independent Examples.payments_schema
              "payments" "processor_id"
              [("type", VStr "string"); ("default", VStr "stripe_v2");
               ("required", VBool false); ("editable", VBool false)]
              "payments.processor_id" (VInt 0) "viewer" "prod")
    as [es [Hrun [Himm _]]].
  - reflexivity.
  - eexists. split; reflexivity.
  - exists es. split; [ exact Hrun | exact Himm ].
Defined.

(* ------------------------------------------------------------------ *)
(** ** ConfigResolver: where resolve is defined *)

Lemma map_res_Ok_inv {A B : Type} (f : A -> res B) (l : list A)
    (bs : list B) :
  map_res f l = Ok bs -> forall a, In a l -> exists b, f a = Ok b.
Proof.
  revert bs. induction l as [ | x l IH ]; intros bs H a Ha.
  - destruct Ha.
  - simpl in H. apply bind_Ok_inv in H. destruct H as [b [Hb H]].
    apply bind_Ok_inv in H. destruct H as [bs' [Hbs _]].
    destruct Ha as [<- | Ha]; [ eauto | exact (IH bs' Hbs a Ha) ].
Qed.

Lemma map_res_total {A B : Type} (f : A -> res B) (l : list A) :
  (forall a, In a l -> exists b, f a = Ok b) ->
  exists bs, map_res f l = Ok bs.
Proof.
  induction l as [ | x l IH ]; intros H.
  - exists []. reflexivity.
  - destruct (H x (or_introl eq_refl)) as [b Hb].
    destruct IH as [bs Hbs]; [ intros a Ha; apply H; now right | ].
    exists (b :: bs). simpl. rewrite Hb, bind_Ok, Hbs. reflexivity.
Qed.

Lemma map_res_keys {A B : Type} (g : A -> res B) (l : dict A)
    (bs : dict B) :
  map_res (fun '(k, v) => x <- g v ;; Ok (k, x)) l = Ok bs ->
  keys bs = keys l.
Proof.
  revert bs. induction l as [ | [k v] l IH ]; intros bs H.
  - injection H as <-. reflexivity.
  - simpl in H. apply bind_Ok_inv in H. destruct H as [b [Hb H]].
    apply bind_Ok_inv in H. destruct H as [bs' [Hbs H]].
    injection H as <-.
    apply bind_Ok_inv in Hb. destruct Hb as [x [_ Hb]].
    injection Hb as <-. simpl. f_equal. exact (IH bs' Hbs).
Qed.

Lemma defaults_of_defined (fields : value) :
  (exists ds, ConfigResolver.defaults_of fields = Ok ds) <->
  exists fs,
    fields = VDict fs /\
    forall f fd, In (f, fd) fs ->
      exists d dv, fd = VDict d /\ lookup "default" d = Some dv.
Proof.
  unfold ConfigResolver.defaults_of. split.
  - intros [ds H]. apply bind_Ok_inv in H. destruct H as [fs [Hfs H]].
    destruct fields; try discriminate. injection Hfs as ->.
    exists fs. split; [ reflexivity | ]. intros f fd Hin.
    destruct (map_res_Ok_inv _ _ _ H _ Hin) as [b Hb].
    apply bind_Ok_inv in Hb. destruct Hb as [dv [Hdv _]].
    destruct fd; try discriminate. simpl in Hdv.
    destruct (lookup "default" d) eqn:E; [ eauto | discriminate ].
  - intros [fs [-> Hall]]. simpl py_items. rewrite bind_Ok.
    apply map_res_total. intros [f fd] Hin.
    destruct (Hall f fd Hin) as [d [dv [-> Hdv]]].
    simpl. rewrite Hdv. simpl. eauto.
Qed.

Lemma apply_fields_total (ns : string) (fields items : dict value) :
  forall base : config,
    mem ns base = true ->
    exists base',
      fold_res (ConfigResolver.apply_field ns (VDict fields)) items base
      = Ok base' /\
      keys base' = keys base.
Proof.
  induction items as [ | [f v] items IH ]; intros base Hns.
  - exists base. split; reflexivity.
  - rewrite fold_res_cons. unfold ConfigResolver.apply_field at 1.
    simpl py_in. rewrite bind_Ok.
    destruct (mem f fields); cbn [negb].
    + unfold ConfigResolver.set_field.
      destruct (mem_lookup _ _ Hns) as [fc Hfc]. rewrite Hfc, bind_Ok.
      pose proof (keys_dict_set ns (dict_set f (deepcopy v) fc) base Hns)
        as Hk.
      destruct (IH (dict_set ns (dict_set f (deepcopy v) fc) base))
        as [base' [Hrun Hk']].
      * rewrite (lookup_same_keys ns _ base Hk). exact Hns.
      * exists base'. split; [ exact Hrun | congruence ].
    + rewrite bind_Ok. exact (IH base Hns).
Qed.

Lemma apply_namespaces_total (nss : dict value) (o : dict value) :
  (forall ns v, In (ns, v) nss -> exists fields, v = VDict fields) ->
  forall base : config,
    keys base = keys nss ->
    exists base',
      fold_res (ConfigResolver.apply_namespace (VDict nss)) o base
      = Ok base' /\
      keys base' = keys nss.
Proof.
  intros Hnss. induction o as [ | [ns nsv] o IH ]; intros base Hk.
  - exists base. split; [ reflexivity | exact Hk ].
  - rewrite fold_res_cons. unfold ConfigResolver.apply_namespace at 1.
    simpl py_in. rewrite bind_Ok.
    destruct (mem ns nss) eqn:Hmem; cbn [negb].
    + destruct nsv as [ | | | | | | items ];
        try (rewrite bind_Ok; exact (IH base Hk)).
      destruct (mem_lookup _ _ Hmem) as [x Hx].
      destruct (Hnss ns x (lookup_In _ _ _ Hx)) as [fields ->].
      simpl py_getitem. rewrite Hx, bind_Ok.
      destruct (apply_fields_total ns fields items base) as [b1 [Hrun Hk1]].
      * rewrite (lookup_same_keys ns base nss Hk). exact Hmem.
      * rewrite Hrun, bind_Ok. apply IH. congruence.
    + rewrite bind_Ok. exact (IH base Hk).
Qed.

Lemma apply_overrides_defined (nss : dict value) (layer : value)
    (base : config) :
  (forall ns v, In (ns, v) nss -> exists fields, v = VDict fields) ->
  keys base = keys nss ->
  (exists base',
     ConfigResolver._apply_overrides base (VDict nss) layer = Ok base' /\
     keys base' = keys nss) <->
  is_blob layer.
Proof.
  intros Hnss Hk. unfold ConfigResolver._apply_overrides, is_blob. split.
  - intros [base' [H _]].
    destruct (truthy layer) eqn:Ht; [ right | now left ].
    cbn [negb] in H. apply bind_Ok_inv in H. destruct H as [items [Hi _]].
    destruct layer; try discriminate. eauto.
  - intros Hb. destruct (truthy layer) eqn:Ht; cbn [negb].
    + destruct Hb as [Hb | [d ->]]; [ discriminate | ].
      simpl py_items. rewrite bind_Ok.
      exact (apply_namespaces_total nss d Hnss base Hk).
    + exists base. split; [ reflexivity | exact Hk ].
Qed.

(** X8. [ConfigResolver.resolve] returns a configuration exactly when the
    schema maps the key namespaces to a mapping of mappings of field
    definitions that are mappings with a key default, and each of the two
    override layers is falsy or a mapping; on every other input it
    raises. *)
Theorem resolve_defined_iff (s org user : value) :
  (exists cfg, ConfigResolver.resolve s org user = Ok cfg) <->
  resolvable s /\ is_blob org /\ is_blob user.
Proof.
  unfold ConfigResolver.resolve. split.
  - intros [cfg H].
    apply bind_Ok_inv in H. destruct H as [nsv [Hnsv H]].
    apply bind_Ok_inv in H. destruct H as [nss [Hnss H]].
    apply bind_Ok_inv in H. destruct H as [base [Hbase H]].
    destruct s as [ | | | | | | top ]; try discriminate.
    simpl in Hnsv. destruct (lookup "namespaces" top) eqn:Htop;
      [ | discriminate ].
    injection Hnsv as ->.
    destruct nsv as [ | | | | | | nss' ]; try discriminate.
    injection Hnss as ->.
    assert (Hall : namespaces_resolvable nss).
    { intros ns v Hin.
      destruct (map_res_Ok_inv _ _ _ Hbase _ Hin) as [b Hb].
      apply bind_Ok_inv in Hb. destruct Hb as [ds [Hds _]].
      apply defaults_of_defined. eauto. }
    rewrite fold_res_cons in H. apply bind_Ok_inv in H.
    destruct H as [b1 [H1 H]].
    rewrite fold_res_cons in H. apply bind_Ok_inv in H.
    destruct H as [b2 [H2 _]].
    assert (Hblob : forall layer b b',
              ConfigResolver._apply_overrides b (VDict nss) layer = Ok b' ->
              is_blob layer).
    { intros layer b b' Hrun. unfold is_blob.
      destruct (truthy layer) eqn:Ht; [ right | now left ].
      unfold ConfigResolver._apply_overrides in Hrun. rewrite Ht in Hrun.
      cbn [negb] in Hrun. apply bind_Ok_inv in Hrun.
      destruct Hrun as [items [Hi _]]. destruct layer; try discriminate.
      eauto. }
    split; [ exists top, nss; auto | ].
    split; [ exact (Hblob _ _ _ H1) | exact (Hblob _ _ _ H2) ].
  - intros [[top [nss [-> [Htop Hall]]]] [Horg Huser]].
    simpl py_getitem. rewrite Htop, bind_Ok. simpl py_items. rewrite bind_Ok.
    assert (Hdict : forall ns v, In (ns, v) nss ->
              exists fields, v = VDict fields).
    { intros ns v Hin. destruct (Hall ns v Hin) as [fs [-> _]]. eauto. }
    destruct (map_res_total
                (fun '(namespace, fields) =>
                   defaults <- ConfigResolver.defaults_of fields ;;
                   Ok (namespace, defaults)) nss) as [base Hbase].
    { intros [ns v] Hin.
      destruct (proj2 (defaults_of_defined v)) as [ds Hds].
      - destruct (Hall ns v Hin) as [fs [-> Hfs]]. eauto.
      - rewrite Hds, bind_Ok. eauto. }
    rewrite Hbase, bind_Ok.
    pose proof (map_res_keys _ _ _ Hbase) as Hk.
    destruct (proj2 (apply_overrides_defined nss org base Hdict Hk) Horg)
      as [b1 [H1 Hk1]].
    destruct (proj2 (apply_overrides_defined nss user b1 Hdict Hk1) Huser)
      as [b2 [H2 _]].
    exists b2. rewrite fold_res_cons, H1, bind_Ok, fold_res_cons, H2.
    reflexivity.
Qed.

(* ------------------------------------------------------------------ *)
(** ** ConfigResolver: the result as a function of the layers *)

Lemma NoDup_In_lookup {A : Type} (k : string) (a : A) (d : dict A) :
  NoDup (keys d) -> In (k, a) d -> lookup k d = Some a.
Proof.
  induction d as [ | [k' a'] d IH ]; simpl; intros Hnd Hin; [ easy | ].
  inversion Hnd as [ | ? ? Hn Hd ]; subst.
  destruct Hin as [Heq | Hin].
  - inversion Heq; subst. now rewrite String.eqb_refl.
  - destruct (String.eqb k k') eqn:E; [ | auto ].
    apply String.eqb_eq in E. subst k'. exfalso. apply Hn.
    eapply In_keys; eauto.
Qed.

Lemma dict_ext {A : Type} (d1 d2 : dict A) :
  keys d1 = keys d2 -> NoDup (keys d1) ->
  (forall k, In k (keys d1) -> lookup k d1 = lookup k d2) ->
  d1 = d2.
Proof.
  revert d2. induction d1 as [ | [k1 a1] d1 IH ]; intros [ | [k2 a2] d2 ];
    simpl; intros Hk Hnd Hl; try discriminate; [ reflexivity | ].
  injection Hk as <- Hk. inversion Hnd as [ | ? ? Hn Hd ]; subst.
  pose proof (Hl k1 (or_introl eq_refl)) as H1.
  rewrite String.eqb_refl in H1. injection H1 as <-.
  f_equal. apply IH; auto.
  intros k Hin. specialize (Hl k (or_intror Hin)).
  destruct (String.eqb k k1) eqn:E; [ | exact Hl ].
  apply String.eqb_eq in E. subst k. contradiction.
Qed.

Lemma config_ext (nss : dict value) (c1 c2 : config) :
  (forall ns v, In (ns, v) nss -> exists fields, v = VDict fields) ->
  NoDup (keys nss) ->
  (forall ns fields, In (ns, VDict fields) nss -> NoDup (keys fields)) ->
  Spec.shaped nss c1 -> Spec.shaped nss c2 ->
  (forall ns f, Spec.config_get c1 ns f = Spec.config_get c2 ns f) ->
  c1 = c2.
Proof.
  intros Hdict Hnd Hfnd [Hk1 Hs1] [Hk2 Hs2] Hget.
  apply dict_ext; [ congruence | now rewrite Hk1 | ].
  intros ns Hin. rewrite Hk1 in Hin.
  apply in_map_iff in Hin. destruct Hin as [[ns' v] [Heq Hin]].
  simpl in Heq. subst ns'.
  destruct (Hdict ns v Hin) as [fields ->].
  pose proof (NoDup_In_lookup ns _ nss Hnd Hin) as Hl.
  destruct (Hs1 ns fields Hl) as [f1 [Hf1 Hkf1]].
  destruct (Hs2 ns fields Hl) as [f2 [Hf2 Hkf2]].
  rewrite Hf1, Hf2. f_equal.
  apply dict_ext; [ congruence | rewrite Hkf1; eauto | ].
  intros f _. specialize (Hget ns f). unfold Spec.config_get in Hget.
  now rewrite Hf1, Hf2 in Hget.
Qed.

Lemma resolve_effective_ext (s o1 u1 o2 u2 : value) :
  valid_schema s -> wf_value s = true ->
  is_blob o1 -> wf_value o1 = true -> is_blob u1 -> wf_value u1 = true ->
  is_blob o2 -> wf_value o2 = true -> is_blob u2 -> wf_value u2 = true ->
  (forall ns f,
     Spec.effective (Spec.namespaces_of s) o1 u1 ns f =
     Spec.effective (Spec.namespaces_of s) o2 u2 ns f) ->
  ConfigResolver.resolve s o1 u1 = ConfigResolver.resolve s o2 u2.
Proof.
  intros Hv Hwf Hbo1 Hwo1 Hbu1 Hwu1 Hbo2 Hwo2 Hbu2 Hwu2 Heff.
  destruct (valid_schema_namespaces s Hv) as [top [-> [Htop [_ Hok]]]].
  destruct (resolve_spec top _ o1 u1 Htop Hok Hbo1 Hbu1)
    as [c1 [Hrun1 [Hs1 Hget1]]].
  destruct (resolve_spec top _ o2 u2 Htop Hok Hbo2 Hbu2)
    as [c2 [Hrun2 [Hs2 Hget2]]].
  rewrite Hrun1, Hrun2. f_equal.
  set (nss := Spec.namespaces_of (VDict top)) in *.
  assert (Hwn : wf_value (VDict nss) = true).
  { apply wf_dict_inv in Hwf. destruct Hwf as [_ Hall].
    exact (Hall _ _ (lookup_In _ _ _ Htop)). }
  apply wf_dict_inv in Hwn. destruct Hwn as [Hnd Hall].
  apply (config_ext nss); auto.
  - intros ns v Hin. destruct (Hok ns v Hin) as [fields [-> _]]. eauto.
  - intros ns fields Hin. apply Hall in Hin. now apply wf_dict_inv in Hin.
  - intros ns f. rewrite (Hget1 Hwo1 Hwu1), (Hget2 Hwo2 Hwu2). apply Heff.
Qed.

Lemma default_of_declares (s : value) (ns f : string) (dv : value) :
  valid_schema s ->
  Spec.default_of (Spec.namespaces_of s) ns f = Some dv ->
  exists fd, Spec.declares s ns f fd.
Proof.
  intros _ H. unfold Spec.default_of in H.
  destruct (lookup ns (Spec.namespaces_of s))
    as [ [ | | | | | | fields ] | ] eqn:Hns; try discriminate.
  destruct (lookup f fields) as [ fd | ] eqn:Hf; try discriminate.
  exists fd, fields. auto.
Qed.

(** X9. The result of [ConfigResolver.resolve] depends on an override
    layer only through the values it supplies for the fields the schema
    declares: two organisation layers and two user layers that supply the
    same value for every declared field give the same configuration,
    whatever else they contain and in whatever order. *)
Theorem resolve_extensional (s o1 u1 o2 u2 : value) :
  valid_schema s -> wf_value s = true ->
  is_blob o1 -> wf_value o1 = true -> is_blob u1 -> wf_value u1 = true ->
  is_blob o2 -> wf_value o2 = true -> is_blob u2 -> wf_value u2 = true ->
  layer_equiv s o1 o2 -> layer_equiv s u1 u2 ->
  ConfigResolver.resolve s o1 u1 = ConfigResolver.resolve s o2 u2.
Proof.
  intros Hv Hwf Hbo1 Hwo1 Hbu1 Hwu1 Hbo2 Hwo2 Hbu2 Hwu2 Ho Hu.
  apply resolve_effective_ext; auto.
  intros ns f. unfold Spec.effective.
  destruct (Spec.default_of (Spec.namespaces_of s) ns f) as [dv | ] eqn:E;
    [ | reflexivity ].
  destruct (default_of_declares s ns f dv Hv E) as [fd Hd].
  now rewrite (Ho ns f fd Hd), (Hu ns f fd Hd).
Qed.

Lemma resolve_extensional_witness :
  ConfigResolver.resolve Examples.payments_schema
    (VDict [("payments", VDict [("currency", VStr "EUR");
                                ("ghost", VInt 1)]);
            ("stale", VDict [("x", VInt 1)])])
    VNone =
  ConfigResolver.resolve Examples.payments_schema
    (VDict [("payments", VDict [("currency", VStr "EUR")])])
    VNone.
Proof.
  apply resolve_extensional;
    try reflexivity; try (left; reflexivity); try (right; eauto).
  - intros ns f fd [fields [Hns Hf]]. simpl in Hns.
    destruct (String.eqb ns "payments") eqn:E; [ | discriminate ].
    apply String.eqb_eq in E. subst ns. injection Hns as <-.
    cbn [Spec.layer_get lookup String.eqb Ascii.eqb Bool.eqb].
    destruct (String.eqb f "currency"); [ reflexivity | ].
    destruct (String.eqb f "ghost") eqn:E; [ | reflexivity ].
    apply String.eqb_eq in E. subst f. discriminate Hf.
  - intros ns f fd _. reflexivity.
Defined.

(** X10. Override layers that never supply different values for the same
    declared field can be applied in either order: swapping the
    organisation layer and the user layer gives the same configuration. *)
Theorem resolve_layers_commute (s org user : value) :
  valid_schema s -> wf_value s = true ->
  is_blob org -> wf_value org = true ->
  is_blob user -> wf_value user = true ->
  layers_agree s org user ->
  ConfigResolver.resolve s org user = ConfigResolver.resolve s user org.
Proof.
  intros Hv Hwf Hbo Hwo Hbu Hwu Hag.
  apply resolve_effective_ext; auto.
  intros ns f. unfold Spec.effective.
  destruct (Spec.default_of (Spec.namespaces_of s) ns f) as [dv | ] eqn:E;
    [ | reflexivity ].
  destruct (default_of_declares s ns f dv Hv E) as [fd Hd].
  destruct (Spec.layer_get user ns f) as [uv | ] eqn:Eu,
           (Spec.layer_get org ns f) as [ov | ] eqn:Eo; try reflexivity.
  f_equal. symmetry. exact (Hag ns f fd ov uv Hd Eo Eu).
Qed.

Lemma resolve_layers_commute_witness :
  ConfigResolver.resolve Examples.payments_schema
    (VDict [("payments", VDict [("currency", VStr "EUR")])])
    (VDict [("payments", VDict [("max_retries", VInt 5)])]) =
  ConfigResolver.resolve Examples.payments_schema
    (VDict [("payments", VDict [("max_retries", VInt 5)])])
    (VDict [("payments", VDict [("currency", VStr "EUR")])]).
Proof.
  apply resolve_layers_commute; try reflexivity; try (right; eauto).
  intros ns f fd v1 v2 _ H1 H2.
  cbn [Spec.layer_get lookup] in H1, H2.
  destruct (String.eqb ns "payments"); [ | discriminate ].
  cbn [lookup] in H1, H2.
  destruct (String.eqb f "currency") eqn:E; [ | discriminate ].
  apply String.eqb_eq in E. subst f. discriminate H2.
Defined.

(** X11. Applying one override layer twice is the same as applying it
    once, and a single layer gives the same configuration whether it is
    passed as the organisation layer or as the user layer. *)
Theorem resolve_idempotent (s layer : value) :
  valid_schema s -> wf_value s = true ->
  is_blob layer -> wf_value layer = true ->
  ConfigResolver.resolve s layer layer = ConfigResolver.resolve s layer VNone
  /\
  ConfigResolver.resolve s VNone layer = ConfigResolver.resolve s layer VNone.
Proof.
  intros Hv Hwf Hb Hw.
  assert (Hn : is_blob VNone) by (left; reflexivity).
  split; apply resolve_effective_ext; auto;
    intros ns f; unfold Spec.effective;
    destruct (Spec.default_of (Spec.namespaces_of s) ns f); try reflexivity;
    cbn [Spec.layer_get]; destruct (Spec.layer_get layer ns f); reflexivity.
Qed.

Lemma resolve_idempotent_witness :
  ConfigResolver.resolve Examples.payments_schema
    (VDict [("payments", VDict [("currency", VStr "EUR")])])
    (VDict [("payments", VDict [("currency", VStr "EUR")])]) =
  ConfigResolver.resolve Examples.payments_schema
    (VDict [("payments", VDict [("currency", VStr "EUR")])]) VNone
  /\
  ConfigResolver.resolve Examples.payments_schema VNone
    (VDict [("payments", VDict [("currency", VStr "EUR")])]) =
  ConfigResolver.resolve Examples.payments_schema
    (VDict [("payments", VDict [("currency", VStr "EUR")])]) VNone.
Proof.
  apply resolve_idempotent; try reflexivity. right. eauto.
Defined.

(* ------------------------------------------------------------------ *)
(** ** The validator and the resolver together *)

Lemma accepted_blob_entry (s o : value) (role env : string)
    (r : OverrideValidationResult) (ns f : string) (v : value) :
  valid_schema s -> is_blob o ->
  OverrideValidationService.validate
    {| schema := s; overrides := o;
       acting_role := role; environment := env |} = Ok r ->
  r.(valid) = true ->
  Spec.layer_get o ns f = Some v ->
  exists d,
    Spec.declares s ns f (VDict d) /\ field_accepts d v role env = true.
Proof.
  intros Hv Hb Hrun Hvalid Hget.
  destruct (valid_schema_namespaces s Hv) as [top [-> [Htop [_ Hok]]]].
  rewrite (validate_refines top _ o role env Htop Hok Hb) in Hrun.
  injection Hrun as <-. cbn [valid] in Hvalid.
  set (nss := Spec.namespaces_of (VDict top)) in *.
  change (no_errors (flat_map (Spec.namespace_errors nss role env)
                              (Spec.blob_items o)) = true) in Hvalid.
  rewrite no_errors_flat_map in Hvalid.
  rewrite forallb_forall in Hvalid.
  unfold Spec.layer_get in Hget.
  destruct o as [ | | | | | | od ]; try discriminate.
  destruct (lookup ns od) as [ [ | | | | | | items ] | ] eqn:Hns;
    try discriminate.
  specialize (Hvalid (ns, VDict items) (lookup_In _ _ _ Hns)).
  rewrite namespace_errors_decision in Hvalid.
  unfold namespace_accepted in Hvalid. cbn [fst snd] in Hvalid.
  destruct (lookup ns nss) as [ [ | | | | | | fields ] | ] eqn:Hnss;
    try discriminate.
  apply andb_prop in Hvalid. destruct Hvalid as [Hvalid Hfields].
  apply andb_prop in Hvalid. destruct Hvalid as [Hknown _].
  rewrite forallb_forall in Hknown, Hfields.
  pose proof (lookup_In _ _ _ Hget) as Hin.
  specialize (Hknown f (In_keys _ _ _ Hin)).
  specialize (Hfields (f, v) Hin). cbn [fst snd] in Hfields.
  destruct (mem_lookup _ _ Hknown) as [fd Hfd]. rewrite Hfd in Hfields.
  destruct (Hok ns _ (lookup_In _ _ _ Hnss)) as [fields' [Heq Hfs]].
  injection Heq as <-.
  destruct (Hfs f fd (lookup_In _ _ _ Hfd)) as [d [-> _]].
  exists d. split; [ exists fields; auto | exact Hfields ].
Qed.

(** X12. What the override validator accepts the resolver applies: when
    validate returns valid for a blob on an accepted schema, every value
    the blob supplies is for a declared field, passes the rules of that
    field, and is the value of the field in the configuration resolved
    with the blob as the user layer, over any organisation layer. *)
Theorem accepted_overrides_applied (s o org : value) (role env : string)
    (r : OverrideValidationResult) (ns f : string) (v : value) :
  valid_schema s ->
  is_blob o -> wf_value o = true -> is_blob org -> wf_value org = true ->
  OverrideValidationService.validate
    {| schema := s; overrides := o;
       acting_role := role; environment := env |} = Ok r ->
  r.(valid) = true ->
  Spec.layer_get o ns f = Some v ->
  exists cfg d,
    ConfigResolver.resolve s org o = Ok cfg /\
    Spec.config_get cfg ns f = Some v /\
    Spec.declares s ns f (VDict d) /\
    field_accepts d v role env = true.
Proof.
  intros Hv Hb Hw Hbo Hwo Hrun Hvalid Hget.
  destruct (accepted_blob_entry s o role env r ns f v Hv Hb Hrun Hvalid Hget)
    as [d [Hd Hacc]].
  pose proof (declared_field_ok s ns f d Hv Hd) as Hok_d.
  destruct (valid_schema_namespaces s Hv) as [top [-> [Htop [_ Hok]]]].
  destruct (resolve_spec top _ org o Htop Hok Hbo Hb)
    as [cfg [Hres [_ Hcfg]]].
  exists cfg, d. repeat split; auto.
  rewrite (Hcfg Hwo Hw). unfold Spec.effective, Spec.default_of.
  destruct Hd as [fields [Hns Hf]]. rewrite Hns, Hf.
  destruct (f_default d Hok_d) as [dv Hdv].
  rewrite Hdv, Hget. reflexivity.
Qed.

Lemma accepted_overrides_applied_witness :
  exists cfg d,
    ConfigResolver.resolve Examples.payments_schema
      (VDict [("payments", VDict [("amount", VInt 200)])])
      (VDict [("payments", VDict [("amount", VInt 500); ("tier", VInt 5)])])
    = Ok cfg /\
    Spec.config_get cfg "payments" "amount" = Some (VInt 500) /\
    Spec.declares Examples.payments_schema "payments" "amount" (VDict d) /\
    field_accepts d (VInt 500) "editor" "prod" = true.
Proof.
  eapply (accepted_overrides_applied Examples.payments_schema
            (VDict [("payments",
                     VDict [("amount", VInt 500); ("tier", VInt 5)])])
            (VDict [("payments", VDict [("amount", VInt 200)])])
            "editor" "prod");
    try reflexivity; try (right; eauto).
Defined.

(* ------------------------------------------------------------------ *)
(** ** Bounds of an accepted schema and the override validator *)

Lemma Qltb_lt (x y : Q) : Qltb x y = true <-> (x < y)%Q.
Proof.
  unfold Qltb. rewrite Qlt_alt.
  destruct (x ?= y)%Q; split; congruence.
Qed.

Lemma num_lt_trans (a b c : value) :
  Spec.num_lt a b = true -> Spec.num_lt b c = true ->
  Spec.num_lt a c = true.
Proof.
  unfold Spec.num_lt.
  destruct (as_real a) as [x | ], (as_real b) as [y | ],
           (as_real c) as [z | ]; try discriminate.
  rewrite !Qltb_lt. apply Qlt_trans.
Qed.

Lemma bounds_exclusive (t : string) (v : value) (c : dict value) :
  bounds_ordered c ->
  Spec.below_min t v c = true -> Spec.above_max t v c = true -> False.
Proof.
  unfold bounds_ordered, Spec.below_min, Spec.above_max.
  destruct (Spec.comparable_of t v) as [x | ]; try discriminate.
  destruct (lookup "min" c) as [mn | ]; try discriminate.
  destruct (lookup "max" c) as [mx | ]; try discriminate.
  intros Hord Hlo Hhi.
  rewrite (num_lt_trans mx x mn Hhi Hlo) in Hord. discriminate.
Qed.

Lemma declared_bounds_ordered (s : value) (ns f : string) (d : dict value) :
  valid_schema s -> Spec.declares s ns f (VDict d) ->
  bounds_ordered (Spec.constraints_of d).
Proof.
  intros Hv Hd. pose proof (declared_field_valid s ns f d Hv Hd) as Hfv.
  pose proof (fv_constraints d Hfv) as Hc. unfold Spec.constraints_of.
  destruct (lookup "constraints" d) as [ [ | | | | | | c ] | ];
    try exact I; try contradiction.
  exact (cv_ordered c Hc).
Qed.

Lemma field_errors_violation (p : string) (d : dict value) (v : value)
    (role env : string) (e : ErrorDict.t) :
  In e (Spec.field_errors p d v role env) ->
  ErrorDict.code e = ErrorDict.constraint_violation ->
  In e (Spec.constraint_errors p (Spec.declared_type_of d) v
                               (Spec.constraints_of d)).
Proof.
  unfold Spec.field_errors. intros Hin Hc.
  apply in_app_or in Hin. destruct Hin as [Hin | Hin].
  { unfold Spec.immutable_errors in Hin.
    destruct (lookup "editable" d) as [ [ | [ | ] | | | | | ] | ];
      try destruct Hin as [<- | []]; try destruct Hin; discriminate. }
  apply in_app_or in Hin. destruct Hin as [Hin | Hin].
  { unfold Spec.role_errors in Hin.
    destruct (lookup "editable_by_roles" (Spec.policy_of d))
      as [ [ | | | | | roles | ] | ]; try destruct Hin.
    destruct (existsb _ roles); [ destruct Hin | ].
    destruct Hin as [<- | []]. discriminate. }
  apply in_app_or in Hin. destruct Hin as [Hin | Hin].
  { unfold Spec.env_errors in Hin.
    destruct (lookup "environment_restrictions" (Spec.policy_of d))
      as [ [ | | | | | envs | ] | ]; try destruct Hin.
    destruct (existsb _ envs); [ destruct Hin | ].
    destruct Hin as [<- | []]. discriminate. }
  destruct (Spec.type_ok _ v); [ exact Hin | ].
  destruct Hin as [<- | []]. discriminate.
Qed.

Lemma constraint_errors_below (p t : string) (v : value) (c : dict value)
    (x m : value) :
  In (ErrorDict.mk p ErrorDict.constraint_violation
        (ErrorDict.BelowMinimum p x m))
     (Spec.constraint_errors p t v c) ->
  Spec.below_min t v c = true.
Proof.
  unfold Spec.constraint_errors.
  destruct (Spec.below_min t v c); [ reflexivity | ].
  destruct (Spec.above_max t v c), (Spec.not_allowed v c); simpl;
    intros H; repeat (destruct H as [H | H]; try discriminate H);
    destruct H.
Qed.

Lemma constraint_errors_above (p t : string) (v : value) (c : dict value)
    (x m : value) :
  In (ErrorDict.mk p ErrorDict.constraint_violation
        (ErrorDict.ExceedsMaximum p x m))
     (Spec.constraint_errors p t v c) ->
  Spec.above_max t v c = true.
Proof.
  unfold Spec.constraint_errors.
  destruct (Spec.above_max t v c); [ reflexivity | ].
  destruct (Spec.below_min t v c), (Spec.not_allowed v c); simpl;
    intros H; repeat (destruct H as [H | H]; try discriminate H);
    destruct H.
Qed.

Lemma rule_errors_no_violation (p : string) (d : dict value)
    (role env : string) :
  Spec.count_code ErrorDict.constraint_violation
    (Spec.immutable_errors p d) = 0%nat /\
  Spec.count_code ErrorDict.constraint_violation
    (Spec.role_errors p d role) = 0%nat /\
  Spec.count_code ErrorDict.constraint_violation
    (Spec.env_errors p d env) = 0%nat.
Proof.
  unfold Spec.immutable_errors, Spec.role_errors, Spec.env_errors.
  repeat split.
  - destruct (lookup "editable" d) as [ [ | [ | ] | | | | | ] | ];
      reflexivity.
  - destruct (lookup "editable_by_roles" (Spec.policy_of d))
      as [ [ | | | | | roles | ] | ]; try reflexivity.
    destruct (existsb _ roles); reflexivity.
  - destruct (lookup "environment_restrictions" (Spec.policy_of d))
      as [ [ | | | | | envs | ] | ]; try reflexivity.
    destruct (existsb _ envs); reflexivity.
Qed.

(** X13. Because SchemaValidator rejects a field whose min is above its
    max, the override validator never reports one value both below the
    minimum and above the maximum of a field of an accepted schema: the
    errors of a field hold at most two constraint_violation entries. *)
Theorem bounds_never_both_violated (s : value) (ns f : string)
    (d : dict value) (p : string) (v : value) (role env : string) :
  valid_schema s -> Spec.declares s ns f (VDict d) ->
  exists es,
    OverrideValidationService._validate_field_override p (VDict d) v role env
    = Ok es /\
    (Spec.count_code ErrorDict.constraint_violation es <= 2)%nat /\
    (forall x m y m',
       In (ErrorDict.mk p ErrorDict.constraint_violation
             (ErrorDict.BelowMinimum p x m)) es ->
       In (ErrorDict.mk p ErrorDict.constraint_violation
             (ErrorDict.ExceedsMaximum p y m')) es ->
       False).
Proof.
  intros Hv Hd. pose proof (declared_field_ok s ns f d Hv Hd) as Hok.
  pose proof (declared_bounds_ordered s ns f d Hv Hd) as Hord.
  exists (Spec.field_errors p d v role env).
  split; [ now apply field_override_refines | ]. split.
  - unfold Spec.field_errors. rewrite !count_code_app.
    destruct (rule_errors_no_violation p d role env) as [-> [-> ->]].
    destruct (Spec.type_ok _ v); [ | repeat constructor ].
    unfold Spec.constraint_errors.
    pose proof (bounds_exclusive (Spec.declared_type_of d) v _ Hord) as Hex.
    destruct (Spec.below_min _ v _), (Spec.above_max _ v _),
      (Spec.not_allowed v _); simpl; try (repeat constructor);
      exfalso; now apply Hex.
  - intros x m y m' Hlo Hhi.
    apply field_errors_violation in Hlo; [ | reflexivity ].
    apply field_errors_violation in Hhi; [ | reflexivity ].
    apply constraint_errors_below in Hlo.
    apply constraint_errors_above in Hhi.
    exact (bounds_exclusive _ _ _ Hord Hlo Hhi).
Qed.

Lemma bounds_never_both_violated_witness :
  exists es,
    OverrideValidationService._validate_field_override
      "payments.amount"
      (VDict [("type", VStr "float"); ("default", VFloat 1);
              ("constraints", VDict [("min", VInt 100);
                                     ("max", VInt 500000)])])
      (VInt 7) "editor" "prod" = Ok es /\
    (Spec.count_code ErrorDict.constraint_violation es <= 2)%nat.
Proof.
  destruct (bounds_never_both_violated Examples.payments_schema
              "payments" "amount"
              [("type", VStr "float"); ("default", VFloat 1);
               ("constraints", VDict [("min", VInt 100);
                                      ("max", VInt 500000)])]
              "payments.amount" (VInt 7) "editor" "prod")
    as [es [Hrun [Hle _]]].
  - reflexivity.
  - eexists. split; reflexivity.
  - exists es. split; [ exact Hrun | exact Hle ].
Defined.

(* ------------------------------------------------------------------ *)
(** ** SchemaValidator: every outcome *)

Lemma for_each_raise_inv {A E : Type} (f : A -> res (list E)) (l : list A)
    (e : exn) :
  for_each f l = Raise e -> exists a, In a l /\ f a = Raise e.
Proof.
  induction l as [ | a l IH ]; simpl; intros H; [ discriminate | ].
  destruct (f a) as [es | e'] eqn:Ea; simpl in H.
  - destruct (for_each f l) as [es' | e''] eqn:El; simpl in H;
      [ discriminate | ].
    injection H as ->. destruct (IH eq_refl) as [b [Hb Hfb]].
    exists b. split; [ now right | exact Hfb ].
  - injection H as ->. exists a. split; [ now left | exact Ea ].
Qed.

Lemma for_each_raise {A E : Type} (f : A -> res (list E)) (l : list A)
    (e : exn) :
  (forall a, In a l -> (exists es, f a = Ok es) \/ f a = Raise e) ->
  (exists a, In a l /\ f a = Raise e) ->
  for_each f l = Raise e.
Proof.
  induction l as [ | a l IH ]; simpl; intros Hall [b [Hb Hfb]];
    [ destruct Hb | ].
  destruct (Hall a (or_introl eq_refl)) as [[es Hes] | Hr].
  - rewrite Hes, bind_Ok.
    destruct Hb as [<- | Hb]; [ congruence | ].
    rewrite IH; [ reflexivity | intros x Hx; apply Hall; now right | eauto ].
  - rewrite Hr. reflexivity.
Qed.

Lemma schema_field_unhashable (p : string) (d : dict value) (x : value) :
  lookup "type" d = Some x -> hashable x = false ->
  SchemaValidator._validate_field p (VDict d) = Raise TypeError.
Proof.
  intros Hx Hh. unfold SchemaValidator._validate_field.
  simpl py_get. rewrite Hx, bind_Ok.
  unfold in_frozenset. rewrite Hh.
  destruct x; try discriminate; reflexivity.
Qed.

Lemma schema_field_outcome (p : string) (d : dict value) :
  ((forall x, lookup "type" d = Some x -> hashable x = true) /\
   exists es, SchemaValidator._validate_field p (VDict d) = Ok es) \/
  ((exists x, lookup "type" d = Some x /\ hashable x = false) /\
   SchemaValidator._validate_field p (VDict d) = Raise TypeError).
Proof.
  destruct (lookup "type" d) as [x | ] eqn:Ex.
  - destruct (hashable x) eqn:Eh.
    + left. assert (H : forall y, Some x = Some y -> hashable y = true)
        by (intros y Hy; injection Hy as <-; exact Eh).
      split; [ exact H | ]. apply schema_field_total. now rewrite Ex.
    + right. split; [ eauto | ]. now apply (schema_field_unhashable p d x).
  - left. split; [ discriminate | ].
    apply schema_field_total. rewrite Ex. discriminate.
Qed.

Lemma schema_field_entry_outcome (p : string) (entry : string * value) :
  (exists es, SchemaValidator.validate_field_entry p entry = Ok es) \/
  SchemaValidator.validate_field_entry p entry = Raise TypeError.
Proof.
  destruct entry as [f fd]. unfold SchemaValidator.validate_field_entry.
  destruct fd as [ | | | | | | d ]; try (left; eexists; reflexivity).
  destruct (schema_field_outcome (p ++ "." ++ f)%string d)
    as [[_ H] | [_ H]]; [ now left | now right ].
Qed.

Lemma schema_namespace_entry_outcome (entry : string * value) :
  (exists es, SchemaValidator.validate_namespace_entry entry = Ok es) \/
  SchemaValidator.validate_namespace_entry entry = Raise TypeError.
Proof.
  destruct entry as [ns v]. unfold SchemaValidator.validate_namespace_entry.
  destruct v as [ | | | | | | fields ]; try (left; eexists; reflexivity).
  destruct (for_each (SchemaValidator.validate_field_entry
                        ("namespaces." ++ ns)%string) fields)
    as [es | e] eqn:E; [ left; eauto | right ].
  destruct (for_each_raise_inv _ _ _ E) as [a [_ Ha]].
  destruct (schema_field_entry_outcome ("namespaces." ++ ns)%string a)
    as [[es Hes] | Hr]; congruence.
Qed.

Lemma schema_namespace_entry_raises (ns : string) (v : value) (e : exn) :
  SchemaValidator.validate_namespace_entry (ns, v) = Raise e <->
  e = TypeError /\
  exists fields f d x,
    v = VDict fields /\ In (f, VDict d) fields /\
    lookup "type" d = Some x /\ hashable x = false.
Proof.
  unfold SchemaValidator.validate_namespace_entry. split.
  - intros H. destruct v as [ | | | | | | fields ]; try discriminate.
    destruct (for_each_raise_inv _ _ _ H) as [[f fd] [Hin Hf]].
    unfold SchemaValidator.validate_field_entry in Hf.
    destruct fd as [ | | | | | | d ]; try discriminate.
    destruct (schema_field_outcome ("namespaces." ++ ns ++ "." ++ f)%string d)
      as [[_ [es Hes]] | [[x [Hx Hh]] Hr]].
    + change (("namespaces." ++ ns) ++ "." ++ f)%string
        with ("namespaces." ++ ns ++ "." ++ f)%string in Hf.
      congruence.
    + change (("namespaces." ++ ns) ++ "." ++ f)%string
        with ("namespaces." ++ ns ++ "." ++ f)%string in Hf.
      split; [ congruence | ]. exists fields, f, d, x. auto.
  - intros [-> [fields [f [d [x [-> [Hin [Hx Hh]]]]]]]].
    apply for_each_raise.
    + intros a _. apply schema_field_entry_outcome.
    + exists (f, VDict d). split; [ exact Hin | ].
      apply (schema_field_unhashable _ d x Hx Hh).
Qed.

(** X14. The outcomes of [SchemaValidator.validate]: it raises TypeError
    exactly when the document reaches the field loop and some field
    definition gives a list or a dict for the key type; every other
    exception it raises is SchemaValidationError with a non-empty error
    list. *)
Theorem schema_validator_outcomes (v : value) :
  (SchemaValidator.validate v = Raise TypeError <->
   declares_unhashable_type v) /\
  (forall e,
     SchemaValidator.validate v = Raise e ->
     e = TypeError \/
     exists errs, errs <> [] /\ e = SchemaValidationError errs).
Proof.
  split; [ split | ].
  - intros H. destruct v as [ | | | | | | top ]; try discriminate.
    unfold SchemaValidator.validate, mem in H. simpl py_getitem in H.
    destruct (lookup "namespaces" top) as [nsv | ] eqn:E;
      [ | discriminate ].
    cbn [negb] in H. rewrite bind_Ok in H.
    destruct nsv as [ | | | | | | [ | e0 nss ] ]; try discriminate.
    destruct (for_each SchemaValidator.validate_namespace_entry (e0 :: nss))
      as [errs | e] eqn:Erun.
    + rewrite bind_Ok in H. destruct (nonempty errs); discriminate.
    + simpl in H. injection H as ->.
      destruct (for_each_raise_inv _ _ _ Erun) as [[ns x] [Hin Hr]].
      apply schema_namespace_entry_raises in Hr.
      destruct Hr as [_ [fields [f [d [y [-> [Hf [Hy Hh]]]]]]]].
      exists top, (e0 :: nss), ns, fields, f, d, y. auto 7.
  - intros [top [nss [ns [fields [f [d [x [-> [Htop [Hns [Hf [Hx Hh]]]]]]]]]]]].
    unfold SchemaValidator.validate, mem. simpl py_getitem.
    rewrite Htop. cbn [negb]. rewrite bind_Ok.
    destruct nss as [ | e0 nss ]; [ destruct Hns | ].
    rewrite (for_each_raise SchemaValidator.validate_namespace_entry
               (e0 :: nss) TypeError); [ reflexivity | | ].
    + intros a _. apply schema_namespace_entry_outcome.
    + exists (ns, VDict fields). split; [ exact Hns | ].
      apply schema_namespace_entry_raises. split; [ reflexivity | ].
      exists fields, f, d, x. auto.
  - intros e H.
    destruct v as [ | | | | | | top ];
      try (right; injection H as <-; eexists; split; [ | reflexivity ];
           discriminate).
    unfold SchemaValidator.validate, mem in H. simpl py_getitem in H.
    destruct (lookup "namespaces" top) as [nsv | ] eqn:E; cbn [negb] in H;
      [ | right; injection H as <-; eexists; split; [ | reflexivity ];
          discriminate ].
    rewrite bind_Ok in H.
    destruct nsv as [ | | | | | | [ | e0 nss ] ];
      try (right; injection H as <-; eexists; split; [ | reflexivity ];
           discriminate).
    destruct (for_each SchemaValidator.validate_namespace_entry (e0 :: nss))
      as [errs | e'] eqn:Erun.
    + rewrite bind_Ok in H. destruct errs as [ | e1 errs ];
        [ discriminate | ].
      right. injection H as <-. eexists. split; [ | reflexivity ].
      discriminate.
    + simpl in H. injection H as <-. left.
      destruct (for_each_raise_inv _ _ _ Erun) as [[ns x] [_ Hr]].
      now apply schema_namespace_entry_raises in Hr.
Qed.

(* ------------------------------------------------------------------ *)
(** ** The validated system is type safe *)

Lemma declares_functional (s : value) (ns f : string) (fd1 fd2 : value) :
  Spec.declares s ns f fd1 -> Spec.declares s ns f fd2 -> fd1 = fd2.
Proof.
  intros [fs1 [Hn1 Hf1]] [fs2 [Hn2 Hf2]].
  rewrite Hn1 in Hn2. injection Hn2 as <-. congruence.
Qed.

Lemma field_accepts_type_ok (d : dict value) (v : value)
    (role env : string) :
  field_accepts d v role env = true ->
  Spec.type_ok (Spec.declared_type_of d) v = true.
Proof.
  unfold field_accepts. intros H.
  repeat (apply andb_prop in H; destruct H as [H ?]). assumption.
Qed.

(** X15. Type safety of the validated system: when the schema is accepted
    by SchemaValidator and each of the two override layers is accepted by
    the override validator, every value of the resolved configuration
    belongs to a declared field and has the declared type of that field;
    it is the default of the field or a value that passed all the rules
    of the field. *)
Theorem resolved_config_well_typed (s org user : value)
    (role_o env_o role_u env_u : string)
    (r_o r_u : OverrideValidationResult) (cfg : config)
    (ns f : string) (v : value) :
  valid_schema s ->
  is_blob org -> wf_value org = true ->
  is_blob user -> wf_value user = true ->
  OverrideValidationService.validate
    {| schema := s; overrides := org;
       acting_role := role_o; environment := env_o |} = Ok r_o ->
  r_o.(valid) = true ->
  OverrideValidationService.validate
    {| schema := s; overrides := user;
       acting_role := role_u; environment := env_u |} = Ok r_u ->
  r_u.(valid) = true ->
  ConfigResolver.resolve s org user = Ok cfg ->
  Spec.config_get cfg ns f = Some v ->
  exists d,
    Spec.declares s ns f (VDict d) /\
    Spec.type_ok (Spec.declared_type_of d) v = true /\
    (lookup "default" d = Some v \/
     field_accepts d v role_o env_o = true \/
     field_accepts d v role_u env_u = true).
Proof.
  intros Hv Hbo Hwo Hbu Hwu Hro Hvo Hru Hvu Hres Hget.
  destruct (valid_schema_namespaces s Hv) as [top [Hs [Htop [_ Hok]]]].
  pose proof Hres as Hres'. rewrite Hs in Hres'.
  destruct (resolve_spec top _ org user Htop Hok Hbo Hbu)
    as [cfg' [Hrun [_ Hcfg]]].
  rewrite Hrun in Hres'. injection Hres' as ->.
  rewrite (Hcfg Hwo Hwu) in Hget. unfold Spec.effective in Hget.
  destruct (Spec.layer_get user ns f) as [uv | ] eqn:Eu.
  - destruct (Spec.default_of _ ns f); [ | discriminate ].
    injection Hget as ->.
    destruct (accepted_blob_entry s user role_u env_u r_u ns f v
                Hv Hbu Hru Hvu Eu) as [d [Hd Hacc]].
    exists d. split; [ exact Hd | ].
    split; [ exact (field_accepts_type_ok _ _ _ _ Hacc) | auto ].
  - destruct (Spec.layer_get org ns f) as [ov | ] eqn:Eo.
    + destruct (Spec.default_of _ ns f); [ | discriminate ].
      injection Hget as ->.
      destruct (accepted_blob_entry s org role_o env_o r_o ns f v
                  Hv Hbo Hro Hvo Eo) as [d [Hd Hacc]].
      exists d. split; [ exact Hd | ].
      split; [ exact (field_accepts_type_ok _ _ _ _ Hacc) | auto ].
    + destruct (Spec.default_of (Spec.namespaces_of s) ns f)
        as [dv | ] eqn:Ed; [ | discriminate ].
      injection Hget as ->.
      destruct (default_of_declares s ns f v Hv Ed) as [fd Hfd].
      assert (Hdict : exists d, fd = VDict d).
      { destruct Hfd as [fields [Hns Hf]].
        destruct (Hok ns _ (lookup_In _ _ _ Hns)) as [fields' [Heq Hfs]].
        injection Heq as <-.
        destruct (Hfs f fd (lookup_In _ _ _ Hf)) as [d [-> _]]. eauto. }
      destruct Hdict as [d ->].
      assert (Hdv : lookup "default" d = Some v).
      { destruct Hfd as [fields [Hns Hf]]. unfold Spec.default_of in Ed.
        rewrite Hns, Hf in Ed. exact Ed. }
      exists d. split; [ exact Hfd | ]. split; [ | auto ].
      destruct (fv_typed d (declared_field_valid s ns f d Hv Hfd))
        as [t [dv' [Ht [_ [Hdv' Hty]]]]].
      unfold Spec.declared_type_of. rewrite Ht. congruence.
Qed.

Lemma resolved_config_well_typed_witness :
  exists d,
    Spec.declares Examples.payments_schema "payments" "amount" (VDict d) /\
    Spec.type_ok (Spec.declared_type_of d) (VInt 500) = true.
Proof.
  destruct (resolved_config_well_typed Examples.payments_schema
              (VDict [("payments", VDict [("amount", VInt 200);
                                          ("tier", VInt 5)])])
              (VDict [("payments", VDict [("amount", VInt 500);
                                          ("tier", VInt 10)])])
              "editor" "prod" "admin" "staging"
              {| valid := true; errors := [] |}
              {| valid := true; errors := [] |}
              [("payments",
                [("currency", VStr "USD"); ("max_retries", VInt 3);
                 ("amount", VInt 500); ("processor_id", VStr "stripe_v2");
                 ("tier", VInt 10)])]
              "payments" "amount" (VInt 500))
    as [d [Hd [Hty _]]];
    try reflexivity; try (right; eauto).
  exists d. split; [ exact Hd | exact Hty ].
Defined.

(* ------------------------------------------------------------------ *)
(** ** ConfigResolver on schemas that were not validated *)

(** X16. The resolver consults only the namespace names, the field names
    and the defaults of the schema: on every schema on which it returns,
    accepted by SchemaValidator or not, the result has the namespaces of
    the schema in their order and each declared field holds the user
    value if there is one, else the organisation value if there is one,
    else the default; type, constraints, policy, required and editable
    play no part. *)
Theorem resolve_needs_only_defaults (s org user : value) :
  resolvable s ->
  is_blob org -> wf_value org = true ->
  is_blob user -> wf_value user = true ->
  exists cfg,
    ConfigResolver.resolve s org user = Ok cfg /\
    keys cfg = keys (Spec.namespaces_of s) /\
    forall ns f,
      Spec.config_get cfg ns f =
      match Spec.default_of (Spec.namespaces_of s) ns f with
      | None => None
      | Some dv =>
          match Spec.layer_get user ns f, Spec.layer_get org ns f with
          | Some uv, _ => Some uv
          | None, Some ov => Some ov
          | None, None => Some dv
          end
      end.
Proof.
  intros [top [nss [-> [Htop Hok]]]] Hbo Hwo Hbu Hwu.
  destruct (resolve_spec_resolvable top nss org user Htop Hok Hbo Hbu)
    as [cfg [Hrun [[Hk _] Hget]]].
  exists cfg. unfold Spec.namespaces_of. rewrite Htop.
  split; [ exact Hrun | ]. split; [ exact Hk | ].
  intros ns f. rewrite (Hget Hwo Hwu). unfold Spec.effective.
  destruct (Spec.default_of nss ns f); [ | reflexivity ].
  destruct (Spec.layer_get user ns f), (Spec.layer_get org ns f);
    reflexivity.
Qed.

Lemma resolve_needs_only_defaults_witness :
  exists cfg,
    ConfigResolver.resolve
      (VDict [("namespaces",
               VDict [("ns", VDict [("a", VDict [("default", VInt 1)]);
                                    ("b", VDict [("type", VInt 7);
                                                 ("default", VNone)])])])])
      (VDict [("ns", VDict [("a", VStr "two")])]) VNone = Ok cfg /\
    SchemaValidator.validate
      (VDict [("namespaces",
               VDict [("ns", VDict [("a", VDict [("default", VInt 1)]);
                                    ("b", VDict [("type", VInt 7);
                                                 ("default", VNone)])])])])
    <> Ok tt /\
    Spec.config_get cfg "ns" "a" = Some (VStr "two") /\
    Spec.config_get cfg "ns" "b" = Some VNone.
Proof.
  destruct (resolve_needs_only_defaults
              (VDict [("namespaces",
                 VDict [("ns", VDict [("a", VDict [("default", VInt 1)]);
                                      ("b", VDict [("type", VInt 7);
                                                   ("default", VNone)])])])])
              (VDict [("ns", VDict [("a", VStr "two")])]) VNone)
    as [cfg [Hrun [_ Hget]]];
    try reflexivity; try (left; reflexivity); try (right; eauto).
  - eexists _, _. split; [ reflexivity | ]. split; [ reflexivity | ].
    intros ns v [Heq | []]. injection Heq as <- <-.
    eexists. split; [ reflexivity | ].
    intros f fd [Heq | [Heq | []]]; injection Heq as <- <-;
      eexists _, _; split; reflexivity.
  - exists cfg. split; [ exact Hrun | ].
    split; [ discriminate | ].
    split; [ exact (Hget "ns" "a") | exact (Hget "ns" "b") ].
Defined.

(* ------------------------------------------------------------------ *)
(** ** The override validator: the error list and its order *)

(** X17. The error list of a validation is fixed by the blob and the
    schema: on an accepted schema the errors are listed namespace by
    namespace in the order of the blob; a namespace that is not in the
    schema or whose override is not a mapping gives one unknown_namespace
    error; any other namespace gives first the unknown_field errors in the
    order of its override, then the missing_required errors in the order
    of the schema fields, then the errors of each overridden declared
    field in the order of its override, each field in the order
    immutable_field, role_forbidden, env_forbidden and then either
    type_mismatch or the violations of min, max and allowed_values. *)
Theorem validate_error_order (s : value) (o : dict value)
    (role env : string) :
  valid_schema s ->
  exists r,
    OverrideValidationService.validate
      {| schema := s; overrides := VDict o;
         acting_role := role; environment := env |} = Ok r /\
    r.(errors) =
    flat_map
      (fun entry =>
         match lookup (fst entry) (Spec.namespaces_of s), snd entry with
         | Some (VDict fields), VDict ns_items =>
             flat_map (Spec.unknown_field_errors (fst entry) fields)
                      (keys ns_items) ++
             map (fun e => Spec.missing_required_error (fst entry) (fst e))
                 (filter (Spec.required_absent ns_items) fields) ++
             flat_map
               (fun e =>
                  match lookup (fst e) fields with
                  | Some (VDict d) =>
                      Spec.immutable_errors
                        (fst entry ++ "." ++ fst e)%string d ++
                      Spec.role_errors
                        (fst entry ++ "." ++ fst e)%string d role ++
                      Spec.env_errors
                        (fst entry ++ "." ++ fst e)%string d env ++
                      (if Spec.type_ok (Spec.declared_type_of d) (snd e)
                       then Spec.constraint_errors
                              (fst entry ++ "." ++ fst e)%string
                              (Spec.declared_type_of d) (snd e)
                              (Spec.constraints_of d)
                       else Spec.type_errors
                              (fst entry ++ "." ++ fst e)%string d (snd e))
                  | _ => []
                  end) ns_items
         | Some (VDict _), _ =>
             [ErrorDict.mk (fst entry) ErrorDict.unknown_namespace
                (ErrorDict.NamespaceOverrideMustBeDict (fst entry))]
         | _, _ =>
             [ErrorDict.mk (fst entry) ErrorDict.unknown_namespace
                (ErrorDict.NamespaceNotInSchema (fst entry))]
         end) o.
Proof.
  intros Hv.
  destruct (valid_schema_namespaces s Hv) as [top [Hs [Htop [_ Hok]]]].
  eexists. split.
  - rewrite Hs at 1. apply (validate_refines top _ (VDict o) role env Htop Hok).
    right. eauto.
  - cbn [errors Spec.blob_items]. apply flat_map_ext. intros [ns nsv].
    unfold Spec.namespace_errors. cbn [fst snd].
    destruct (lookup ns (Spec.namespaces_of s))
      as [ [ | | | | | | fields ] | ]; reflexivity.
Qed.

Lemma validate_error_order_witness :
  exists r,
    OverrideValidationService.validate
      (Examples.request Examples.payments_schema
         (VDict [("payments", VDict [("ghost", VInt 1); ("amount", VInt 7);
                                     ("processor_id", VInt 5)])])) = Ok r /\
    map ErrorDict.code r.(errors) =
    [ErrorDict.unknown_field; ErrorDict.missing_required;
     ErrorDict.constraint_violation; ErrorDict.immutable_field;
     ErrorDict.type_mismatch].
Proof.
  destruct (validate_error_order Examples.payments_schema
              [("payments", VDict [("ghost", VInt 1); ("amount", VInt 7);
                                   ("processor_id", VInt 5)])]
              "editor" "prod") as [r [Hrun Herr]].
  - reflexivity.
  - exists r. split; [ exact Hrun | ]. rewrite Herr. reflexivity.
Defined.

(* ------------------------------------------------------------------ *)
(** ** The override validator: where it returns *)

(** X18. On an accepted schema [OverrideValidationService.validate]
    returns a result exactly when the override blob is falsy or a
    mapping; for any other blob, such as a non-empty list, a non-empty
    string or a non-zero number, it raises AttributeError. *)
Theorem validate_defined_iff (s o : value) (role env : string) :
  valid_schema s ->
  (is_blob o /\
   exists r,
     OverrideValidationService.validate
       {| schema := s; overrides := o;
          acting_role := role; environment := env |} = Ok r) \/
  (~ is_blob o /\
   OverrideValidationService.validate
     {| schema := s; overrides := o;
        acting_role := role; environment := env |} = Raise AttributeError).
Proof.
  intros Hv.
  destruct (valid_schema_namespaces s Hv) as [top [-> [Htop [_ Hok]]]].
  assert (Hblob : is_blob o ->
            is_blob o /\
            exists r,
              OverrideValidationService.validate
                {| schema := VDict top; overrides := o;
                   acting_role := role; environment := env |} = Ok r).
  { intros Hb. split; [ exact Hb | ]. eexists.
    apply (validate_refines top _ o role env Htop Hok Hb). }
  destruct (truthy o) eqn:Ht; [ | left; apply Hblob; now left ].
  destruct o as [ | | | | | | d ];
    try (left; apply Hblob; right; eexists; reflexivity);
    right; (split; [ intros [Hf | [d Hd]]; congruence | ]);
    unfold OverrideValidationService.validate; cbn [schema overrides];
    simpl py_get; rewrite Htop, bind_Ok, Ht; reflexivity.
Qed.

Lemma validate_defined_iff_witness :
  OverrideValidationService.validate
    (Examples.request Examples.payments_schema (VStr "payments")) =
  Raise AttributeError.
Proof.
  destruct (validate_defined_iff Examples.payments_schema (VStr "payments")
              "editor" "prod") as [[_ [r Hr]] | [_ Hr]].
  - reflexivity.
  - discriminate Hr.
  - exact Hr.
Defined.
